(** * talkingface-toolkit: the BaseModel scaffold of live_speech_portraits.py

    A shallow embedding of
    [talkingface/model/audio_driven_talkingface/live_speech_portraits.py]:
    the abstract class [BaseModel] (device placement, checkpoint loading,
    train/eval toggling, learning-rate hooks, loss/visual bookkeeping) and
    the stub subclass [live_speech_portraits].

    Python objects are mutable and exceptions leave the mutations made so
    far in place, so methods are functions [world -> result A * world].
    Calls into the framework (torch, os.path, print) are recorded in a log,
    in program order. *)

From Stdlib Require Import ZArith Ascii DecimalString DecimalZ.
From Stdlib Require String.
From stdpp Require Import gmap strings list fin_maps.

Local Open Scope Z_scope.
Set Warnings "-register-all".

(** ** Python strings

    A [str] is modelled by a [string] of 8-bit characters: names, paths and
    state-dict keys of this code are ASCII. *)

Module PyStr.

(** [s[n:]] for [n >= 0]. *)
Fixpoint drop (n : nat) (s : string) : string :=
  match n, s with
  | O, _ => s
  | S _, EmptyString => EmptyString
  | S n', String _ s' => drop n' s'
  end.

(** [s[-n:]] for [n > 0]: the last [n] characters, or all of [s] when it
    is shorter. *)
Definition suffix (n : nat) (s : string) : string :=
  drop (String.length s - n)%nat s.

(** [s.startswith(p)]. *)
Definition startswith (p s : string) : bool := String.prefix p s.

(** [sep.join(l)]. *)
Fixpoint join (sep : string) (l : list string) : string :=
  match l with
  | [] => ""
  | [x] => x
  | x :: rest => x +:+ sep +:+ join sep rest
  end.

(** [s.split(c)] for a one-character separator [c]: never empty. *)
Fixpoint split (c : ascii) (s : string) : list string :=
  match s with
  | EmptyString => [""]
  | String a s' =>
      if Ascii.eqb a c then "" :: split c s'
      else match split c s' with
           | [] => [String a ""]
           | w :: ws => String a w :: ws
           end
  end.

(** [str(z)], also what ['%s' % z] and ['{}'.format(z)] print for an int. *)
Definition of_Z (z : Z) : string := NilZero.string_of_int (Z.to_int z).

End PyStr.

(** ** Exceptions and results *)

Inductive exn : Set :=
  | AttributeError
  | IndexError
  | KeyError
  | TypeError
  | ValueError
  | RuntimeError
  | UnpicklingError
  | FileNotFoundError.

Inductive result (A : Type) : Type :=
  | Ok (a : A)
  | Raise (e : exn).
Arguments Ok {A} a.
Arguments Raise {A} e.

Global Instance exn_eq_dec : EqDecision exn.
Proof. solve_decision. Defined.

Definition is_ok {A} (r : result A) : bool :=
  match r with Ok _ => true | Raise _ => false end.

(** ** OrderedDict with string keys

    An association list without duplicate keys, in insertion order.
    A state dict is an [odict tensor]. *)

Module OrderedDict.
Section Ops.
Context {V : Type}.

Definition t := list (string * V).

Definition keys (d : t) : list string := d.*1.

Fixpoint get (k : string) (d : t) : option V :=
  match d with
  | [] => None
  | (k', v) :: d' => if decide (k' = k) then Some v else get k d'
  end.

Definition mem (k : string) (d : t) : bool := bool_decide (is_Some (get k d)).

Fixpoint remove (k : string) (d : t) : t :=
  match d with
  | [] => []
  | (k', v) :: d' => if decide (k' = k) then d' else (k', v) :: remove k d'
  end.

(** [d.pop(k)]: the value and the dict without [k]; [KeyError] when [k]
    is absent. *)
Definition pop (k : string) (d : t) : result (V * t) :=
  match get k d with
  | Some v => Ok (v, remove k d)
  | None => Raise KeyError
  end.

(** [d[k] = v]: an existing key keeps its position, a new one goes last. *)
Fixpoint set (k : string) (v : V) (d : t) : t :=
  match d with
  | [] => [(k, v)]
  | (k', v') :: d' =>
      if decide (k' = k) then (k, v) :: d' else (k', v') :: set k v d'
  end.
End Ops.
Arguments t : clear implicits.
End OrderedDict.

Abbreviation odict := OrderedDict.t.

(** ** Framework objects *)

(** Identity of a heap-allocated framework object (network, optimizer,
    scheduler). *)
Definition ref := nat.

(** A value of a state dict: a tensor for a network, anything for an
    optimizer or a scheduler; its contents are opaque to this file. *)
Definition tensor := Z.

(** A Python float, identified by its IEEE-754 bit pattern. *)
Definition pyfloat := Z.

(** A module as the attribute walk of [__patch_instance_norm_state_dict]
    sees it: [module.__class__.__name__] and what [getattr(module, key)]
    finds. [PyNone] is [None] (an unregistered buffer such as the
    [running_mean] of an InstanceNorm layer that tracks no statistics). *)
Inductive pyobj : Type :=
  | PyNone
  | PyObj (cls : string) (attrs : list (string * pyobj)).

Definition class_name (o : pyobj) : string :=
  match o with
  | PyNone => "NoneType"
  | PyObj cls _ => cls
  end.

Fixpoint assoc {A} (key : string) (l : list (string * A)) : option A :=
  match l with
  | [] => None
  | (k, v) :: l' => if decide (k = key) then Some v else assoc key l'
  end.

(** [getattr(o, key)]. *)
Definition obj_getattr (o : pyobj) (key : string) : result pyobj :=
  match o with
  | PyNone => Raise AttributeError
  | PyObj _ attrs =>
      match assoc key attrs with
      | Some v => Ok v
      | None => Raise AttributeError
      end
  end.

Definition is_none (o : pyobj) : bool :=
  match o with PyNone => true | PyObj _ _ => false end.

(** What [torch.load] returns for a checkpoint: the entries and the
    [_metadata] attribute that [Module.state_dict()] attaches. *)
Record state_dict : Type := StateDict {
  sd_entries : odict tensor;
  sd_metadata : option (odict Z)
}.

(** A network (an [nn.Module] held in an attribute of the model). *)
Record net : Type := Net {
  net_module : pyobj;
  net_training : bool;
  net_weights : odict tensor;
  net_numel : list Z
}.

(** A file on disk: a pickled state dict, or anything else. *)
Inductive file : Type :=
  | FCheckpoint (sd : state_dict)
  | FOther.

Inductive device_t : Set :=
  | Cpu
  | Cuda (index : Z).

Global Instance device_eq_dec : EqDecision device_t.
Proof. solve_decision. Defined.

(** [str(device)]; the index [-1] stands for no index. *)
Definition device_str (d : device_t) : string :=
  match d with
  | Cpu => "cpu"
  | Cuda i => if i =? -1 then "cuda" else "cuda:" +:+ PyStr.of_Z i
  end.

(** The largest C [int]: what [std::stoi] can return. *)
Definition INT_MAX : Z := 2147483647.

(** The cast of a C [int] to [int8_t], the type of a device index. *)
Definition int8 (z : Z) : Z := (z + 128) mod 256 - 128.

(** [torch.device(s)] for the two shapes of string this file builds:
    ['cpu'] and ['cuda:' + index]. The index must be a string of decimal
    digits; torch rejects anything else (a sign, an empty index) with a
    [RuntimeError]. It reads the digits with [std::stoi], which fails
    beyond [INT_MAX] (again a [RuntimeError]), and keeps the result in a
    signed byte: an index above 127 wraps around. *)
Definition torch_device (s : string) : result device_t :=
  if String.eqb s "cpu" then Ok Cpu
  else if PyStr.startswith "cuda:" s then
    match NilEmpty.uint_of_string (PyStr.drop 5 s) with
    | Some (Decimal.Nil) => Raise RuntimeError
    | Some d =>
        if Z.of_uint d <=? INT_MAX then Ok (Cuda (int8 (Z.of_uint d)))
        else Raise RuntimeError
    | None => Raise RuntimeError
    end
  else Raise RuntimeError.

(** The [epoch] argument of [load_networks]: the int of the docstring or
    a string. *)
Inductive epoch_val : Type :=
  | EInt (z : Z)
  | EStr (s : string).

(** ['%s' % epoch]. *)
Definition epoch_str (e : epoch_val) : string :=
  match e with
  | EInt z => PyStr.of_Z z
  | EStr s => s
  end.

(** The experiment flags [opt] that this file reads. *)
Record Opt : Type := MkOpt {
  opt_gpu_ids : list Z;
  opt_isTrain : bool;
  opt_checkpoints_dir : string;
  opt_name : string;
  opt_continue_train : bool;
  opt_load_epoch : epoch_val;
  opt_verbose : bool;
  opt_lr_policy : string
}.

(** Python values held in attributes and lists of the model. Of the
    methods this file calls on what it takes for a network ([train],
    [eval], [state_dict], [load_state_dict], [parameters]), a network has
    all, an optimizer and a scheduler have [state_dict] and
    [load_state_dict], the class of the model has [train] and [eval] as
    plain functions, and the other values have none: [VObj] is a tensor
    or an image, [VMethod] a bound method of the model, [VBuiltin] the
    value of an attribute that every object inherits (a string, [None],
    a dict, a method wrapper). *)
Inductive pyval : Type :=
  | VNone
  | VBool (b : bool)
  | VInt (z : Z)
  | VFloat (f : pyfloat)
  | VStr (s : string)
  | VList (l : list pyval)
  | VDevice (d : device_t)
  | VOpt (o : Opt)
  | VNet (r : ref)
  | VOptimizer (r : ref)
  | VScheduler (r : ref)
  | VMethod (name : string)
  | VObj (id : nat)
  | VClass
  | VBuiltin (name : string).

(** [os.path.join(a, b)] (posixpath). *)
Definition path_join (a b : string) : string :=
  if PyStr.startswith "/" b then b
  else if String.eqb a "" || String.eqb (PyStr.suffix 1 a) "/" then a +:+ b
  else a +:+ "/" +:+ b.

(** ** [BaseModel.__patch_instance_norm_state_dict]

    [rest] is [keys[i:]]; the state dict is returned instead of mutated in
    place, every exception being raised before the first mutation. *)
Definition patch_leaf (sd : odict tensor) (module : pyobj)
    (keys : list string) (key : string) : result (odict tensor) :=
  let inorm := PyStr.startswith "InstanceNorm" (class_name module) in
  let step1 :=
    if inorm && (String.eqb key "running_mean" || String.eqb key "running_var")
    then
      match obj_getattr module key with
      | Raise e => Raise e
      | Ok v =>
          if is_none v then
            match OrderedDict.pop (PyStr.join "." keys) sd with
            | Ok (_, sd') => Ok sd'
            | Raise e => Raise e
            end
          else Ok sd
      end
    else Ok sd in
  match step1 with
  | Raise e => Raise e
  | Ok sd1 =>
      if inorm && String.eqb key "num_batches_tracked" then
        match OrderedDict.pop (PyStr.join "." keys) sd1 with
        | Ok (_, sd') => Ok sd'
        | Raise e => Raise e
        end
      else Ok sd1
  end.

Fixpoint patch_from (sd : odict tensor) (module : pyobj)
    (keys rest : list string) : result (odict tensor) :=
  match rest with
  | [] => Raise IndexError
  | key :: rest' =>
      match rest' with
      | [] => patch_leaf sd module keys key
      | _ :: _ =>
          match obj_getattr module key with
          | Ok m => patch_from sd m keys rest'
          | Raise e => Raise e
          end
      end
  end.

Definition patch_instance_norm_state_dict (sd : odict tensor)
    (module : pyobj) (keys : list string) (i : nat) : result (odict tensor) :=
  patch_from sd module keys (drop i keys).

(** ** Modules and their state dicts *)

(** Walking a key path from a module: [getattr] at every step. *)
Fixpoint resolve (module : pyobj) (path : list string) : result pyobj :=
  match path with
  | [] => Ok module
  | key :: path' =>
      match obj_getattr module key with
      | Ok m => resolve m path'
      | Raise e => Raise e
      end
  end.

Definition is_instance_norm (module : pyobj) : bool :=
  PyStr.startswith "InstanceNorm" (class_name module).

(** [track_running_stats] of a normalization layer: a layer that tracks
    no statistics registers [running_mean] and [running_var] as [None]. *)
Definition track_running_stats (module : pyobj) : bool :=
  match obj_getattr module "running_mean" with
  | Ok v => negb (is_none v)
  | Raise _ => true
  end.

(** A dotted key as the path of its module and the name of the entry. *)
Fixpoint split_last (keys : list string) : list string * string :=
  match keys with
  | [] => ([], "")
  | [name] => ([], name)
  | key :: keys' => let (path, name) := split_last keys' in (key :: path, name)
  end.

(** The version that the [_metadata] of a state dict records for the
    module at [path]; a state dict without [_metadata] records none. *)
Definition module_version (metadata : option (odict Z))
    (path : list string) : option Z :=
  match metadata with
  | Some meta => OrderedDict.get (PyStr.join "." path) meta
  | None => None
  end.

(** What [_InstanceNorm._load_from_state_dict] reports as an error,
    whatever [strict] is: an entry [running_mean] or [running_var] for an
    InstanceNorm layer that tracks no statistics, in a state dict whose
    [_metadata] records no version for the layer. *)
Definition stale_key (metadata : option (odict Z)) (module : pyobj)
    (key : string) : bool :=
  let (path, name) := split_last (PyStr.split "." key) in
  (String.eqb name "running_mean" || String.eqb name "running_var")
  && match resolve module path with
     | Ok m =>
         is_instance_norm m && negb (track_running_stats m)
         && negb (bool_decide (is_Some (module_version metadata path)))
     | Raise _ => false
     end.

(** ** The model object and the world around it *)

(** Instance attributes that [BaseModel.__init__] assigns, [schedulers]
    (assigned by [setup] only, hence optional), and [attrs], every other
    attribute that is not inherited from [object] in all versions of
    Python: what a subclass adds (networks, [loss_*] values, visuals, its
    own methods) and what the running interpreter adds to every object
    beyond [object_attributes] below ([__getstate__] from Python 3.11
    on). *)
Record BaseModel : Type := MkBaseModel {
  opt : Opt;
  gpu_ids : list Z;
  isTrain : bool;
  device : device_t;
  save_dir : string;
  loss_names : list pyval;
  model_names : list pyval;
  visual_names : list pyval;
  optimizers : list ref;
  image_paths : list pyval;
  metric : pyval;
  schedulers : option (list ref);
  attrs : gmap string pyval
}.

(** Methods that the class body of [BaseModel] defines. *)
Definition BaseModel_methods : list string :=
  [ "__init__"; "modify_commandline_options"; "set_input"; "forward";
    "optimize_parameters"; "setup"; "train"; "eval"; "test";
    "compute_visuals"; "get_image_paths"; "update_learning_rate";
    "get_current_visuals"; "get_current_losses"; "save_networks";
    "_BaseModel__patch_instance_norm_state_dict"; "load_networks";
    "print_networks"; "set_requires_grad" ].

Definition instance_fields (m : BaseModel) : list (string * pyval) :=
  [ ("opt", VOpt (opt m));
    ("gpu_ids", VList (VInt <$> gpu_ids m));
    ("isTrain", VBool (isTrain m));
    ("device", VDevice (device m));
    ("save_dir", VStr (save_dir m));
    ("loss_names", VList (loss_names m));
    ("model_names", VList (model_names m));
    ("visual_names", VList (visual_names m));
    ("optimizers", VList (VOptimizer <$> optimizers m));
    ("image_paths", VList (image_paths m));
    ("metric", metric m) ]
  ++ match schedulers m with
     | Some l => [("schedulers", VList (VScheduler <$> l))]
     | None => []
     end.

(** Attributes that [object] and [ABC] give to every instance, in every
    version of Python 3, through the class ([__class__], [__dict__] and
    [__weakref__], which are data descriptors, apart). *)
Definition object_attributes : list string :=
  [ "__abstractmethods__"; "__delattr__"; "__dir__"; "__doc__"; "__eq__";
    "__format__"; "__ge__"; "__getattribute__"; "__gt__"; "__hash__";
    "__init_subclass__"; "__le__"; "__lt__"; "__module__"; "__ne__";
    "__new__"; "__reduce__"; "__reduce_ex__"; "__repr__"; "__setattr__";
    "__sizeof__"; "__slots__"; "__str__"; "__subclasshook__"; "_abc_impl" ].

(** [getattr(self, name)]: the data descriptors of the class first
    ([__class__] is the class itself), then the instance attributes, then
    the methods of the class, then what [object] provides. *)
Definition getattr_self (m : BaseModel) (name : string) : result pyval :=
  if String.eqb name "__class__" then Ok VClass
  else if String.eqb name "__dict__" || String.eqb name "__weakref__"
  then Ok (VBuiltin name)
  else
    match assoc name (instance_fields m) with
    | Some v => Ok v
    | None =>
        match attrs m !! name with
        | Some v => Ok v
        | None =>
            if bool_decide (name ∈ BaseModel_methods) then Ok (VMethod name)
            else if bool_decide (name ∈ object_attributes)
            then Ok (VBuiltin name)
            else Raise AttributeError
        end
    end.

(** What [print] writes. The digits that ['%.3f'] and ['%.7f'] produce
    and the [repr] of a module are not modelled: the printed number or
    network is recorded. *)
Inductive printed : Type :=
  | PText (s : string)
  | PNet (r : ref)
  | PNumParams (name : string) (num_params : Z)
  | PLearningRate (lr : pyfloat).

Inductive self_call : Type :=
  | CallLoadNetworks (epoch : epoch_val)
  | CallPrintNetworks (verbose : bool).

(** Calls that leave the class, and calls of [setup] to methods of
    [self], in program order. *)
Inductive event : Type :=
  | EPrint (p : printed)
  | EPathExists (path : string)
  | ETorchLoad (path : string) (map_location : string)
  | ELoadStateDict (r : ref) (sd : state_dict) (strict : bool)
  | ENetTrain (r : ref) (mode : bool)
  | ENetEval (r : ref)
  | EGetScheduler (optimizer : ref)
  | ESchedulerStep (scheduler : ref) (arg : option pyval)
  | ESelfCall (c : self_call).

(** Operations this file calls but does not define: [networks.get_scheduler]
    (a module of this repository that is not part of the file), the
    scheduler and optimizer objects of torch, the builtin [float], and
    the test of [load_state_dict] on a value of the state dict:
    [cannot_copy param input] when [input] is no tensor or has not the
    shape of the parameter [param]. [optim_state] is the mutable state of
    all optimizers and schedulers. *)
Class Framework : Type := {
  optim_state : Type;
  get_scheduler : ref -> Opt -> optim_state -> result ref * optim_state;
  scheduler_step :
    ref -> option pyval -> optim_state -> result unit * optim_state;
  param_groups : ref -> optim_state -> option (list (odict pyval));
  py_float : pyval -> result pyfloat;
  cannot_copy : tensor -> tensor -> bool
}.

Section Model.
Context `{FW : Framework}.

Record world : Type := MkWorld {
  self : BaseModel;
  nets : gmap ref net;
  optim : optim_state;
  fs : gmap string file;
  cudnn_enabled : bool;
  cudnn_benchmark : bool;
  log : list event
}.

Definition with_self (m : BaseModel) (w : world) : world :=
  MkWorld m (nets w) (optim w) (fs w) (cudnn_enabled w) (cudnn_benchmark w)
    (log w).

Definition with_nets (n : gmap ref net) (w : world) : world :=
  MkWorld (self w) n (optim w) (fs w) (cudnn_enabled w) (cudnn_benchmark w)
    (log w).

Definition with_optim (s : optim_state) (w : world) : world :=
  MkWorld (self w) (nets w) s (fs w) (cudnn_enabled w) (cudnn_benchmark w)
    (log w).

Definition with_cudnn (enabled benchmark : bool) (w : world) : world :=
  MkWorld (self w) (nets w) (optim w) (fs w) enabled benchmark (log w).

Definition with_log (l : list event) (w : world) : world :=
  MkWorld (self w) (nets w) (optim w) (fs w) (cudnn_enabled w)
    (cudnn_benchmark w) l.

(** *** The monad of methods: state that survives exceptions *)

Definition M (A : Type) : Type := world -> result A * world.

Definition ret {A} (a : A) : M A := fun w => (Ok a, w).

Definition raise {A} (e : exn) : M A := fun w => (Raise e, w).

Definition bind {A B} (m : M A) (k : A -> M B) : M B :=
  fun w =>
    match m w with
    | (Ok a, w') => k a w'
    | (Raise e, w') => (Raise e, w')
    end.

Definition lift {A} (r : result A) : M A := fun w => (r, w).

Definition gets {A} (f : BaseModel -> A) : M A := fun w => (Ok (f (self w)), w).

Definition modify (f : world -> world) : M unit := fun w => (Ok tt, f w).

Definition emit (e : event) : M unit :=
  modify (fun w => with_log (log w ++ [e]) w).

End Model.

Notation "'let*' x ':=' m 'in' k" := (bind m (fun x => k))
  (at level 10, x name, m at level 100, k at level 200).
Notation "m '>>' k" := (bind m (fun _ => k))
  (at level 80, right associativity).

Section Methods.
Context `{FW : Framework}.

(** [for x in l: body(x)]. *)
Fixpoint for_each {A} (l : list A) (body : A -> M unit) : M unit :=
  match l with
  | [] => ret tt
  | x :: l' => body x >> for_each l' body
  end.

(** [[f(x) for x in l]]. *)
Fixpoint list_comp {A B} (l : list A) (f : A -> M B) : M (list B) :=
  match l with
  | [] => ret []
  | x :: l' =>
      let* y := f x in
      let* ys := list_comp l' f in
      ret (y :: ys)
  end.

(** A loop that threads a local variable [acc]. *)
Fixpoint for_fold {A S} (l : list A) (body : A -> S -> M S) (acc : S) : M S :=
  match l with
  | [] => ret acc
  | x :: l' => let* acc' := body x acc in for_fold l' body acc'
  end.

Definition getattr (name : string) : M pyval :=
  fun w => (getattr_self (self w) name, w).

(** *** [BaseModel.__init__] *)

Definition init_flags (o : Opt) (m : BaseModel) : BaseModel :=
  MkBaseModel o (opt_gpu_ids o) (opt_isTrain o) (device m) (save_dir m)
    (loss_names m) (model_names m) (visual_names m) (optimizers m)
    (image_paths m) (metric m) (schedulers m) (attrs m).

Definition init_device (d : device_t) (m : BaseModel) : BaseModel :=
  MkBaseModel (opt m) (gpu_ids m) (isTrain m) d (save_dir m)
    (loss_names m) (model_names m) (visual_names m) (optimizers m)
    (image_paths m) (metric m) (schedulers m) (attrs m).

Definition init_save_dir (d : string) (m : BaseModel) : BaseModel :=
  MkBaseModel (opt m) (gpu_ids m) (isTrain m) (device m) d
    (loss_names m) (model_names m) (visual_names m) (optimizers m)
    (image_paths m) (metric m) (schedulers m) (attrs m).

Definition init_lists (m : BaseModel) : BaseModel :=
  MkBaseModel (opt m) (gpu_ids m) (isTrain m) (device m) (save_dir m)
    [] [] [] [] [] (VInt 0) (schedulers m) (attrs m).

Definition modify_self (f : BaseModel -> BaseModel) : M unit :=
  modify (fun w => with_self (f (self w)) w).

Definition BaseModel_init (o : Opt) : M unit :=
  modify_self (init_flags o) >>
  let* ids := gets gpu_ids in
  let* d :=
    if (0 <? Z.of_nat (length ids)) then
      match ids with
      | g :: _ => lift (torch_device ("cuda:" +:+ PyStr.of_Z g))
      | [] => raise IndexError
      end
    else lift (torch_device "cpu") in
  modify_self (init_device d) >>
  modify_self (init_save_dir (path_join (opt_checkpoints_dir o) (opt_name o))) >>
  modify (with_cudnn true true) >>
  modify_self init_lists.

(** *** [BaseModel.train] and [BaseModel.eval] *)

Definition set_training (mode : bool) (n : net) : net :=
  Net (net_module n) mode (net_weights n) (net_numel n).

(** [net.train(mode=mode)] on whatever [getattr] returned. On the class
    of the model [train] is the plain function [BaseModel.train(self)]:
    the call has no [self] and an unexpected keyword, a [TypeError]. *)
Definition net_train (v : pyval) (mode : bool) : M unit :=
  match v with
  | VNet r =>
      fun w =>
        match nets w !! r with
        | Some n =>
            (emit (ENetTrain r mode) >>
             modify (fun w => with_nets (<[r := set_training mode n]> (nets w)) w)) w
        | None => (Raise AttributeError, w)
        end
  | VClass => raise TypeError
  | _ => raise AttributeError
  end.

(** [net.eval()]; on the class of the model the call lacks [self]. *)
Definition net_eval (v : pyval) : M unit :=
  match v with
  | VNet r =>
      fun w =>
        match nets w !! r with
        | Some n =>
            (emit (ENetEval r) >>
             modify (fun w => with_nets (<[r := set_training false n]> (nets w)) w)) w
        | None => (Raise AttributeError, w)
        end
  | VClass => raise TypeError
  | _ => raise AttributeError
  end.

Definition train : M unit :=
  let* names := gets model_names in
  for_each names (fun name =>
    match name with
    | VStr s => let* v := getattr s in net_train v true
    | _ => ret tt
    end).

Definition eval : M unit :=
  let* names := gets model_names in
  for_each names (fun name =>
    match name with
    | VStr s => let* v := getattr s in net_eval v
    | _ => ret tt
    end).

(** *** [BaseModel.update_learning_rate] *)

Definition step (s : ref) (arg : option pyval) : M unit :=
  emit (ESchedulerStep s arg) >>
  fun w =>
    let (r, st) := scheduler_step s arg (optim w) in (r, with_optim st w).

(** [self.optimizers[0].param_groups[0]['lr']]. *)
Definition first_lr (m : BaseModel) (st : optim_state) : result pyval :=
  match optimizers m with
  | [] => Raise IndexError
  | o :: _ =>
      match param_groups o st with
      | None => Raise AttributeError
      | Some [] => Raise IndexError
      | Some (g :: _) =>
          match OrderedDict.get "lr" g with
          | Some lr => Ok lr
          | None => Raise KeyError
          end
      end
  end.

(** ['%.7f' % lr]: the number protocol of [float(lr)], except that a
    string is not parsed: it is no real number, a [TypeError]. *)
Definition format_float (lr : pyval) : result pyfloat :=
  match lr with
  | VStr _ => Raise TypeError
  | _ => py_float lr
  end.

Definition update_learning_rate : M unit :=
  let* scheds := gets schedulers in
  match scheds with
  | None => raise AttributeError
  | Some l =>
      for_each l (fun scheduler =>
        let* o := gets opt in
        if String.eqb (opt_lr_policy o) "plateau" then
          let* mt := gets metric in step scheduler (Some mt)
        else step scheduler None) >>
      let* lr := (fun w => (first_lr (self w) (optim w), w)) in
      let* text := lift (format_float lr) in
      emit (EPrint (PLearningRate text))
  end.

(** *** [BaseModel.get_current_visuals] and [BaseModel.get_current_losses] *)

Definition get_current_visuals : M (odict pyval) :=
  let* names := gets visual_names in
  for_fold names (fun name visual_ret =>
    match name with
    | VStr s =>
        let* v := getattr s in
        ret (OrderedDict.set s v visual_ret)
    | _ => ret visual_ret
    end) [].

Definition get_current_losses : M (odict pyfloat) :=
  let* names := gets loss_names in
  for_fold names (fun name errors_ret =>
    match name with
    | VStr s =>
        let* v := getattr ("loss_" +:+ s) in
        let* f := lift (py_float v) in
        ret (OrderedDict.set s f errors_ret)
    | _ => ret errors_ret
    end) [].

(** *** [BaseModel.load_networks] *)

(** [load_path] of one loop iteration; [epoch[-3:]] needs a string. *)
Definition load_path_of (m : BaseModel) (epoch : epoch_val) (name : string)
    : result string :=
  match epoch with
  | EInt _ => Raise TypeError
  | EStr e =>
      if String.eqb (PyStr.suffix 3 e) "pkl" then Ok e
      else
        let load_filename := epoch_str epoch +:+ "_" +:+ name +:+ ".pkl" in
        Ok (path_join (save_dir m) load_filename)
  end.

(** [state_dict[key[7:]] = state_dict.pop(key)]. *)
Definition strip_step (key : string) (d : odict tensor)
    : result (odict tensor) :=
  match OrderedDict.pop key d with
  | Ok (v, d') => Ok (OrderedDict.set (PyStr.drop 7 key) v d')
  | Raise e => Raise e
  end.

(** [for key in ks: state_dict[key[7:]] = state_dict.pop(key)]. *)
Fixpoint strip_keys (ks : list string) (d : odict tensor)
    : result (odict tensor) :=
  match ks with
  | [] => Ok d
  | key :: ks' =>
      match strip_step key d with
      | Ok d' => strip_keys ks' d'
      | Raise e => Raise e
      end
  end.

(** [if hasattr(state_dict, '_metadata'): del state_dict._metadata]. *)
Definition del_metadata (sd : state_dict) : state_dict :=
  match sd_metadata sd with
  | Some _ => StateDict (sd_entries sd) None
  | None => sd
  end.

Definition path_exists (path : string) : M bool :=
  emit (EPathExists path) >>
  fun w => (Ok (bool_decide (is_Some (fs w !! path))), w).

Definition torch_load (path map_location : string) : M state_dict :=
  emit (ETorchLoad path map_location) >>
  fun w =>
    match fs w !! path with
    | Some (FCheckpoint sd) => (Ok sd, w)
    | Some FOther => (Raise UnpicklingError, w)
    | None => (Raise FileNotFoundError, w)
    end.

(** [Module.load_state_dict(sd, strict=False)] works on a copy of [sd]
    from which the layers have removed the entries they report as
    stale. *)
Definition load_entries (sd : state_dict) (n : net) : odict tensor :=
  filter (fun kv => stale_key (sd_metadata sd) (net_module n) kv.1 = false)
    (sd_entries sd).

(** An entry of the module whose key is in the state dict takes the
    loaded value unless it cannot be copied; missing and unexpected keys
    are ignored. *)
Definition copy_weight (entries : odict tensor) (kv : string * tensor)
    : string * tensor :=
  match OrderedDict.get kv.1 entries with
  | Some v => if cannot_copy kv.2 v then kv else (kv.1, v)
  | None => kv
  end.

Definition load_weights (sd : state_dict) (n : net) : net :=
  Net (net_module n) (net_training n)
    (copy_weight (load_entries sd n) <$> net_weights n)
    (net_numel n).

(** The errors that [load_state_dict] collects while it loads and raises
    as one [RuntimeError] at the end, whatever [strict] is: stale
    running statistics and values that cannot be copied. *)
Definition load_errors (sd : state_dict) (n : net) : bool :=
  existsb (stale_key (sd_metadata sd) (net_module n))
    (OrderedDict.keys (sd_entries sd))
  || existsb (fun kv =>
                match OrderedDict.get kv.1 (load_entries sd n) with
                | Some v => cannot_copy kv.2 v
                | None => false
                end) (net_weights n).

(** [net.load_state_dict(sd, strict=False)] on whatever [getattr]
    returned. The [load_state_dict] of an optimizer or a scheduler has
    no parameter [strict]. *)
Definition net_load_state_dict (v : pyval) (sd : state_dict) : M unit :=
  match v with
  | VNet r =>
      fun w =>
        match nets w !! r with
        | Some n =>
            (emit (ELoadStateDict r sd false) >>
             modify (fun w => with_nets (<[r := load_weights sd n]> (nets w)) w) >>
             if load_errors sd n then raise RuntimeError else ret tt) w
        | None => (Raise AttributeError, w)
        end
  | VOptimizer _ | VScheduler _ => raise TypeError
  | _ => raise AttributeError
  end.

(** The body of the loop for a string entry [name]. *)
Definition load_network (epoch : epoch_val) (name : string) : M unit :=
  let* m := gets (fun m => m) in
  let* load_path := lift (load_path_of m epoch name) in
  let* net := getattr name in
  let* found := path_exists load_path in
  if found then
    let* dev := gets device in
    let* loaded := torch_load load_path (device_str dev) in
    let* cpu := lift (torch_device "cpu") in
    let* entries :=
      if decide (dev = cpu) then
        lift (strip_keys (OrderedDict.keys (sd_entries loaded))
                (sd_entries loaded))
      else ret (sd_entries loaded) in
    let state_dict := del_metadata (StateDict entries (sd_metadata loaded)) in
    emit (EPrint (PText ("loading the model from " +:+ load_path))) >>
    net_load_state_dict net state_dict
  else
    emit (EPrint (PText ("No model weight file: " +:+ load_path +:+
                         " initialize model without pre-trained weights."))) >>
    let* is_train := gets isTrain in
    if negb is_train then raise ValueError else ret tt.

(** The loop of [load_networks] over the entries [names]. *)
Definition load_names (epoch : epoch_val) (names : list pyval) : M unit :=
  for_each names (fun name =>
    match name with
    | VStr s => load_network epoch s
    | _ => ret tt
    end).

Definition load_networks (epoch : epoch_val) : M unit :=
  let* names := gets model_names in
  load_names epoch names.

(** *** [BaseModel.print_networks] *)

Definition print_network (verbose : bool) (name : string) : M unit :=
  let* v := getattr name in
  match v with
  | VNet r =>
      fun w =>
        match nets w !! r with
        | Some n =>
            let num_params := foldr Z.add 0 (net_numel n) in
            ((if verbose then emit (EPrint (PNet r)) else ret tt) >>
             emit (EPrint (PNumParams name num_params))) w
        | None => (Raise AttributeError, w)
        end
  | _ => raise AttributeError
  end.

Definition print_networks (verbose : bool) : M unit :=
  emit (EPrint (PText "---------- Networks initialized -------------")) >>
  let* names := gets model_names in
  for_each names (fun name =>
    match name with
    | VStr s => print_network verbose s
    | _ => ret tt
    end) >>
  emit (EPrint (PText "-----------------------------------------------")).

(** *** [BaseModel.setup] *)

Definition set_schedulers (l : list ref) (m : BaseModel) : BaseModel :=
  MkBaseModel (opt m) (gpu_ids m) (isTrain m) (device m) (save_dir m)
    (loss_names m) (model_names m) (visual_names m) (optimizers m)
    (image_paths m) (metric m) (Some l) (attrs m).

(** [networks.get_scheduler(optimizer, opt)]. *)
Definition call_get_scheduler (optimizer : ref) (o : Opt) : M ref :=
  emit (EGetScheduler optimizer) >>
  fun w =>
    let (r, st) := get_scheduler optimizer o (optim w) in (r, with_optim st w).

Definition setup (o : Opt) : M unit :=
  let* is_train := gets isTrain in
  (if is_train then
     let* opts := gets optimizers in
     let* l := list_comp opts (fun optimizer => call_get_scheduler optimizer o) in
     modify_self (set_schedulers l)
   else ret tt) >>
  let* is_train := gets isTrain in
  (if negb is_train || opt_continue_train o then
     emit (ESelfCall (CallLoadNetworks (opt_load_epoch o))) >>
     load_networks (opt_load_epoch o)
   else ret tt) >>
  emit (ESelfCall (CallPrintNetworks (opt_verbose o))) >>
  print_networks (opt_verbose o).

End Methods.

(** ** [live_speech_portraits]

    The subclass of [AbstractTalkingFace], a class of this repository that
    is defined in another file: its initializer is a parameter, acting on
    the state [S] of the object under construction and of whatever else it
    touches. *)

Section LiveSpeechPortraits.
Context {S Config : Type}.
Variable AbstractTalkingFace_init : S -> result unit * S.

(** [super(live_speech_portraits, self).__init__(); return]. *)
Definition live_speech_portraits_init (config : Config)
    : S -> result unit * S :=
  fun st =>
    match AbstractTalkingFace_init st with
    | (Ok _, st') => (Ok tt, st')
    | (Raise e, st') => (Raise e, st')
    end.

End LiveSpeechPortraits.

(** Methods that the class body of [live_speech_portraits] defines. *)
Definition live_speech_portraits_methods : list string := [ "__init__" ].

(** ** Notions the statements below use *)

(** The string entries of a list of names, in order. *)
Definition str_entries (names : list pyval) : list string :=
  omap (fun name => match name with VStr s => Some s | _ => None end) names.

(** The elements of a list in order of first appearance. *)
Fixpoint first_occurrences (l : list string) : list string :=
  match l with
  | [] => []
  | x :: l' => x :: filter (fun y => y ≠ x) (first_occurrences l')
  end.

(** Dropping the first 7 characters of a later key never yields a key
    that is still waiting for its turn. *)
Fixpoint no_clash (ks : list string) : Prop :=
  match ks with
  | [] => True
  | k :: ks' => (PyStr.drop 7 k ∉ ks') ∧ no_clash ks'
  end.

Definition is_file_access (p : string) (e : event) : Prop :=
  e = EPathExists p ∨ ∃ ml, e = ETorchLoad p ml.

(** The argument [update_learning_rate] passes to [scheduler.step]:
    [self.metric] under the ['plateau'] policy, none otherwise. *)
Definition step_arg (m : BaseModel) : option pyval :=
  if String.eqb (opt_lr_policy (opt m)) "plateau" then Some (metric m)
  else None.

(** Events that one iteration of [load_networks] for the name [s] may
    log: file accesses at the load path of [s], prints, and
    [load_state_dict]. *)
Definition load_event_ok (m : BaseModel) (epoch : epoch_val) (s : string)
    (ev : event) : Prop :=
  match ev with
  | EPathExists p | ETorchLoad p _ => load_path_of m epoch s = Ok p
  | EPrint _ | ELoadStateDict _ _ _ => True
  | _ => False
  end.

Definition is_print (ev : event) : Prop :=
  match ev with EPrint _ => True | _ => False end.

Definition is_get_scheduler (ev : event) : Prop :=
  match ev with EGetScheduler _ => True | _ => False end.

(** Events that [load_networks] may log. *)
Definition is_load_event (ev : event) : Prop :=
  match ev with
  | EPathExists _ | ETorchLoad _ _ | EPrint _ | ELoadStateDict _ _ _ => True
  | _ => False
  end.

Section Runs.
Context `{FW : Framework}.

(** [l] holds the results of [networks.get_scheduler(optimizer, o)] for
    the optimizers [opts], called in order from state [st]. *)
Inductive scheduler_run (o : Opt)
    : optim_state -> list ref -> list ref -> optim_state -> Prop :=
  | scheduler_run_nil st : scheduler_run o st [] [] st
  | scheduler_run_cons st st1 st2 optimizer opts s l :
      get_scheduler optimizer o st = (Ok s, st1) ->
      scheduler_run o st1 opts l st2 ->
      scheduler_run o st (optimizer :: opts) (s :: l) st2.

(** [w0] is the world after the first statement of [setup o] from [w]
    when no [get_scheduler] raises: in training the schedulers are
    created and assigned, outside training nothing happens. *)
Definition scheduled (o : Opt) (w w0 : world) : Prop :=
  if isTrain (self w) then
    ∃ l st1,
      scheduler_run o (optim w) (optimizers (self w)) l st1
      ∧ w0 = MkWorld (set_schedulers l (self w)) (nets w) st1 (fs w)
               (cudnn_enabled w) (cudnn_benchmark w)
               (log w ++ (EGetScheduler <$> optimizers (self w)))
  else w0 = w.

(** [scheduler.step(arg)] called on the schedulers [l] in order takes
    the optimizers from state [st] to state [st'], no call raising. *)
Inductive step_run (arg : option pyval)
    : optim_state -> list ref -> optim_state -> Prop :=
  | step_run_nil st : step_run arg st [] st
  | step_run_cons st st1 st2 s l :
      scheduler_step s arg st = (Ok tt, st1) ->
      step_run arg st1 l st2 ->
      step_run arg st (s :: l) st2.

(** The networks that the string entries of [names] denote. *)
Definition named_nets (m : BaseModel) (names : list pyval) : list ref :=
  omap (fun s => match getattr_self m s with
                 | Ok (VNet r) => Some r
                 | _ => None
                 end) (str_entries names).

(** The loop body of [get_current_visuals] and [get_current_losses] with
    the right-hand side of the assignment abstracted: [read] is what it
    evaluates to. *)
Definition collect {V} (read : BaseModel -> string -> result V)
    (name : pyval) (acc : odict V) : M (odict V) :=
  match name with
  | VStr s =>
      fun w =>
        match read (self w) s with
        | Ok v => (Ok (OrderedDict.set s v acc), w)
        | Raise e => (Raise e, w)
        end
  | _ => ret acc
  end.

End Runs.

(** ** Example configurations *)

Module Demo.

(** A framework whose schedulers halve nothing: [get_scheduler] numbers
    the scheduler after its optimizer, [step] leaves the optimizers as
    they are, [float] accepts floats and ints, and the hundreds of a
    tensor stand for its shape. *)
Definition framework : Framework := {|
  optim_state := gmap ref (list (odict pyval));
  get_scheduler := fun optimizer _ st => (Ok (100 + optimizer)%nat, st);
  scheduler_step := fun _ _ st => (Ok tt, st);
  param_groups := fun r st => st !! r;
  py_float := fun v =>
    match v with
    | VFloat f => Ok f
    | VInt z => Ok z
    | _ => Raise TypeError
    end;
  cannot_copy := fun param input => negb (param / 100 =? input / 100)
|}.

Definition instance_norm : pyobj :=
  PyObj "InstanceNorm2d"
    [ ("weight", PyNone); ("bias", PyNone);
      ("running_mean", PyNone); ("running_var", PyNone) ].

Definition generator : net :=
  Net (PyObj "Generator"
         [ ("conv1", PyObj "Conv2d" [("weight", PyObj "Parameter" [])]);
           ("norm", instance_norm) ])
      false
      [ ("conv1.weight", 10) ]
      [ 27; 3 ].

Definition options (is_train : bool) (ids : list Z) (epoch : epoch_val) : Opt :=
  MkOpt ids is_train "checkpoints" "May" false epoch true "plateau".

Definition model (is_train : bool) (d : device_t) : BaseModel :=
  MkBaseModel (options is_train [] (EStr "latest")) [] is_train d
    "checkpoints/May"
    [ VStr "G"; VInt 3; VStr "G" ]
    [ VStr "G"; VNone ]
    [ VStr "fake"; VStr "save_dir" ]
    [ 7%nat ] [] (VInt 0) (Some [ 107%nat; 107%nat ])
    {[ "G" := VNet 1%nat; "loss_G" := VFloat 42; "fake" := VObj 5%nat ]}.

Definition checkpoint : state_dict :=
  StateDict
    [ ("module.conv1.weight", 11); ("conv1.weight", 12);
      ("norm.num_batches_tracked", 13) ]
    (Some [ ("", 1) ]).

Definition world0 (is_train : bool) (d : device_t)
    (files : gmap string file) : @world framework :=
  MkWorld (model is_train d) {[ 1%nat := generator ]}
    {[ 7%nat := [ [ ("lr", VFloat 2) ] ] ]}
    files false false [].

Definition files0 : gmap string file :=
  {[ "checkpoints/May/latest_G.pkl" := FCheckpoint checkpoint ]}.

(** A checkpoint saved from a network that was not wrapped: no key
    starts with ['module.']. *)
Definition plain_checkpoint : state_dict :=
  StateDict [ ("conv1.weight", 12); ("norm.running_mean", 14) ] None.

Definition files1 : gmap string file :=
  {[ "checkpoints/May/latest_G.pkl" := FCheckpoint plain_checkpoint ]}.

(** A model whose only name, ['D'], is no attribute. *)
Definition unbound_model (is_train : bool) : BaseModel :=
  MkBaseModel (options is_train [] (EStr "latest")) [] is_train Cpu
    "checkpoints/May" [] [ VStr "D" ] [] [] [] (VInt 0) None ∅.

Definition world_unbound (is_train : bool) : @world framework :=
  MkWorld (unbound_model is_train) ∅ ∅ ∅ false false [].

End Demo.

(** ** The remaining methods of [BaseModel] *)

(** What saving needs besides the model: [write_error p] is the exception
    that opening [p] for writing raises ([None] when the file can be
    written: its directory exists and is writable),
    [module_versions n] is the [_metadata] that [Module.state_dict()]
    attaches to the state dict of [n], and [optimizer_state_dict] and
    [scheduler_state_dict] are the [state_dict()] of the optimizers and
    schedulers of torch. *)
Class Saving `{FW : Framework} : Type := {
  write_error : string -> option exn;
  module_versions : net -> odict Z;
  optimizer_state_dict : ref -> optim_state -> state_dict;
  scheduler_state_dict : ref -> optim_state -> state_dict
}.

Section SaveMethods.
Context `{FW : Framework} `{SV : !Saving}.

Definition with_fs (f : gmap string file) (w : world) : world :=
  MkWorld (self w) (nets w) (optim w) f (cudnn_enabled w) (cudnn_benchmark w)
    (log w).

(** Writing a file: [torch.save(obj, path)] and [np.savetxt(path, ...)]. *)
Definition write_file (path : string) (f : file) : M unit :=
  fun w =>
    match write_error path with
    | Some e => (Raise e, w)
    | None => (Ok tt, with_fs (<[path := f]> (fs w)) w)
    end.

(** [Module.state_dict()] of a network. *)
Definition state_dict_of (n : net) : state_dict :=
  StateDict (net_weights n) (Some (module_versions n)).

(** [net.state_dict()] on whatever [getattr] returned: networks,
    optimizers and schedulers have one. *)
Definition net_state_dict (v : pyval) : M state_dict :=
  match v with
  | VNet r =>
      fun w =>
        match nets w !! r with
        | Some n => (Ok (state_dict_of n), w)
        | None => (Raise AttributeError, w)
        end
  | VOptimizer r => fun w => (Ok (optimizer_state_dict r (optim w)), w)
  | VScheduler r => fun w => (Ok (scheduler_state_dict r (optim w)), w)
  | _ => raise AttributeError
  end.

(** [os.path.join(self.save_dir, '%s_%s.pkl' % (epoch, name))]. *)
Definition save_path_of (m : BaseModel) (epoch : epoch_val) (name : string)
    : string :=
  let save_filename := epoch_str epoch +:+ "_" +:+ name +:+ ".pkl" in
  path_join (save_dir m) save_filename.

(** The body of the loop of [save_networks] for a string entry [name]. *)
Definition save_network (epoch : epoch_val) (name : string) : M unit :=
  let* m := gets (fun m => m) in
  let save_path := save_path_of m epoch name in
  let* net := getattr name in
  let* sd := net_state_dict net in
  write_file save_path (FCheckpoint sd).

(** [BaseModel.save_networks(epoch, train_info)]; [train_info] is [None]
    or a pair of ints. The text that [np.savetxt] writes is not a state
    dict: the file it leaves is [FOther]. *)
Definition save_networks (epoch : epoch_val) (train_info : option (Z * Z))
    : M unit :=
  let* names := gets model_names in
  for_each names (fun name =>
    match name with
    | VStr s => save_network epoch s
    | _ => ret tt
    end) >>
  match train_info with
  | Some (_, _) =>
      let* d := gets save_dir in
      let iter_path := path_join d "iter.txt" in
      write_file iter_path FOther
  | None => ret tt
  end.

End SaveMethods.

(** [BaseModel.set_requires_grad(nets, requires_grad)]. Parameters are
    objects of their own, which networks may share: [parameters] gives
    the parameters of every network, and the state the method works on
    holds the [requires_grad] flag of every parameter. *)
Definition set_flags (requires_grad : bool) (params : list ref)
    (g : gmap ref bool) : gmap ref bool :=
  foldl (fun g param => <[param := requires_grad]> g) g params.

(** The loop over [nets]: [None] is skipped, anything that is not a
    network has no [parameters()]. *)
Fixpoint set_requires_grad_loop (parameters : gmap ref (list ref))
    (l : list pyval) (requires_grad : bool) (g : gmap ref bool)
    : result unit * gmap ref bool :=
  match l with
  | [] => (Ok tt, g)
  | VNone :: l' => set_requires_grad_loop parameters l' requires_grad g
  | VNet r :: l' =>
      match parameters !! r with
      | Some params =>
          set_requires_grad_loop parameters l' requires_grad
            (set_flags requires_grad params g)
      | None => (Raise AttributeError, g)
      end
  | _ :: _ => (Raise AttributeError, g)
  end.

Definition set_requires_grad (parameters : gmap ref (list ref))
    (nets : pyval) (requires_grad : bool) (g : gmap ref bool)
    : result unit * gmap ref bool :=
  let nets := match nets with VList l => l | v => [v] end in
  set_requires_grad_loop parameters nets requires_grad g.

(** ** Notions the statements about these methods use *)

(** The events that [print_networks] logs for one network. *)
Definition network_report (verbose : bool) (name : string) (r : ref) (n : net)
    : list event :=
  (if verbose then [EPrint (PNet r)] else [])
  ++ [EPrint (PNumParams name (foldr Z.add 0 (net_numel n)))].

(** Two model objects that differ at most in [schedulers]. *)
Definition same_but_schedulers (m m' : BaseModel) : Prop :=
  opt m' = opt m ∧ gpu_ids m' = gpu_ids m ∧ isTrain m' = isTrain m
  ∧ device m' = device m ∧ save_dir m' = save_dir m
  ∧ loss_names m' = loss_names m ∧ model_names m' = model_names m
  ∧ visual_names m' = visual_names m ∧ optimizers m' = optimizers m
  ∧ image_paths m' = image_paths m ∧ metric m' = metric m
  ∧ attrs m' = attrs m.

(** Two networks that differ at most in their mode. *)
Definition same_but_mode (n n' : net) : Prop :=
  net_module n' = net_module n ∧ net_weights n' = net_weights n
  ∧ net_numel n' = net_numel n.

(** A value whose [state_dict()] can be called. *)
Definition has_state_dict `{FW : Framework} (w : world) (v : pyval) : Prop :=
  match v with
  | VNet r => is_Some (nets w !! r)
  | VOptimizer _ | VScheduler _ => True
  | _ => False
  end.

(** Every string entry of [names] names a live network. *)
Definition names_resolve `{FW : Framework} (w : world) (names : list pyval)
    : Prop :=
  ∀ s, VStr s ∈ names ->
    ∃ r, getattr_self (self w) s = Ok (VNet r) ∧ is_Some (nets w !! r).

(** The files that [save_networks] writes for the string entries of
    [names], in order. *)
Definition saved_files `{FW : Framework} `{SV : !Saving} (w : world)
    (epoch : epoch_val) (names : list pyval) : list (string * file) :=
  omap (fun s =>
          match getattr_self (self w) s with
          | Ok (VNet r) =>
              (fun n => (save_path_of (self w) epoch s,
                         FCheckpoint (state_dict_of n))) <$> nets w !! r
          | _ => None
          end) (str_entries names).

(** Writing files one after the other. *)
Definition write_all (files : list (string * file)) (f : gmap string file)
    : gmap string file :=
  foldl (fun f pf => <[pf.1 := pf.2]> f) f files.

(** [w'] differs from [w] at most in the log and in the mode of
    networks: no network appears or disappears, and the model object,
    the optimizers and the files are the same. *)
Definition mode_only `{FW : Framework} (w w' : world) : Prop :=
  self w' = self w ∧ optim w' = optim w ∧ fs w' = fs w
  ∧ ∀ r, match nets w !! r, nets w' !! r with
         | Some n, Some n' => same_but_mode n n'
         | None, None => True
         | _, _ => False
         end.

(** What [print_networks] prints between its two banners for the
    entries of [names]. *)
Definition network_reports `{FW : Framework} (verbose : bool) (w : world)
    (names : list pyval) : list event :=
  names ≫= (fun name =>
    match name with
    | VStr s =>
        match getattr_self (self w) s with
        | Ok (VNet r) =>
            match nets w !! r with
            | Some n => network_report verbose s r n
            | None => []
            end
        | _ => []
        end
    | _ => []
    end).

(** The parameters of the networks of a list. *)
Definition listed_params (parameters : gmap ref (list ref))
    (l : list pyval) : list ref :=
  l ≫= (fun v =>
    match v with
    | VNet r => default [] (parameters !! r)
    | _ => []
    end).

(** An entry that [set_requires_grad] accepts. *)
Definition has_parameters (parameters : gmap ref (list ref)) (v : pyval)
    : Prop :=
  v = VNone ∨ ∃ r, v = VNet r ∧ is_Some (parameters !! r).

(** Two networks that differ at most in the tensors of their weights:
    same module, same mode, same parameter counts, same keys. *)
Definition same_but_weights (n n' : net) : Prop :=
  net_module n' = net_module n ∧ net_training n' = net_training n
  ∧ net_numel n' = net_numel n
  ∧ (net_weights n').*1 = (net_weights n).*1.

(** [w'] differs from [w] at most in the log and in the tensors of
    networks. *)
Definition weights_only `{FW : Framework} (w w' : world) : Prop :=
  self w' = self w ∧ optim w' = optim w ∧ fs w' = fs w
  ∧ ∀ r, match nets w !! r, nets w' !! r with
         | Some n, Some n' => same_but_weights n n'
         | None, None => True
         | _, _ => False
         end.

(** What [load_networks] logs for the entries of [names] when none of
    their checkpoints exists. *)
Definition missing_reports (m : BaseModel) (epoch : epoch_val)
    (names : list pyval) : list event :=
  str_entries names ≫= (fun s =>
    match load_path_of m epoch s with
    | Ok p =>
        [ EPathExists p;
          EPrint (PText ("No model weight file: " +:+ p +:+
                         " initialize model without pre-trained weights.")) ]
    | Raise _ => []
    end).

Module Demo2.

(** Only the directory of the checkpoints can be written; the state
    dict of a module carries one version entry. *)
Definition saving_in_dir : @Saving Demo.framework := {|
  write_error := fun p =>
    if PyStr.startswith "checkpoints/May/" p then None
    else Some FileNotFoundError;
  module_versions := fun _ => [ ("", 1) ];
  optimizer_state_dict := fun _ _ =>
    StateDict [ ("state", 0); ("param_groups", 1) ] None;
  scheduler_state_dict := fun _ _ => StateDict [ ("last_epoch", 0) ] None
|}.

(** A network saved from a wrapped ([DataParallel]) module. *)
Definition wrapped_checkpoint : state_dict :=
  StateDict [ ("module.conv1.weight", 21) ] (Some [ ("", 1) ]).

Definition wrapped_files : gmap string file :=
  {[ "checkpoints/May/latest_G.pkl" := FCheckpoint wrapped_checkpoint ]}.

(** The generator of [Demo] after a training step changed its weight. *)
Definition trained_generator : net :=
  Net (net_module Demo.generator) true [ ("conv1.weight", 99) ]
    (net_numel Demo.generator).

(** Two networks that share the parameter [11]. *)
Definition net_parameters : gmap ref (list ref) :=
  {[ 1%nat := [10; 11]%nat; 2%nat := [11; 12]%nat ]}.

Definition grad_flags : gmap ref bool :=
  {[ 10%nat := true; 11%nat := true; 12%nat := true ]}.

(** A model whose second name is no attribute. *)
Definition model_two_names : BaseModel :=
  MkBaseModel (Demo.options true [] (EStr "latest")) [] true Cpu
    "checkpoints/May" [] [ VStr "G"; VStr "D" ] [] [] [] (VInt 0) None
    {[ "G" := VNet 1%nat ]}.

Definition world_two_names : @world Demo.framework :=
  MkWorld model_two_names {[ 1%nat := Demo.generator ]} ∅ ∅ false false [].

(** A model whose second name is an attribute that every object has. *)
Definition model_class_name : BaseModel :=
  MkBaseModel (Demo.options true [] (EStr "latest")) [] true Cpu
    "checkpoints/May" [] [ VStr "G"; VStr "__class__" ] [] [] [] (VInt 0) None
    {[ "G" := VNet 1%nat ]}.

Definition world_class_name : @world Demo.framework :=
  MkWorld model_class_name {[ 1%nat := Demo.generator ]} ∅ ∅ false false [].

End Demo2.

(** * Properties *)

(** ** Strings and devices *)

Lemma of_Z_nonneg_digits (z : Z) :
  0 <= z ->
  NilEmpty.uint_of_string (PyStr.of_Z z) = Some (Decimal.abs (Z.to_int z))
  ∧ Decimal.abs (Z.to_int z) ≠ Decimal.Nil
  ∧ Z.of_uint (Decimal.abs (Z.to_int z)) = z.
Proof.
  intros Hz. unfold PyStr.of_Z. destruct z as [|p|p]; [| |lia].
  - by vm_compute.
  - cbn [Z.to_int Decimal.abs NilZero.string_of_int].
    unfold NilZero.string_of_uint.
    pose proof (DecimalPos.Unsigned.to_uint_nonnil p) as Hnn.
    assert (Z.of_uint (Pos.to_uint p) = Z.pos p) as Hof.
    { unfold Z.of_uint. by rewrite DecimalPos.Unsigned.of_to. }
    destruct (Pos.to_uint p); try congruence;
      (split; [apply NilEmpty.usu|done]).
Qed.

Lemma of_Z_neg_no_digits (z : Z) :
  z < 0 -> NilEmpty.uint_of_string (PyStr.of_Z z) = None.
Proof.
  intros Hz. destruct z as [|p|p]; [lia|lia|].
  unfold PyStr.of_Z. cbn [Z.to_int NilZero.string_of_int NilEmpty.uint_of_string].
  by destruct (NilEmpty.uint_of_string _).
Qed.

Lemma startswith_app (p s : string) : PyStr.startswith p (p +:+ s) = true.
Proof.
  unfold PyStr.startswith. induction p as [|a p IH].
  - by destruct s.
  - change (String a p +:+ s) with (String a (p +:+ s)).
    cbn [String.prefix]. by destruct (ascii_dec a a).
Qed.

Lemma split_nonempty (c : ascii) (s : string) : PyStr.split c s ≠ [].
Proof.
  destruct s as [|a s]; cbn; [done|].
  destruct (Ascii.eqb a c); [done|]. by destruct (PyStr.split c s).
Qed.

(** ['.'.join(key.split('.')) == key]: the key path of an entry names the
    entry. *)
Lemma join_split (c : ascii) (s : string) :
  PyStr.join (String c "") (PyStr.split c s) = s.
Proof.
  induction s as [|a s IH]; cbn [PyStr.split]; [done|].
  pose proof (split_nonempty c s) as Hne.
  destruct (Ascii.eqb_spec a c) as [->|Hac].
  - destruct (PyStr.split c s) as [|w ws]; [done|].
    change (PyStr.join (String c "") ("" :: w :: ws))
      with ("" +:+ String c "" +:+ PyStr.join (String c "") (w :: ws)).
    by rewrite IH.
  - destruct (PyStr.split c s) as [|w ws]; [done|].
    rewrite <- IH. by destruct ws.
Qed.

(** [torch.device('cuda:{}'.format(g))] succeeds exactly when [g] is a
    non-negative C [int], and keeps [g] as a signed byte. *)
Lemma torch_device_cuda (g : Z) :
  torch_device ("cuda:" +:+ PyStr.of_Z g) =
  if (0 <=? g) && (g <=? INT_MAX) then Ok (Cuda (int8 g))
  else Raise RuntimeError.
Proof.
  unfold torch_device.
  change (String.eqb ("cuda:" +:+ PyStr.of_Z g) "cpu") with false.
  rewrite startswith_app.
  change (PyStr.drop 5 ("cuda:" +:+ PyStr.of_Z g)) with (PyStr.of_Z g).
  cbv iota. destruct (Z.leb_spec 0 g) as [H|H].
  - destruct (of_Z_nonneg_digits g H) as (-> & Hnn & Hz).
    cbn beta. destruct (Decimal.abs (Z.to_int g)); try congruence;
      by rewrite Hz.
  - by rewrite of_Z_neg_no_digits.
Qed.


Lemma int8_range (g : Z) : -128 <= int8 g <= 127.
Proof.
  unfold int8. pose proof (Z.mod_pos_bound (g + 128) 256 ltac:(lia)). lia.
Qed.

Ltac unfold_monad :=
  unfold bind, ret, raise, lift, gets, emit, modify_self, modify, getattr in *.

(** ** [BaseModel.__init__]: device placement *)

Section InitProperties.
Context `{FW : Framework}.



(** What the constructor leaves behind when it returns. *)
Lemma BaseModel_init_state (o : Opt) (w w' : world) :
  BaseModel_init o w = (Ok tt, w') ->
  self w' =
    MkBaseModel o (opt_gpu_ids o) (opt_isTrain o) (device (self w'))
      (path_join (opt_checkpoints_dir o) (opt_name o)) [] [] [] [] []
      (VInt 0) (schedulers (self w)) (attrs (self w))
  ∧ cudnn_enabled w' = true ∧ cudnn_benchmark w' = true
  ∧ nets w' = nets w ∧ fs w' = fs w ∧ log w' = log w.
Proof.
  unfold BaseModel_init, init_lists, init_save_dir, init_device, init_flags.
  unfold_monad. cbn.
  destruct (opt_gpu_ids o) as [|g ids] eqn:E; cbn.
  - intros [= <-]. by cbn.
  - rewrite torch_device_cuda.
    destruct ((0 <=? g) && (g <=? INT_MAX)); [|done].
    intros [= <-]. by cbn.
Qed.



End InitProperties.

(** ** [live_speech_portraits.__init__] *)

(** C8: for every [config], constructing a [live_speech_portraits] does
    what the initializer of [AbstractTalkingFace] does and nothing else:
    same outcome, same state, no dependence on [config]; the class
    defines no method besides [__init__]. *)
Theorem C8_subclass_init_is_superclass_init {S Config : Type}
    (AbstractTalkingFace_init : S -> result unit * S)
    (config : Config) (st : S) :
  live_speech_portraits_init AbstractTalkingFace_init config st
    = AbstractTalkingFace_init st
  ∧ (∀ config' : Config,
       live_speech_portraits_init AbstractTalkingFace_init config' st
       = live_speech_portraits_init AbstractTalkingFace_init config st)
  ∧ live_speech_portraits_methods = ["__init__"].
Proof.
  unfold live_speech_portraits_init. split; [|done].
  by destruct (AbstractTalkingFace_init st) as [[[]|e] st'].
Qed.

(** ** OrderedDict *)

Section OrderedDictProperties.
Context {V : Type}.
Implicit Types (d : odict V) (k : string) (v : V).

Lemma od_get_Some_keys d k :
  is_Some (OrderedDict.get k d) ↔ k ∈ OrderedDict.keys d.
Proof.
  unfold OrderedDict.keys. induction d as [|[k' v'] d IH]; cbn.
  - split; [by intros [? ?]|by intros ?%elem_of_nil].
  - case_decide as Hk; subst.
    + split; [intros _; apply list_elem_of_here|by eauto].
    + rewrite IH. split; [by apply list_elem_of_further|].
      intros [?|?]%elem_of_cons; by subst.
Qed.

Lemma od_get_None_keys d k :
  OrderedDict.get k d = None ↔ k ∉ OrderedDict.keys d.
Proof. rewrite <- od_get_Some_keys, eq_None_not_Some. done. Qed.

Lemma od_keys_set d k v :
  OrderedDict.keys (OrderedDict.set k v d) =
  if decide (k ∈ OrderedDict.keys d) then OrderedDict.keys d
  else OrderedDict.keys d ++ [k].
Proof.
  unfold OrderedDict.keys. induction d as [|[k' v'] d IH]; cbn.
  - case_decide as H; [by apply elem_of_nil in H|done].
  - destruct (decide (k' = k)) as [->|Hne]; cbn.
    + rewrite decide_True; [done|apply list_elem_of_here].
    + rewrite IH. destruct (decide (k ∈ d.*1)) as [Hin|Hin].
      * rewrite decide_True; [done|by apply list_elem_of_further].
      * rewrite decide_False; [done|].
        intros [?|?]%elem_of_cons; by subst.
Qed.

Lemma od_set_fresh d k v :
  k ∉ OrderedDict.keys d -> OrderedDict.set k v d = d ++ [(k, v)].
Proof.
  unfold OrderedDict.keys. induction d as [|[k' v'] d IH]; cbn; [done|].
  intros Hk. apply not_elem_of_cons in Hk as [Hne Hk].
  rewrite decide_False by done. by rewrite IH.
Qed.

Lemma od_get_set_eq d k v : OrderedDict.get k (OrderedDict.set k v d) = Some v.
Proof.
  induction d as [|[k' v'] d IH]; cbn.
  - by rewrite decide_True.
  - destruct (decide (k' = k)) as [->|Hne]; cbn.
    + by rewrite decide_True.
    + by rewrite decide_False.
Qed.

Lemma od_get_set_ne d k k' v :
  k ≠ k' -> OrderedDict.get k' (OrderedDict.set k v d) = OrderedDict.get k' d.
Proof.
  intros Hne. induction d as [|[k0 v0] d IH]; cbn.
  - by rewrite decide_False.
  - destruct (decide (k0 = k)) as [->|Hne0]; cbn.
    + by rewrite !decide_False.
    + by rewrite IH.
Qed.

Lemma od_keys_remove d k :
  OrderedDict.keys (OrderedDict.remove k d) ⊆ OrderedDict.keys d.
Proof.
  unfold OrderedDict.keys. induction d as [|[k' v'] d IH]; cbn; [done|].
  case_decide; cbn.
  - intros x Hx. by apply list_elem_of_further.
  - intros x [->|Hx]%elem_of_cons; [apply list_elem_of_here|].
    apply list_elem_of_further. by apply IH.
Qed.

Lemma od_keys_remove_ne d k k' :
  k' ≠ k -> k' ∈ OrderedDict.keys d -> k' ∈ OrderedDict.keys (OrderedDict.remove k d).
Proof.
  unfold OrderedDict.keys. intros Hne.
  induction d as [|[k0 v0] d IH]; cbn; [done|].
  intros [->|Hin]%elem_of_cons.
  - rewrite decide_False by done. apply list_elem_of_here.
  - case_decide; [done|]. cbn. apply list_elem_of_further. by apply IH.
Qed.

Lemma od_get_remove_ne d k k' :
  k' ≠ k -> OrderedDict.get k' (OrderedDict.remove k d) = OrderedDict.get k' d.
Proof.
  intros Hne. induction d as [|[k0 v0] d IH]; cbn; [done|].
  destruct (decide (k0 = k)) as [->|Hne0]; cbn.
  - by rewrite decide_False.
  - by rewrite IH.
Qed.

Lemma od_get_remove_eq d k :
  NoDup (OrderedDict.keys d) ->
  OrderedDict.get k (OrderedDict.remove k d) = None.
Proof.
  unfold OrderedDict.keys.
  induction d as [|[k0 v0] d IH]; cbn; [done|].
  intros [Hk0 Hnd]%NoDup_cons.
  destruct (decide (k0 = k)) as [->|Hne0]; cbn.
  - by apply od_get_None_keys.
  - rewrite decide_False by done. by apply IH.
Qed.

Lemma od_remove_absent d k :
  k ∉ OrderedDict.keys d -> OrderedDict.remove k d = d.
Proof.
  unfold OrderedDict.keys. induction d as [|[k0 v0] d IH]; cbn; [done|].
  intros [Hne Hk]%not_elem_of_cons. rewrite decide_False by done.
  by rewrite IH.
Qed.

End OrderedDictProperties.

(** ** First occurrences *)

Lemma first_occurrences_filter (P : string -> Prop) `{!∀ x, Decision (P x)}
    (l : list string) :
  filter P (first_occurrences l) = first_occurrences (filter P l).
Proof.
  induction l as [|x l IH]; [done|].
  cbn [first_occurrences]. rewrite !filter_cons.
  destruct (decide (P x)) as [HP|HP]; cbn [first_occurrences].
  - rewrite <- IH. f_equal. rewrite !list_filter_filter.
    apply list_filter_iff. intros y. tauto.
  - rewrite <- IH. rewrite list_filter_filter.
    apply list_filter_iff. intros y. split; [tauto|].
    intros Hy. split; [done|]. by intros ->.
Qed.

Lemma filter_Forall_id {A} (P : A -> Prop) `{!∀ x, Decision (P x)}
    (l : list A) :
  Forall P l -> filter P l = l.
Proof.
  induction 1 as [|x l HP _ IH]; [done|].
  by rewrite filter_cons_True, IH.
Qed.

Lemma first_occurrences_NoDup (l : list string) :
  NoDup l -> first_occurrences l = l.
Proof.
  induction l as [|x l IH]; cbn; [done|].
  intros [Hx Hnd]%NoDup_cons. rewrite IH by done. f_equal.
  apply filter_Forall_id, Forall_forall. by intros y Hy ->.
Qed.

Lemma first_occurrences_elem (l : list string) (x : string) :
  x ∈ first_occurrences l ↔ x ∈ l.
Proof.
  induction l as [|y l IH]; cbn; [done|].
  rewrite !elem_of_cons, list_elem_of_filter, IH.
  destruct (decide (x = y)); tauto.
Qed.

Lemma first_occurrences_is_NoDup (l : list string) :
  NoDup (first_occurrences l).
Proof.
  induction l as [|y l IH]; cbn; [constructor|].
  apply NoDup_cons. split; [|by apply NoDup_filter].
  rewrite list_elem_of_filter. tauto.
Qed.

(** ** [get_current_visuals] and [get_current_losses] *)

Lemma str_entries_cons (s : string) (names : list pyval) :
  str_entries (VStr s :: names) = s :: str_entries names.
Proof. reflexivity. Qed.

Lemma str_entries_elem (s : string) (names : list pyval) :
  s ∈ str_entries names ↔ VStr s ∈ names.
Proof.
  unfold str_entries. rewrite list_elem_of_omap. split.
  - intros (x & Hx & Hs). destruct x; try done. by injection Hs as ->.
  - intros H. by exists (VStr s).
Qed.

Section CollectProperties.
Context `{FW : Framework} {V : Type}.
Implicit Types (read : BaseModel -> string -> result V) (acc d : odict V).

Lemma collect_world read names acc w r w' :
  for_fold names (collect read) acc w = (r, w') -> w' = w.
Proof.
  revert acc. induction names as [|name names IH]; intros acc; cbn.
  - by intros [= _ <-].
  - unfold bind. destruct name; cbn; try apply IH.
    destruct (read (self w) s); [apply IH|by intros [= _ <-]].
Qed.

Lemma collect_keys read names acc w d w' :
  for_fold names (collect read) acc w = (Ok d, w') ->
  OrderedDict.keys d =
  OrderedDict.keys acc ++
  first_occurrences
    (filter (fun s => s ∉ OrderedDict.keys acc) (str_entries names)).
Proof.
  revert acc. induction names as [|name names IH]; intros acc.
  - intros [= <- _]. by rewrite app_nil_r.
  - cbn [for_fold]. unfold bind.
    destruct name; try apply IH.
    rewrite str_entries_cons. cbn [collect].
    destruct (read (self w) s) as [v|e]; [|done].
    intros Hrun. rewrite (IH _ Hrun), od_keys_set.
    rewrite filter_cons.
    destruct (decide (s ∈ OrderedDict.keys acc)) as [Hin|Hin].
    + by rewrite decide_False by (by intros ?).
    + rewrite decide_True by done. cbn [first_occurrences].
      rewrite <- app_assoc. cbn [app]. do 2 f_equal.
      rewrite first_occurrences_filter, list_filter_filter. f_equal.
      apply list_filter_iff. intros y.
      rewrite not_elem_of_app, list_elem_of_singleton. tauto.
Qed.

Lemma collect_values read names acc w d w' :
  for_fold names (collect read) acc w = (Ok d, w') ->
  (∀ s, s ∈ str_entries names ->
        ∃ v, read (self w) s = Ok v ∧ OrderedDict.get s d = Some v)
  ∧ (∀ s, s ∉ str_entries names ->
          OrderedDict.get s d = OrderedDict.get s acc).
Proof.
  revert acc. induction names as [|name names IH]; intros acc; cbn.
  - intros [= <- _]. split; [by intros s ?%elem_of_nil|done].
  - unfold bind. destruct name; cbn; try apply IH.
    destruct (read (self w) s) as [v|e] eqn:Hread; [|done].
    intros Hrun. destruct (IH _ Hrun) as [IH1 IH2].
    unfold str_entries. cbn. fold (str_entries names). split.
    + intros s' Hs'. destruct (decide (s' ∈ str_entries names)) as [Hin|Hin].
      { by apply IH1. }
      apply elem_of_cons in Hs' as [->|?]; [|done].
      exists v. split; [done|]. rewrite IH2 by done. apply od_get_set_eq.
    + intros s' [Hne Hs']%not_elem_of_cons. rewrite IH2 by done.
      by apply od_get_set_ne.
Qed.

Lemma collect_total read names acc w :
  (∀ s, s ∈ str_entries names -> is_ok (read (self w) s) = true) ->
  ∃ d, for_fold names (collect read) acc w = (Ok d, w).
Proof.
  revert acc. induction names as [|name names IH]; intros acc Hall; cbn.
  - by eexists.
  - unfold bind. destruct name; cbn; try by apply IH.
    destruct (read (self w) s) as [v|e] eqn:Hread.
    + apply IH. intros s' Hs'. apply Hall. unfold str_entries. cbn.
      by apply list_elem_of_further.
    + specialize (Hall s). rewrite Hread in Hall. cbn in Hall.
      discriminate Hall. unfold str_entries. cbn. apply list_elem_of_here.
Qed.

End CollectProperties.

Section CurrentProperties.
Context `{FW : Framework}.

Lemma for_fold_ext {A S} (l : list A) (body1 body2 : A -> S -> M S)
    (acc : S) (w : world) :
  (∀ x acc w, body1 x acc w = body2 x acc w) ->
  for_fold l body1 acc w = for_fold l body2 acc w.
Proof.
  intros Hext. revert acc w. induction l as [|x l IH]; intros acc w; [done|].
  cbn. unfold bind. rewrite Hext.
  destruct (body2 x acc w) as [[acc'|e] w1]; [apply IH|done].
Qed.

(** What [float(getattr(self, 'loss_' + name))] evaluates to. *)
Lemma get_current_losses_collect (w : world) :
  get_current_losses w =
  for_fold (loss_names (self w))
    (collect (fun m s =>
       match getattr_self m ("loss_" +:+ s) with
       | Ok v => py_float v
       | Raise e => Raise e
       end)) [] w.
Proof.
  unfold get_current_losses. unfold_monad. apply for_fold_ext.
  intros name acc w0. destruct name; try done. cbn.
  destruct (getattr_self (self w0) ("loss_" +:+ s)); [|done].
  by destruct (py_float a).
Qed.

Lemma get_current_visuals_collect (w : world) :
  get_current_visuals w =
  for_fold (visual_names (self w)) (collect getattr_self) [] w.
Proof.
  unfold get_current_visuals. unfold_monad. apply for_fold_ext.
  intros name acc w0. by destruct name.
Qed.

(** C7: [get_current_losses] returns an ordered mapping whose keys are the
    string entries of [loss_names] in order of (first) appearance, each
    mapped to [float(getattr(self, 'loss_' + name))];
    [get_current_visuals] maps each string entry of [visual_names] to
    [getattr(self, name)], in order; other entries are skipped; the world
    is left as it was, whatever the outcome; and both return when every
    attribute they read exists (and converts to a float). *)
Theorem C7_current_losses_and_visuals (w : world) :
  (∀ r w', get_current_losses w = (r, w') -> w' = w)
  ∧ (∀ r w', get_current_visuals w = (r, w') -> w' = w)
  ∧ (∀ d w', get_current_losses w = (Ok d, w') ->
       OrderedDict.keys d
         = first_occurrences (str_entries (loss_names (self w)))
       ∧ (∀ s, s ∈ OrderedDict.keys d ↔ VStr s ∈ loss_names (self w))
       ∧ ∀ s, VStr s ∈ loss_names (self w) ->
           ∃ v f, getattr_self (self w) ("loss_" +:+ s) = Ok v
                  ∧ py_float v = Ok f
                  ∧ OrderedDict.get s d = Some f)
  ∧ (∀ d w', get_current_visuals w = (Ok d, w') ->
       OrderedDict.keys d
         = first_occurrences (str_entries (visual_names (self w)))
       ∧ (∀ s, s ∈ OrderedDict.keys d ↔ VStr s ∈ visual_names (self w))
       ∧ ∀ s, VStr s ∈ visual_names (self w) ->
           ∃ v, getattr_self (self w) s = Ok v
                ∧ OrderedDict.get s d = Some v)
  ∧ ((∀ s, VStr s ∈ loss_names (self w) ->
        ∃ v f, getattr_self (self w) ("loss_" +:+ s) = Ok v
               ∧ py_float v = Ok f) ->
     ∃ d, get_current_losses w = (Ok d, w))
  ∧ ((∀ s, VStr s ∈ visual_names (self w) ->
        ∃ v, getattr_self (self w) s = Ok v) ->
     ∃ d, get_current_visuals w = (Ok d, w)).
Proof.
  rewrite get_current_losses_collect, get_current_visuals_collect.
  split; [intros r w'; apply collect_world|].
  split; [intros r w'; apply collect_world|].
  split; [|split; [|split]].
  - intros d w' Hrun. pose proof (collect_keys _ _ _ _ _ _ Hrun) as Hk.
    cbn in Hk. rewrite filter_Forall_id in Hk
      by (apply Forall_forall; intros ? _; apply not_elem_of_nil).
    split; [done|]. split.
    + intros s. by rewrite Hk, first_occurrences_elem, str_entries_elem.
    + intros s Hs. apply str_entries_elem in Hs.
      destruct (collect_values _ _ _ _ _ _ Hrun) as [Hv _].
      destruct (Hv s Hs) as (f & Hread & Hget).
      destruct (getattr_self (self w) ("loss_" +:+ s)) as [v|e]; [|done].
      by exists v, f.
  - intros d w' Hrun. pose proof (collect_keys _ _ _ _ _ _ Hrun) as Hk.
    cbn in Hk. rewrite filter_Forall_id in Hk
      by (apply Forall_forall; intros ? _; apply not_elem_of_nil).
    split; [done|]. split.
    + intros s. by rewrite Hk, first_occurrences_elem, str_entries_elem.
    + intros s Hs. apply str_entries_elem in Hs.
      destruct (collect_values _ _ _ _ _ _ Hrun) as [Hv _].
      by apply Hv.
  - intros Hall. apply collect_total. intros s Hs%str_entries_elem.
    destruct (Hall s Hs) as (v & f & -> & ->). done.
  - intros Hall. apply collect_total. intros s Hs%str_entries_elem.
    destruct (Hall s Hs) as (v & ->). done.
Qed.

End CurrentProperties.

(** ** [train] and [eval] *)

Section ModeProperties.
Context `{FW : Framework}.

Lemma insert_as_alter (f : net -> net) (r : ref) (n : net)
    (ns : gmap ref net) :
  ns !! r = Some n -> <[r := f n]> ns = alter f r ns.
Proof.
  intros Hr. apply map_eq. intros j.
  rewrite lookup_insert, lookup_alter. case_decide; subst; [|done].
  by rewrite Hr.
Qed.

Lemma lookup_foldl_alter (mode : bool) (refs : list ref) (ns : gmap ref net)
    (r : ref) :
  foldl (fun ns r => alter (set_training mode) r ns) ns refs !! r =
  if decide (r ∈ refs) then set_training mode <$> ns !! r else ns !! r.
Proof.
  revert ns. induction refs as [|r0 refs IH]; intros ns; cbn.
  - by rewrite decide_False by apply not_elem_of_nil.
  - rewrite IH, lookup_alter.
    destruct (decide (r ∈ refs)), (decide (r0 = r)),
      (decide (r ∈ r0 :: refs)); subst; try done;
      try (by destruct (ns !! r)); exfalso;
      match goal with
      | H : _ ∉ _ :: _ |- _ => apply not_elem_of_cons in H as [? ?]; done
      | H : _ ∈ _ :: _ |- _ => apply elem_of_cons in H as [?|?]; done
      end.
Qed.

Lemma named_nets_cons_str (m : BaseModel) (s : string) (names : list pyval) :
  named_nets m (VStr s :: names) =
  match getattr_self m s with
  | Ok (VNet r) => r :: named_nets m names
  | _ => named_nets m names
  end.
Proof.
  unfold named_nets. rewrite str_entries_cons. cbn.
  by destruct (getattr_self m s) as [[]|].
Qed.

Lemma named_nets_cons_other (m : BaseModel) (name : pyval)
    (names : list pyval) :
  (∀ s, name ≠ VStr s) -> named_nets m (name :: names) = named_nets m names.
Proof. intros Hn. destruct name; try done. by destruct (Hn s). Qed.

Lemma named_nets_elem (m : BaseModel) (names : list pyval) (r : ref) :
  r ∈ named_nets m names ↔
  ∃ s, VStr s ∈ names ∧ getattr_self m s = Ok (VNet r).
Proof.
  unfold named_nets. rewrite list_elem_of_omap. split.
  - intros (s & Hs%str_entries_elem & Hr). exists s. split; [done|].
    destruct (getattr_self m s) as [[]|]; try done. by injection Hr as ->.
  - intros (s & Hs%str_entries_elem & Hr). exists s. by rewrite Hr.
Qed.

(** The loop of [train] and [eval], for any call [act] that logs one event
    and sets the mode of the network it is given. *)
Lemma mode_loop (mode : bool) (ev : ref -> event) (act : pyval -> M unit)
    (names : list pyval) (w : world) :
  (∀ r n (w0 : world), nets w0 !! r = Some n ->
     act (VNet r) w0 =
     (Ok tt, MkWorld (self w0) (<[r := set_training mode n]> (nets w0))
               (optim w0) (fs w0) (cudnn_enabled w0) (cudnn_benchmark w0)
               (log w0 ++ [ev r]))) ->
  (∀ s, VStr s ∈ names ->
     ∃ r, getattr_self (self w) s = Ok (VNet r) ∧ is_Some (nets w !! r)) ->
  for_each names (fun name =>
    match name with
    | VStr s => let* v := getattr s in act v
    | _ => ret tt
    end) w =
  (Ok tt,
   MkWorld (self w)
     (foldl (fun ns r => alter (set_training mode) r ns) (nets w)
        (named_nets (self w) names))
     (optim w) (fs w) (cudnn_enabled w) (cudnn_benchmark w)
     (log w ++ (ev <$> named_nets (self w) names))).
Proof.
  intros Hact. revert w. induction names as [|name names IH]; intros w Hres.
  - cbn. unfold ret. rewrite app_nil_r. by destruct w.
  - cbn [for_each]. unfold bind at 1.
    assert (∀ s, VStr s ∈ names ->
      ∃ r, getattr_self (self w) s = Ok (VNet r) ∧ is_Some (nets w !! r))
      as Hres' by (intros s Hs; apply Hres; by apply list_elem_of_further).
    assert ((∃ s, name = VStr s) ∨ (∀ s, name ≠ VStr s)) as [[s ->]|Hother]
      by (destruct name; try (right; intros ?; discriminate); left; eauto).
    + destruct (Hres s) as (r & Hget & [n Hn]); [apply list_elem_of_here|].
      unfold bind at 1, getattr at 1. rewrite Hget, (Hact r n w Hn).
      rewrite IH; cbn [self nets optim fs cudnn_enabled cudnn_benchmark log].
      * rewrite named_nets_cons_str, Hget. cbn.
        rewrite (insert_as_alter _ _ _ _ Hn), <- app_assoc. done.
      * intros s' Hs'. destruct (Hres' s' Hs') as (r' & Hget' & Hsome).
        exists r'. split; [done|]. rewrite lookup_insert_is_Some. 
        destruct (decide (r = r')); auto.
    + rewrite named_nets_cons_other by done.
      assert (match name with
              | VStr s => let* v := getattr s in act v
              | _ => ret tt
              end w = (Ok tt, w)) as ->.
      { destruct name; try done. by destruct (Hother s). }
      by apply IH.
Qed.

Lemma net_train_spec (mode : bool) (r : ref) (n : net) (w : world) :
  nets w !! r = Some n ->
  net_train (VNet r) mode w =
  (Ok tt, MkWorld (self w) (<[r := set_training mode n]> (nets w))
            (optim w) (fs w) (cudnn_enabled w) (cudnn_benchmark w)
            (log w ++ [ENetTrain r mode])).
Proof. intros Hn. unfold net_train. by rewrite Hn. Qed.

Lemma net_eval_spec (r : ref) (n : net) (w : world) :
  nets w !! r = Some n ->
  net_eval (VNet r) w =
  (Ok tt, MkWorld (self w) (<[r := set_training false n]> (nets w))
            (optim w) (fs w) (cudnn_enabled w) (cudnn_benchmark w)
            (log w ++ [ENetEval r])).
Proof. intros Hn. unfold net_eval. by rewrite Hn. Qed.

(** C5: when every string entry of [model_names] names a network,
    [train] puts each of these networks in training mode and [eval] in
    evaluation mode; entries that are not strings are skipped; networks
    that are not named keep their mode, every network keeps its weights,
    and the model object, the optimizers and the file system are left as
    they were. *)
Theorem C5_train_eval_modes (w : world) :
  (∀ s, VStr s ∈ model_names (self w) ->
     ∃ r, getattr_self (self w) s = Ok (VNet r) ∧ is_Some (nets w !! r)) ->
  ∃ w1 w2 : world,
    train w = (Ok tt, w1) ∧ eval w = (Ok tt, w2)
    ∧ (∀ s r, VStr s ∈ model_names (self w) ->
         getattr_self (self w) s = Ok (VNet r) ->
         net_training <$> nets w1 !! r = Some true
         ∧ net_training <$> nets w2 !! r = Some false)
    ∧ (∀ r, nets w1 !! r =
            if decide (r ∈ named_nets (self w) (model_names (self w)))
            then set_training true <$> nets w !! r else nets w !! r)
    ∧ (∀ r, nets w2 !! r =
            if decide (r ∈ named_nets (self w) (model_names (self w)))
            then set_training false <$> nets w !! r else nets w !! r)
    ∧ self w1 = self w ∧ self w2 = self w
    ∧ optim w1 = optim w ∧ optim w2 = optim w
    ∧ fs w1 = fs w ∧ fs w2 = fs w
    ∧ log w1 = log w ++
        ((fun r => ENetTrain r true)
           <$> named_nets (self w) (model_names (self w)))
    ∧ log w2 = log w ++
        (ENetEval <$> named_nets (self w) (model_names (self w))).
Proof.
  intros Hres.
  pose proof (mode_loop true (fun r => ENetTrain r true)
    (fun v => net_train v true) (model_names (self w)) w
    (net_train_spec true) Hres) as Htrain.
  pose proof (mode_loop false ENetEval net_eval (model_names (self w)) w
    net_eval_spec Hres) as Heval.
  eexists _, _. split; [exact Htrain|]. split; [exact Heval|].
  cbn [self nets optim fs log].
  split; [|by repeat split; try (intros r; apply lookup_foldl_alter)].
  intros s r Hs Hget. destruct (Hres s Hs) as (r' & Hget' & [n Hn]).
  assert (r' = r) as -> by congruence.
  rewrite !lookup_foldl_alter, !decide_True, Hn; [done|..];
    apply named_nets_elem; eauto.
Qed.

End ModeProperties.

(** ** [update_learning_rate] *)

Section LearningRateProperties.
Context `{FW : Framework}.

(** The body of the loop over [self.schedulers]. *)
Let lr_body (scheduler : ref) : M unit :=
  let* o := gets opt in
  if String.eqb (opt_lr_policy o) "plateau" then
    let* mt := gets metric in step scheduler (Some mt)
  else step scheduler None.

Lemma lr_body_spec (s : ref) (w : world) :
  lr_body s w =
  let (r, st) := scheduler_step s (step_arg (self w)) (optim w) in
  (r, MkWorld (self w) (nets w) st (fs w) (cudnn_enabled w)
        (cudnn_benchmark w) (log w ++ [ESchedulerStep s (step_arg (self w))])).
Proof.
  unfold lr_body, step_arg, step. unfold_monad. cbn.
  destruct (String.eqb _ _); cbn;
    by destruct (scheduler_step s _ (optim w)) as [[[]|e] st].
Qed.

(** A loop that completes has stepped every scheduler once, in order. *)
Lemma lr_loop_ok (l : list ref) (w w' : world) :
  for_each l lr_body w = (Ok tt, w') ->
  self w' = self w ∧ nets w' = nets w ∧ fs w' = fs w
  ∧ log w' = log w ++ ((fun s => ESchedulerStep s (step_arg (self w))) <$> l).
Proof.
  revert w. induction l as [|s l IH]; intros w; cbn [for_each].
  - intros [= <-]. by rewrite app_nil_r.
  - unfold bind. rewrite lr_body_spec.
    destruct (scheduler_step s _ (optim w)) as [[[]|e] st]; [|done].
    intros (Hs & Hn & Hf & Hl)%IH. cbn in *.
    rewrite Hs, Hn, Hf, Hl, <- app_assoc. done.
Qed.

(** A loop that raises leaves the model object as it was. *)
Lemma lr_loop_self (l : list ref) (w w' : world) (r : result unit) :
  for_each l lr_body w = (r, w') -> self w' = self w.
Proof.
  revert w. induction l as [|s l IH]; intros w; cbn [for_each].
  - by intros [= _ <-].
  - unfold bind. rewrite lr_body_spec.
    destruct (scheduler_step s _ (optim w)) as [[[]|e] st].
    + by intros ->%IH.
    + by intros [= _ <-].
Qed.

(** The world after the steps of the schedulers [l]. *)
Let stepped (l : list ref) (st : optim_state) (w : world) : world :=
  MkWorld (self w) (nets w) st (fs w) (cudnn_enabled w) (cudnn_benchmark w)
    (log w ++ ((fun s => ESchedulerStep s (step_arg (self w))) <$> l)).

(** The loop completes exactly along a run of steps that do not raise. *)
Lemma lr_loop_run (l : list ref) (w w' : world) :
  for_each l lr_body w = (Ok tt, w') ↔
  ∃ st', step_run (step_arg (self w)) (optim w) l st'
         ∧ w' = stepped l st' w.
Proof.
  unfold stepped. revert w w'.
  induction l as [|s l IH]; intros w w'; cbn [for_each].
  - split.
    + intros [= <-]. exists (optim w). split; [constructor|]. cbn.
      rewrite app_nil_r. by destruct w.
    + intros (st' & Hrun & ->). inversion Hrun; subst. cbn.
      rewrite app_nil_r. unfold ret. by destruct w.
  - unfold bind. rewrite lr_body_spec. split.
    + destruct (scheduler_step s _ (optim w)) as [[[]|e] st] eqn:Hstep;
        [|done].
      intros (st' & Hrun & ->)%IH. cbn in Hrun. exists st'.
      split; [by econstructor|]. cbn. by rewrite <- app_assoc.
    + intros (st' & Hrun & ->).
      inversion Hrun as [|? st1 ? ? ? Hstep Hrest]; subst.
      rewrite Hstep. apply IH. exists st'. cbn. split; [done|].
      by rewrite <- app_assoc.
Qed.

(** The loop stops at the first step that raises. *)
Lemma lr_loop_raise (before after : list ref) (s : ref) (w : world)
    (st1 st2 : optim_state) (e : exn) :
  step_run (step_arg (self w)) (optim w) before st1 ->
  scheduler_step s (step_arg (self w)) st1 = (Raise e, st2) ->
  for_each (before ++ s :: after) lr_body w
  = (Raise e, stepped (before ++ [s]) st2 w).
Proof.
  unfold stepped. revert w.
  induction before as [|s0 before IH]; intros w Hrun Hstep.
  - inversion Hrun; subst. cbn [app for_each]. unfold bind.
    rewrite lr_body_spec, Hstep. done.
  - inversion Hrun as [|? st0 ? ? ? Hstep0 Hrest]; subst.
    cbn [app for_each]. unfold bind. rewrite lr_body_spec, Hstep0.
    rewrite IH by done. cbn. by rewrite <- app_assoc.
Qed.

Lemma update_learning_rate_unfold (w : world) :
  update_learning_rate w =
  match schedulers (self w) with
  | None => (Raise AttributeError, w)
  | Some l =>
      match for_each l lr_body w with
      | (Ok _, w1) =>
          match first_lr (self w1) (optim w1) with
          | Ok lr =>
              match format_float lr with
              | Ok text =>
                  (Ok tt,
                   with_log (log w1 ++ [EPrint (PLearningRate text)]) w1)
              | Raise e => (Raise e, w1)
              end
          | Raise e => (Raise e, w1)
          end
      | (Raise e, w1) => (Raise e, w1)
      end
  end.
Proof.
  unfold update_learning_rate. unfold bind at 1. unfold gets at 1.
  destruct (schedulers (self w)) as [l|]; [|done].
  unfold bind at 1. fold lr_body.
  destruct (for_each l lr_body w) as [[[]|e] w1]; [|done].
  unfold_monad. destruct (first_lr (self w1) (optim w1)) as [lr|e]; [|done].
  by destruct (format_float lr).
Qed.

(** C6: a call of [update_learning_rate] that returns has stepped every
    scheduler of [self.schedulers] exactly once, in order, with
    [self.metric] as argument under the ['plateau'] policy and without
    argument otherwise, and has then read ['lr'] of the first param
    group of the first optimizer, which therefore exists, and printed it
    as a number. Conversely, once the steps have run, the outcome is
    that of the read and of the formatting: with an empty
    [self.optimizers] the read raises [IndexError] and the call never
    returns. A step that raises ends the call; the schedulers after it
    are not stepped. *)
Theorem C6_update_learning_rate (w : world) :
  (∀ w', update_learning_rate w = (Ok tt, w') ->
     ∃ l o rest g gs lr text,
       schedulers (self w) = Some l
       ∧ step_run (step_arg (self w)) (optim w) l (optim w')
       ∧ log w' = log w
           ++ ((fun s => ESchedulerStep s (step_arg (self w))) <$> l)
           ++ [EPrint (PLearningRate text)]
       ∧ optimizers (self w) = o :: rest
       ∧ param_groups o (optim w') = Some (g :: gs)
       ∧ OrderedDict.get "lr" g = Some lr
       ∧ (∀ s, lr ≠ VStr s) ∧ py_float lr = Ok text
       ∧ self w' = self w ∧ nets w' = nets w ∧ fs w' = fs w)
  ∧ (step_arg (self w) =
       if String.eqb (opt_lr_policy (opt (self w))) "plateau"
       then Some (metric (self w)) else None)
  ∧ (optimizers (self w) = [] ->
       ∀ r w', update_learning_rate w = (r, w') -> r ≠ Ok tt)
  ∧ (∀ l st', schedulers (self w) = Some l ->
       step_run (step_arg (self w)) (optim w) l st' ->
       let w1 :=
         MkWorld (self w) (nets w) st' (fs w) (cudnn_enabled w)
           (cudnn_benchmark w)
           (log w ++ ((fun s => ESchedulerStep s (step_arg (self w))) <$> l))
       in
       update_learning_rate w =
       match optimizers (self w) with
       | [] => (Raise IndexError, w1)
       | o :: _ =>
           match param_groups o st' with
           | None => (Raise AttributeError, w1)
           | Some [] => (Raise IndexError, w1)
           | Some (g :: _) =>
               match OrderedDict.get "lr" g with
               | None => (Raise KeyError, w1)
               | Some (VStr _) => (Raise TypeError, w1)
               | Some lr =>
                   match py_float lr with
                   | Ok text =>
                       (Ok tt,
                        with_log (log w1 ++ [EPrint (PLearningRate text)]) w1)
                   | Raise e => (Raise e, w1)
                   end
               end
           end
       end)
  ∧ (∀ before s after st1 st2 e,
       schedulers (self w) = Some (before ++ s :: after) ->
       step_run (step_arg (self w)) (optim w) before st1 ->
       scheduler_step s (step_arg (self w)) st1 = (Raise e, st2) ->
       ∃ w', update_learning_rate w = (Raise e, w')
         ∧ optim w' = st2
         ∧ log w' = log w
             ++ ((fun s => ESchedulerStep s (step_arg (self w)))
                   <$> before ++ [s]))
  ∧ (schedulers (self w) = None ->
       update_learning_rate w = (Raise AttributeError, w)).
Proof.
  rewrite update_learning_rate_unfold.
  split; [|split; [done|split; [|split; [|split]]]].
  - intros w'. destruct (schedulers (self w)) as [l|]; [|done].
    destruct (for_each l _ w) as [[[]|e] w1] eqn:Hloop; [|done].
    apply lr_loop_run in Hloop as (st' & Hrun & ->).
    unfold first_lr, stepped. cbn [self optim].
    destruct (optimizers (self w)) as [|o rest] eqn:Hopt; [done|].
    destruct (param_groups o st') as [[|g gs]|] eqn:Hpg; try done.
    destruct (OrderedDict.get "lr" g) as [lr|] eqn:Hlr; [|done].
    destruct (format_float lr) as [text|e] eqn:Hfmt; [|done].
    intros [= <-]. exists l, o, rest, g, gs, lr, text. cbn.
    rewrite <- app_assoc. repeat split; try done.
    + intros s ->. done.
    + by destruct lr.
  - intros Hnil r w'. destruct (schedulers (self w)) as [l|]; [|by intros [= <- _]].
    destruct (for_each l _ w) as [[[]|e] w1] eqn:Hloop; [|by intros [= <- _]].
    apply lr_loop_self in Hloop. unfold first_lr. rewrite Hloop, Hnil.
    by intros [= <- _].
  - intros l st' -> Hrun.
    assert (for_each l lr_body w = (Ok tt, stepped l st' w)) as ->
      by (apply lr_loop_run; by exists st').
    unfold first_lr, stepped. cbn [self optim].
    destruct (optimizers (self w)) as [|o rest]; [done|].
    destruct (param_groups o st') as [[|g gs]|]; try done.
    destruct (OrderedDict.get "lr" g) as [lr|]; [|done].
    by destruct lr.
  - intros before s after st1 st2 e -> Hrun Hstep.
    rewrite (lr_loop_raise _ _ _ _ _ _ _ Hrun Hstep). by eexists.
  - by intros ->.
Qed.

End LearningRateProperties.

(** ** Stripping seven characters from every key *)

Local Arguments PyStr.drop : simpl never.

Section StripProperties.
Implicit Types (d : odict tensor) (k : string) (ks : list string).

Lemma od_NoDup_remove d k :
  NoDup (OrderedDict.keys d) -> NoDup (OrderedDict.keys (OrderedDict.remove k d)).
Proof.
  unfold OrderedDict.keys. induction d as [|[k0 v0] d IH]; cbn; [done|].
  intros [Hk0 Hnd]%NoDup_cons. case_decide; [done|]. cbn.
  apply NoDup_cons. split; [|by apply IH].
  intros Hin. apply Hk0. by apply (od_keys_remove d k).
Qed.

Lemma od_NoDup_set d k (v : tensor) :
  NoDup (OrderedDict.keys d) -> NoDup (OrderedDict.keys (OrderedDict.set k v d)).
Proof.
  intros Hnd. rewrite od_keys_set. case_decide; [done|].
  apply NoDup_app. split; [done|]. split; [|apply NoDup_singleton].
  intros x Hx ->%list_elem_of_singleton. done.
Qed.

Lemma od_not_in_remove d k :
  NoDup (OrderedDict.keys d) -> k ∉ OrderedDict.keys (OrderedDict.remove k d).
Proof.
  intros Hnd. apply od_get_None_keys. by apply od_get_remove_eq.
Qed.

Lemma strip_step_ok d k :
  k ∈ OrderedDict.keys d ->
  ∃ v, OrderedDict.get k d = Some v
       ∧ strip_step k d =
           Ok (OrderedDict.set (PyStr.drop 7 k) v (OrderedDict.remove k d)).
Proof.
  intros [v Hv]%od_get_Some_keys. exists v. split; [done|].
  unfold strip_step, OrderedDict.pop. by rewrite Hv.
Qed.

(** The only exception the loop can raise is the [KeyError] of [pop]. *)
Lemma strip_keys_error ks d e : strip_keys ks d = Raise e -> e = KeyError.
Proof.
  revert d. induction ks as [|k ks IH]; intros d; cbn; [done|].
  unfold strip_step, OrderedDict.pop.
  destruct (OrderedDict.get k d); [apply IH|]. by intros [= <-].
Qed.

(** On a snapshot of the keys of a dict the loop never raises, and every
    key it leaves is some original key without its first 7 characters. *)
Lemma strip_keys_sound ks d :
  NoDup ks -> NoDup (OrderedDict.keys d) -> ks ⊆ OrderedDict.keys d ->
  ∃ d', strip_keys ks d = Ok d'
        ∧ NoDup (OrderedDict.keys d')
        ∧ ∀ k', k' ∈ OrderedDict.keys d' ->
            (∃ k, k ∈ ks ∧ k' = PyStr.drop 7 k)
            ∨ (k' ∈ OrderedDict.keys d ∧ k' ∉ ks).
Proof.
  revert d. induction ks as [|k ks IH]; intros d Hks Hd Hsub; cbn.
  - exists d. split; [done|]. split; [done|]. intros k' Hk'. right.
    split; [done|apply not_elem_of_nil].
  - apply NoDup_cons in Hks as [Hk Hks].
    destruct (strip_step_ok d k) as (v & Hv & ->);
      [apply Hsub, list_elem_of_here|].
    destruct (IH (OrderedDict.set (PyStr.drop 7 k) v (OrderedDict.remove k d)))
      as (d' & Hrun & Hnd' & Hkeys); [done| |  |].
    + by apply od_NoDup_set, od_NoDup_remove.
    + intros x Hx. rewrite od_keys_set.
      assert (x ∈ OrderedDict.keys (OrderedDict.remove k d)) as Hin.
      { apply od_keys_remove_ne; [by intros ->|].
        by apply Hsub, list_elem_of_further. }
      case_decide; [done|]. apply elem_of_app. by left.
    + exists d'. split; [done|]. split; [done|]. intros k' Hk'.
      destruct (Hkeys k' Hk') as [(k0 & Hk0 & ->)|[Hin Hnot]].
      * left. exists k0. split; [by apply list_elem_of_further|done].
      * rewrite od_keys_set in Hin.
        assert (k' = PyStr.drop 7 k
                ∨ k' ∈ OrderedDict.keys (OrderedDict.remove k d)) as [->|Hrem].
        { case_decide; [by right|].
          apply elem_of_app in Hin as [?|?%list_elem_of_singleton]; auto. }
        -- left. exists k. split; [apply list_elem_of_here|done].
        -- right. split; [by apply (od_keys_remove d k)|].
           intros [->|?]%elem_of_cons; [|done].
           by apply (od_not_in_remove d k Hd).
Qed.

(** Without clashes the loop renames every entry in place of the order:
    [rest] are the entries still to rename, [renamed] those already
    re-inserted at the end. *)
Lemma strip_keys_exact (rest renamed : odict tensor) :
  no_clash (OrderedDict.keys rest) ->
  NoDup (PyStr.drop 7 <$> OrderedDict.keys rest) ->
  (∀ k, k ∈ OrderedDict.keys rest ->
        PyStr.drop 7 k ∉ OrderedDict.keys renamed) ->
  strip_keys (OrderedDict.keys rest) (rest ++ renamed) =
  Ok (renamed ++ ((fun kv => (PyStr.drop 7 kv.1, kv.2)) <$> rest)).
Proof.
  revert renamed. induction rest as [|[k v] rest IH]; intros renamed; cbn.
  - intros _ _ _. by rewrite app_nil_r.
  - intros [Hk Hclash] [Hk7 Hnd]%NoDup_cons Hren.
    unfold strip_step, OrderedDict.pop. cbn. rewrite !decide_True by done.
    rewrite od_set_fresh.
    + rewrite <- app_assoc.
      change (rest.*1) with (OrderedDict.keys rest).
      rewrite (IH (renamed ++ [(PyStr.drop 7 k, v)]));
        [by rewrite <- app_assoc|done|done|].
      intros k' Hk'. unfold OrderedDict.keys. rewrite fmap_app. cbn.
      rewrite not_elem_of_app, list_elem_of_singleton. split.
      * apply Hren. by apply list_elem_of_further.
      * intros Heq. apply Hk7. rewrite <- Heq.
        by apply list_elem_of_fmap_2.
    + unfold OrderedDict.keys. rewrite fmap_app, not_elem_of_app. split; [done|].
      apply Hren, list_elem_of_here.
Qed.

End StripProperties.

(** ** [load_networks] *)

Section LoadProperties.
Context `{FW : Framework}.

Lemma for_each_app {A} (l1 l2 : list A) (body : A -> M unit) (w : world) :
  for_each (l1 ++ l2) body w =
  match for_each l1 body w with
  | (Ok _, w1) => for_each l2 body w1
  | (Raise e, w1) => (Raise e, w1)
  end.
Proof.
  revert w. induction l1 as [|x l1 IH]; intros w; [done|].
  cbn [app for_each]. unfold bind.
  destruct (body x w) as [[[]|e] w1]; [apply IH|done].
Qed.

Lemma del_metadata_entries (entries : odict tensor) (meta : option (odict Z)) :
  del_metadata (StateDict entries meta) = StateDict entries None.
Proof. by destruct meta. Qed.

(** The state dict as it is when [load_state_dict] receives it. *)
Let prepared (d : device_t) (loaded : state_dict) : result (odict tensor) :=
  if decide (d = Cpu) then
    strip_keys (OrderedDict.keys (sd_entries loaded)) (sd_entries loaded)
  else Ok (sd_entries loaded).

Let msg_missing (p : string) : event :=
  EPrint (PText ("No model weight file: " +:+ p +:+
                 " initialize model without pre-trained weights.")).

Let msg_loading (p : string) : event :=
  EPrint (PText ("loading the model from " +:+ p)).

(** The world after [load_state_dict(sd, strict=False)] on the network
    [r], which was [n]. *)
Let loaded_world (r : ref) (n : net) (sd : state_dict) (l : list event)
    (w : world) : world :=
  MkWorld (self w) (<[r := load_weights sd n]> (nets w)) (optim w) (fs w)
    (cudnn_enabled w) (cudnn_benchmark w) (l ++ [ELoadStateDict r sd false]).

(** [load_state_dict], case by case. *)
Lemma net_load_state_dict_cases (v : pyval) (sd : state_dict) (w : world) :
  net_load_state_dict v sd w =
  match v with
  | VNet r =>
      match nets w !! r with
      | Some n =>
          (if load_errors sd n then Raise RuntimeError else Ok tt,
           loaded_world r n sd (log w) w)
      | None => (Raise AttributeError, w)
      end
  | VOptimizer _ | VScheduler _ => (Raise TypeError, w)
  | _ => (Raise AttributeError, w)
  end.
Proof.
  unfold net_load_state_dict, loaded_world. destruct v; try done.
  destruct (nets w !! r) as [n|]; [|done].
  unfold_monad. cbn. by destruct (load_errors sd n).
Qed.

(** One iteration of the loop, case by case. *)
Lemma load_network_cases (epoch : epoch_val) (s : string) (w : world) :
  load_network epoch s w =
  match load_path_of (self w) epoch s with
  | Raise e => (Raise e, w)
  | Ok p =>
      match getattr_self (self w) s with
      | Raise e => (Raise e, w)
      | Ok v =>
          match fs w !! p with
          | None =>
              (if isTrain (self w) then Ok tt else Raise ValueError,
               with_log (log w ++ [EPathExists p; msg_missing p]) w)
          | Some FOther =>
              (Raise UnpicklingError,
               with_log (log w ++ [EPathExists p;
                           ETorchLoad p (device_str (device (self w)))]) w)
          | Some (FCheckpoint loaded) =>
              let opened :=
                log w ++ [EPathExists p;
                          ETorchLoad p (device_str (device (self w)))] in
              match prepared (device (self w)) loaded with
              | Raise e => (Raise e, with_log opened w)
              | Ok entries =>
                  net_load_state_dict v (StateDict entries None)
                    (with_log (opened ++ [msg_loading p]) w)
              end
          end
      end
  end.
Proof.
  unfold load_network, prepared, msg_loading, msg_missing.
  unfold path_exists, torch_load.
  unfold bind at 1, gets at 1. unfold bind at 1, lift at 1.
  destruct (load_path_of (self w) epoch s) as [p|e]; [|done].
  unfold bind at 1, getattr at 1.
  destruct (getattr_self (self w) s) as [v|e]; [|done].
  unfold bind at 1. unfold bind at 1, emit at 1, modify at 1.
  cbn [fs with_log].
  destruct (fs w !! p) as [[loaded|]|] eqn:Hfs.
  - rewrite bool_decide_eq_true_2 by done.
    unfold bind at 1, gets at 1. unfold bind at 1.
    unfold bind at 1, emit at 1, modify at 1. cbn [fs with_log self log].
    rewrite Hfs. unfold bind at 1, lift at 1. cbn [torch_device String.eqb].
    change (torch_device "cpu") with (Ok Cpu). cbv iota.
    unfold bind at 1.
    destruct (decide (device (self w) = Cpu)) as [Hd|Hd].
    + unfold lift at 1.
      destruct (strip_keys _ _) as [entries|e]; [|by rewrite <- app_assoc].
      rewrite del_metadata_entries. unfold bind at 1, emit at 1, modify at 1.
      cbn [with_log log]. by rewrite <- !app_assoc.
    + unfold ret at 1. rewrite del_metadata_entries.
      unfold bind at 1, emit at 1, modify at 1.
      cbn [with_log log]. by rewrite <- !app_assoc.
  - rewrite bool_decide_eq_true_2 by done.
    unfold bind at 1, gets at 1. unfold bind at 1.
    unfold bind at 1, emit at 1, modify at 1. cbn [fs with_log self log].
    rewrite Hfs. by rewrite <- app_assoc.
  - rewrite bool_decide_eq_false_2 by (by intros [? ?]).
    unfold_monad. cbn. rewrite <- app_assoc.
    by destruct (isTrain (self w)).
Qed.

Lemma load_path_of_error (m : BaseModel) (epoch : epoch_val) (s : string)
    (e : exn) :
  load_path_of m epoch s = Raise e -> e = TypeError.
Proof.
  destruct epoch as [z|ep]; cbn; [by intros [= <-]|]. by case_match.
Qed.

Lemma getattr_self_error (m : BaseModel) (s : string) (e : exn) :
  getattr_self m s = Raise e -> e = AttributeError.
Proof.
  unfold getattr_self. repeat case_match; try done. by intros [= <-].
Qed.

Lemma net_load_state_dict_not_ValueError (v : pyval) (sd : state_dict)
    (w : world) :
  (net_load_state_dict v sd w).1 ≠ Raise ValueError.
Proof.
  rewrite net_load_state_dict_cases. repeat case_match; done.
Qed.

(** An iteration raises [ValueError] exactly when the checkpoint file is
    missing outside training. *)
Lemma load_network_ValueError (epoch : epoch_val) (s : string) (w : world) :
  (load_network epoch s w).1 = Raise ValueError ↔
  ∃ p, load_path_of (self w) epoch s = Ok p
       ∧ is_ok (getattr_self (self w) s) = true
       ∧ fs w !! p = None ∧ isTrain (self w) = false.
Proof.
  rewrite load_network_cases. split.
  - destruct (load_path_of (self w) epoch s) as [p|e] eqn:Hp.
    2:{ apply load_path_of_error in Hp as ->. done. }
    destruct (getattr_self (self w) s) as [v|e] eqn:Hv.
    2:{ apply getattr_self_error in Hv as ->. done. }
    destruct (fs w !! p) as [[loaded|]|] eqn:Hfs; [|done|].
    + destruct (prepared _ _) as [entries|e] eqn:Hprep.
      * intros Hr. by apply net_load_state_dict_not_ValueError in Hr.
      * unfold prepared in Hprep. case_decide; [|done].
        apply strip_keys_error in Hprep as ->. done.
    + destruct (isTrain (self w)); [done|]. intros _. by exists p.
  - intros (p & -> & Hv & -> & ->).
    by destruct (getattr_self (self w) s).
Qed.

Lemma net_load_state_dict_frame (v : pyval) (sd : state_dict)
    (w w' : world) (r : result unit) :
  net_load_state_dict v sd w = (r, w') ->
  self w' = self w ∧ fs w' = fs w ∧ optim w' = optim w
  ∧ (log w' = log w ∨ ∃ r', log w' = log w ++ [ELoadStateDict r' sd false]).
Proof.
  rewrite net_load_state_dict_cases.
  destruct v; try (intros [= _ <-]; repeat split; by left).
  destruct (nets w !! r0) as [n|]; [|intros [= _ <-]; repeat split; by left].
  intros [= _ <-]. unfold loaded_world. cbn. repeat split. right.
  by exists r0.
Qed.

(** An iteration changes neither the model object nor the file system,
    and logs only events of its own name. *)
Lemma load_network_frame (epoch : epoch_val) (s : string) (w w' : world)
    (r : result unit) :
  load_network epoch s w = (r, w') ->
  self w' = self w ∧ fs w' = fs w ∧ optim w' = optim w
  ∧ ∃ evs, log w' = log w ++ evs
           ∧ Forall (load_event_ok (self w) epoch s) evs.
Proof.
  rewrite load_network_cases.
  destruct (load_path_of (self w) epoch s) as [p|e] eqn:Hp.
  2:{ intros [= _ <-]. repeat split. exists []. by rewrite app_nil_r. }
  destruct (getattr_self (self w) s) as [v|e] eqn:Hv.
  2:{ intros [= _ <-]. repeat split. exists []. by rewrite app_nil_r. }
  destruct (fs w !! p) as [[loaded|]|] eqn:Hfs.
  - destruct (prepared _ _) as [entries|e].
    + intros (Hs & Hf & Ho & Hl)%net_load_state_dict_frame.
      cbn in Hs, Hf, Ho, Hl. repeat split; try done.
      destruct Hl as [->|[r' ->]]; rewrite <- ?app_assoc;
        eexists; (split; [reflexivity|]); repeat constructor; done.
    + intros [= _ <-]. cbn. repeat split. eexists. split; [reflexivity|].
      repeat constructor; done.
  - intros [= _ <-]. cbn. repeat split. eexists. split; [reflexivity|].
    repeat constructor; done.
  - intros [= _ <-]. cbn. repeat split. eexists. split; [reflexivity|].
    repeat constructor; done.
Qed.

(** The loop of [load_networks] over any list of names. *)
Lemma load_loop_frame (epoch : epoch_val) (names : list pyval)
    (w w' : world) (r : result unit) :
  load_names epoch names w = (r, w') ->
  self w' = self w ∧ fs w' = fs w ∧ optim w' = optim w
  ∧ ∃ evs, log w' = log w ++ evs
           ∧ Forall (fun ev => ∃ s, VStr s ∈ names
                                ∧ load_event_ok (self w) epoch s ev) evs.
Proof.
  unfold load_names.
  revert w. induction names as [|name names IH]; intros w; cbn [for_each].
  - intros [= _ <-]. repeat split. exists []. by rewrite app_nil_r.
  - unfold bind at 1.
    assert (∀ (w1 : world) evs,
      self w1 = self w ->
      Forall (fun ev => ∃ s, VStr s ∈ names
                         ∧ load_event_ok (self w1) epoch s ev) evs ->
      Forall (fun ev => ∃ s, VStr s ∈ name :: names
                         ∧ load_event_ok (self w) epoch s ev) evs) as Hweak.
    { intros w1 evs Hs Hall. eapply Forall_impl; [exact Hall|].
      intros ev (s & Hin & Hok).
      exists s. rewrite <- Hs. split; [by apply list_elem_of_further|done]. }
    destruct name;
      try (intros (Hs & Hf & Ho & evs & Hl & Hevs)%IH; repeat split; try done;
           exists evs; split; [done|]; by apply (Hweak w)).
    destruct (load_network epoch s w) as [[[]|e] w1] eqn:Hbody;
      apply load_network_frame in Hbody as (Hs1 & Hf1 & Ho1 & evs1 & Hl1 & Hevs1).
    + intros (Hs & Hf & Ho & evs & Hl & Hevs)%IH.
      rewrite Hs, Hf, Ho, Hl, Hl1, <- app_assoc. repeat split; try done.
      exists (evs1 ++ evs). split; [done|]. apply Forall_app. split.
      * eapply Forall_impl; [exact Hevs1|]. intros ev Hok. exists s.
        split; [apply list_elem_of_here|done].
      * by apply (Hweak w1).
    + intros [= _ <-]. repeat split; try done. exists evs1. split; [done|].
      eapply Forall_impl; [exact Hevs1|]. intros ev Hok. exists s.
      split; [apply list_elem_of_here|done].
Qed.

(** [load_networks] at one of its names: when the names before [s] have
    been loaded, the iteration for [s] runs, and the loop goes on only
    if it returns. *)
Lemma load_networks_at (epoch : epoch_val) (w w1 : world)
    (before after : list pyval) (s : string) :
  model_names (self w) = before ++ VStr s :: after ->
  load_names epoch before w = (Ok tt, w1) ->
  load_networks epoch w =
    match load_network epoch s w1 with
    | (Ok _, w2) => load_names epoch after w2
    | (Raise e, w2) => (Raise e, w2)
    end
  ∧ self w1 = self w ∧ fs w1 = fs w ∧ optim w1 = optim w.
Proof.
  intros Hnames Hbefore. split.
  - unfold load_networks. unfold bind at 1, gets at 1. rewrite Hnames.
    unfold load_names in *. rewrite for_each_app, Hbefore.
    cbn [for_each]. unfold bind at 1.
    by destruct (load_network epoch s w1) as [[[]|e] w2].
  - by apply load_loop_frame in Hbefore as (? & ? & ? & _).
Qed.

(** A loop that raises has loaded the names before some string entry
    and raised in the iteration for it. *)
Lemma load_names_raise (epoch : epoch_val) (names : list pyval)
    (w w' : world) (e : exn) :
  load_names epoch names w = (Raise e, w') ->
  ∃ before s after w1,
    names = before ++ VStr s :: after
    ∧ load_names epoch before w = (Ok tt, w1)
    ∧ load_network epoch s w1 = (Raise e, w').
Proof.
  unfold load_names.
  revert w. induction names as [|name names IH]; intros w; cbn [for_each];
    [done|].
  unfold bind at 1.
  assert (∀ w0 : world,
    for_each names (fun name =>
      match name with
      | VStr s => load_network epoch s
      | _ => ret tt
      end) w0 = (Raise e, w') ->
    for_each [name] (fun name =>
      match name with
      | VStr s => load_network epoch s
      | _ => ret tt
      end) w = (Ok tt, w0) ->
    ∃ before s after w1,
      name :: names = before ++ VStr s :: after
      ∧ for_each before (fun name =>
          match name with
          | VStr s => load_network epoch s
          | _ => ret tt
          end) w = (Ok tt, w1)
      ∧ load_network epoch s w1 = (Raise e, w')) as Hstep.
  { intros w0 (before & s & after & w1 & -> & Hb & Hs)%IH Hhead.
    exists (name :: before), s, after, w1. split; [done|]. split; [|done].
    change (name :: before) with ([name] ++ before).
    by rewrite for_each_app, Hhead. }
  destruct name; try (intros Hrest; by apply (Hstep w)).
  destruct (load_network epoch s w) as [[[]|e'] w0] eqn:Hbody.
  - intros Hrest. apply (Hstep w0 Hrest). cbn [for_each]. unfold bind.
    by rewrite Hbody.
  - intros [= -> ->]. by exists [], s, names, w.
Qed.

(** C2: [load_networks] raises [ValueError] exactly when it reaches a
    string entry of [model_names] that is an attribute of the model and
    whose checkpoint file is missing, with [self.isTrain] false. At such
    an entry with [self.isTrain] true it prints that the file is
    missing, changes nothing else and goes on with the next entry. At an
    entry that is no attribute of the model, [getattr] raises
    [AttributeError] before the file is looked for, whatever
    [self.isTrain] is. In training [load_networks] never raises
    [ValueError]. *)
Theorem C2_missing_checkpoint (epoch : epoch_val) (w : world) :
  ((load_networks epoch w).1 = Raise ValueError ↔
   ∃ before s after w1 p,
     model_names (self w) = before ++ VStr s :: after
     ∧ load_names epoch before w = (Ok tt, w1)
     ∧ load_path_of (self w) epoch s = Ok p
     ∧ is_ok (getattr_self (self w) s) = true
     ∧ fs w !! p = None ∧ isTrain (self w) = false)
  ∧ (∀ before s after w1 p,
       model_names (self w) = before ++ VStr s :: after ->
       load_names epoch before w = (Ok tt, w1) ->
       load_path_of (self w) epoch s = Ok p ->
       fs w !! p = None ->
       let w2 :=
         with_log
           (log w1 ++
            [EPathExists p;
             EPrint (PText ("No model weight file: " +:+ p +:+
                            " initialize model without pre-trained weights."))])
           w1 in
       (is_ok (getattr_self (self w) s) = true ->
        isTrain (self w) = false ->
        load_networks epoch w = (Raise ValueError, w2))
       ∧ (is_ok (getattr_self (self w) s) = true ->
          isTrain (self w) = true ->
          load_networks epoch w = load_names epoch after w2)
       ∧ (is_ok (getattr_self (self w) s) = false ->
          load_networks epoch w = (Raise AttributeError, w1)))
  ∧ (isTrain (self w) = true ->
     (load_networks epoch w).1 ≠ Raise ValueError).
Proof.
  assert ((load_networks epoch w).1 = Raise ValueError ->
    ∃ before s after w1 p,
      model_names (self w) = before ++ VStr s :: after
      ∧ load_names epoch before w = (Ok tt, w1)
      ∧ load_path_of (self w) epoch s = Ok p
      ∧ is_ok (getattr_self (self w) s) = true
      ∧ fs w !! p = None ∧ isTrain (self w) = false) as Hraise.
  { destruct (load_networks epoch w) as [r w'] eqn:Hrun. cbn. intros ->.
    unfold load_networks in Hrun. unfold bind at 1, gets at 1 in Hrun.
    apply load_names_raise in Hrun as (before & s & after & w1 & Hn & Hb & Hs).
    pose proof (load_loop_frame _ _ _ _ _ Hb) as (Hs1 & Hf1 & _).
    assert ((load_network epoch s w1).1 = Raise ValueError) as Hv
      by (by rewrite Hs).
    apply load_network_ValueError in Hv as (p & Hp & Hattr & Hfs & Ht).
    rewrite Hs1 in Hp, Hattr, Ht. rewrite Hf1 in Hfs.
    by exists before, s, after, w1, p. }
  split; [|split].
  - split; [done|].
    intros (before & s & after & w1 & p & Hn & Hb & Hp & Hattr & Hfs & Ht).
    destruct (load_networks_at _ _ _ _ _ _ Hn Hb) as (-> & Hs1 & Hf1 & _).
    rewrite load_network_cases, Hs1, Hf1, Hp, Hfs, Ht.
    by destruct (getattr_self (self w) s).
  - intros before s after w1 p Hn Hb Hp Hfs.
    destruct (load_networks_at _ _ _ _ _ _ Hn Hb) as (-> & Hs1 & Hf1 & _).
    rewrite load_network_cases, Hs1, Hf1, Hp, Hfs.
    destruct (getattr_self (self w) s) as [v|e] eqn:Hv.
    + split; [by intros _ ->|]. split; [by intros _ ->|done].
    + apply getattr_self_error in Hv as ->. done.
  - intros Ht Hr. apply Hraise in Hr as (? & ? & ? & ? & ? & Hr).
    destruct Hr as (_ & _ & _ & _ & _ & Hf). congruence.
Qed.

Lemma load_loop_int_epoch (z : Z) (names : list pyval) (w : world) :
  load_names (EInt z) names w =
  (if bool_decide (str_entries names = []) then Ok tt else Raise TypeError, w).
Proof.
  unfold load_names. induction names as [|name names IH]; [done|].
  cbn [for_each]. unfold bind at 1.
  destruct name; try (unfold ret at 1; rewrite IH; reflexivity).
  by rewrite load_network_cases.
Qed.

(** C10: [load_networks] slices [epoch] ([epoch[-3:]]) for every string
    entry of [model_names]: with an int for [epoch] and at least one
    string entry it raises [TypeError], and in any case it touches no
    file and changes nothing; and when the last three characters of a
    string [epoch] are ['pkl'], [epoch] itself is the load path of every
    model name, whatever [save_dir] is: at every string entry that it
    reaches and that is an attribute of the model, [load_networks] tests
    the path [epoch], opens it when it exists and reports it missing
    when it does not, and no other file is looked for or loaded. *)
Theorem C10_epoch_is_sliced (w : world) :
  (∀ z, (∃ s, VStr s ∈ model_names (self w)) ->
        load_networks (EInt z) w = (Raise TypeError, w))
  ∧ (∀ z r w', load_networks (EInt z) w = (r, w') -> w' = w)
  ∧ (∀ e, PyStr.suffix 3 e = "pkl" ->
       (∀ m name, load_path_of m (EStr e) name = Ok e)
       ∧ (∀ r w', load_networks (EStr e) w = (r, w') ->
            ∃ evs, log w' = log w ++ evs
                   ∧ ∀ ev p, ev ∈ evs -> is_file_access p ev -> p = e)
       ∧ (∀ before s after w1,
            model_names (self w) = before ++ VStr s :: after ->
            load_names (EStr e) before w = (Ok tt, w1) ->
            is_ok (getattr_self (self w) s) = true ->
            ∃ evs,
              log (load_networks (EStr e) w).2
                = log w1 ++ EPathExists e :: evs
              ∧ (is_Some (fs w !! e) ->
                 ∃ evs', evs = ETorchLoad e (device_str (device (self w)))
                               :: evs')
              ∧ (fs w !! e = None ->
                 ∃ evs',
                   evs = EPrint (PText ("No model weight file: " +:+ e +:+
                           " initialize model without pre-trained weights."))
                         :: evs'))).
Proof.
  assert (∀ e, PyStr.suffix 3 e = "pkl" ->
            ∀ m name, load_path_of m (EStr e) name = Ok e) as Hpath.
  { intros e He m name. unfold load_path_of. by rewrite He. }
  split; [|split].
  - intros z [s Hs%str_entries_elem]. unfold load_networks.
    unfold bind at 1, gets at 1. rewrite load_loop_int_epoch.
    rewrite bool_decide_eq_false_2; [done|].
    intros Hnil. rewrite Hnil in Hs. by apply elem_of_nil in Hs.
  - intros z r w'. unfold load_networks. unfold bind at 1, gets at 1.
    rewrite load_loop_int_epoch. by intros [= _ <-].
  - intros e He. split; [by apply Hpath|]. split.
    + intros r w'. unfold load_networks. unfold bind at 1, gets at 1.
      intros (_ & _ & _ & evs & Hl & Hevs)%load_loop_frame.
      exists evs. split; [done|]. intros ev p Hin Hacc.
      rewrite Forall_forall in Hevs.
      destruct (Hevs ev Hin) as (s & _ & Hok).
      destruct Hacc as [->|[ml ->]]; cbv [load_event_ok] in Hok;
        rewrite (Hpath e He) in Hok; congruence.
    + intros before s after w1 Hn Hb Hattr.
      destruct (load_networks_at _ _ _ _ _ _ Hn Hb) as (-> & Hs1 & Hf1 & _).
      destruct (load_network (EStr e) s w1) as [r w2] eqn:Hbody.
      assert (∃ evs, log w2 = log w1 ++ EPathExists e :: evs
        ∧ (is_Some (fs w !! e) ->
           ∃ evs', evs = ETorchLoad e (device_str (device (self w))) :: evs')
        ∧ (fs w !! e = None ->
           ∃ evs', evs = msg_missing e :: evs')) as (evs & Hl2 & Hopen & Hmiss).
      { revert Hbody. rewrite load_network_cases, Hs1, Hf1, (Hpath e He).
        destruct (getattr_self (self w) s) as [v|]; [|done].
        destruct (fs w !! e) as [[loaded|]|].
        - destruct (prepared _ _) as [entries|e'].
          + intros (_ & _ & _ & Hl)%net_load_state_dict_frame. cbn in Hl.
            destruct Hl as [->|[r' ->]]; rewrite <- ?app_assoc; cbn;
              eexists; (split; [reflexivity|]); (split; [|done]);
              intros _; by eexists.
          + intros [= _ <-]. cbn. eexists. split; [reflexivity|].
            split; [|done]. intros _; by eexists.
        - intros [= _ <-]. cbn. eexists. split; [reflexivity|].
          split; [|done]. intros _; by eexists.
        - intros [= _ <-]. cbn. eexists. split; [reflexivity|].
          split; [by intros [? ?]|]. intros _; by eexists. }
      destruct r as [[]|e'].
      * destruct (load_names (EStr e) after w2) as [r3 w3] eqn:Hrest.
        apply load_loop_frame in Hrest as (_ & _ & _ & evs3 & Hl3 & _).
        exists (evs ++ evs3). cbn. rewrite Hl3, Hl2, <- app_assoc. cbn.
        split; [done|]. split.
        -- intros Hsome. destruct (Hopen Hsome) as [evs' ->]. by eexists.
        -- intros Hnone. destruct (Hmiss Hnone) as [evs' ->]. by eexists.
      * exists evs. by cbn.
Qed.

(** C9: on the CPU device, when [load_networks] reaches a string entry
    of [model_names] whose checkpoint exists, the loop over the keys
    never raises and re-inserts every key without its first 7
    characters: every key that reaches [load_state_dict] is an original
    key minus its first 7 characters, whether or not the original began
    with ['module.'], and when the shortened keys do not clash the
    entries are exactly the original ones, in order, under the
    shortened keys. For an entry that names a network, this state dict
    is the one that [load_state_dict(strict=False)] receives; the loop
    goes on with the next entry unless [load_state_dict] raises. *)
Theorem C9_cpu_strips_every_key (epoch : epoch_val) (w w1 : world)
    (before after : list pyval) (s p : string) (loaded : state_dict) :
  device (self w) = Cpu ->
  model_names (self w) = before ++ VStr s :: after ->
  load_names epoch before w = (Ok tt, w1) ->
  load_path_of (self w) epoch s = Ok p ->
  fs w !! p = Some (FCheckpoint loaded) ->
  NoDup (OrderedDict.keys (sd_entries loaded)) ->
  ∃ entries,
    strip_keys (OrderedDict.keys (sd_entries loaded)) (sd_entries loaded)
      = Ok entries
    ∧ (∀ k', k' ∈ OrderedDict.keys entries ->
         ∃ k, k ∈ OrderedDict.keys (sd_entries loaded)
              ∧ k' = PyStr.drop 7 k)
    ∧ (no_clash (OrderedDict.keys (sd_entries loaded)) ->
       NoDup (PyStr.drop 7 <$> OrderedDict.keys (sd_entries loaded)) ->
       entries = (fun kv => (PyStr.drop 7 kv.1, kv.2)) <$> sd_entries loaded)
    ∧ (∀ r n,
         getattr_self (self w) s = Ok (VNet r) -> nets w1 !! r = Some n ->
         let sd := StateDict entries None in
         let w2 :=
           MkWorld (self w1) (<[r := load_weights sd n]> (nets w1))
             (optim w1) (fs w1) (cudnn_enabled w1) (cudnn_benchmark w1)
             (log w1 ++
              [EPathExists p; ETorchLoad p "cpu";
               EPrint (PText ("loading the model from " +:+ p));
               ELoadStateDict r sd false]) in
         load_networks epoch w =
           if load_errors sd n then (Raise RuntimeError, w2)
           else load_names epoch after w2).
Proof.
  intros Hdev Hn Hb Hp Hfs Hnd.
  destruct (strip_keys_sound (OrderedDict.keys (sd_entries loaded))
              (sd_entries loaded) Hnd Hnd) as (entries & Hrun & _ & Hkeys);
    [done|].
  exists entries. split; [done|]. split; [|split].
  - intros k' Hk'. destruct (Hkeys k' Hk') as [?|[? ?]]; done.
  - intros Hclash Hnd7.
    pose proof (strip_keys_exact (sd_entries loaded) [] Hclash Hnd7) as Hex.
    rewrite app_nil_r in Hex. rewrite Hex in Hrun.
    + by injection Hrun as <-.
    + intros k _. apply not_elem_of_nil.
  - intros r n Hv Hr.
    destruct (load_networks_at _ _ _ _ _ _ Hn Hb) as (-> & Hs1 & Hf1 & _).
    rewrite <- Hs1 in Hp, Hv, Hdev. rewrite <- Hf1 in Hfs.
    rewrite load_network_cases, Hp, Hv, Hfs. unfold prepared.
    rewrite Hdev, decide_True by done. rewrite Hrun.
    rewrite net_load_state_dict_cases. cbn [nets with_log]. rewrite Hr.
    unfold loaded_world. cbn. rewrite <- !app_assoc. cbn.
    by destruct (load_errors _ n).
Qed.

(** On a CUDA device the entries of the file reach [load_state_dict] as
    they are. *)
Lemma load_networks_cuda (epoch : epoch_val) (w w1 : world)
    (before after : list pyval) (s p : string) (r : ref) (n : net)
    (loaded : state_dict) (i : Z) :
  device (self w) = Cuda i ->
  model_names (self w) = before ++ VStr s :: after ->
  load_names epoch before w = (Ok tt, w1) ->
  load_path_of (self w) epoch s = Ok p ->
  getattr_self (self w) s = Ok (VNet r) ->
  nets w1 !! r = Some n ->
  fs w !! p = Some (FCheckpoint loaded) ->
  load_networks epoch w =
    let sd := StateDict (sd_entries loaded) None in
    let w2 :=
      MkWorld (self w1) (<[r := load_weights sd n]> (nets w1))
        (optim w1) (fs w1) (cudnn_enabled w1) (cudnn_benchmark w1)
        (log w1 ++
         [EPathExists p; ETorchLoad p (device_str (Cuda i));
          EPrint (PText ("loading the model from " +:+ p));
          ELoadStateDict r sd false]) in
    if load_errors sd n then (Raise RuntimeError, w2)
    else load_names epoch after w2.
Proof.
  intros Hdev Hn Hb Hp Hv Hr Hfs.
  destruct (load_networks_at _ _ _ _ _ _ Hn Hb) as (-> & Hs1 & Hf1 & _).
  rewrite <- Hs1 in Hp, Hv, Hdev. rewrite <- Hf1 in Hfs.
  rewrite load_network_cases, Hp, Hv, Hfs. unfold prepared.
  rewrite Hdev, decide_False by done.
  rewrite net_load_state_dict_cases. cbn [nets with_log]. rewrite Hr.
  unfold loaded_world. cbn. rewrite <- !app_assoc. cbn.
  by destruct (load_errors _ n).
Qed.

(** A running-statistics entry for an InstanceNorm layer that tracks no
    statistics is an error of [load_state_dict] once [_metadata] is
    gone. *)
Lemma stale_key_load_errors (entries : odict tensor) (n : net) (k : string)
    (path : list string) (name : string) (m : pyobj) :
  k ∈ OrderedDict.keys entries ->
  split_last (PyStr.split "." k) = (path, name) ->
  name = "running_mean" ∨ name = "running_var" ->
  resolve (net_module n) path = Ok m ->
  is_instance_norm m = true ->
  obj_getattr m "running_mean" = Ok PyNone ->
  load_errors (StateDict entries None) n = true.
Proof.
  intros Hk Hsplit Hname Hres Hnorm Hmean. unfold load_errors.
  apply orb_true_iff. left. apply existsb_exists. exists k.
  split; [by apply list_elem_of_In|].
  cbn [sd_metadata]. unfold stale_key. rewrite Hsplit, Hres, Hnorm.
  unfold track_running_stats. rewrite Hmean. cbn.
  by destruct Hname as [-> | ->].
Qed.

End LoadProperties.

(** ** [__patch_instance_norm_state_dict] *)

Section PatchProperties.
Context `{FW : Framework}.
Implicit Types (sd : odict tensor) (module m : pyobj) (keys path : list string).

(** The recursion on the index [i], as the source writes it. *)
Lemma patch_instance_norm_state_dict_unfold sd module keys (i : nat) :
  patch_instance_norm_state_dict sd module keys i =
  match keys !! i with
  | None => Raise IndexError
  | Some key =>
      if decide (i + 1 = length keys)%nat then patch_leaf sd module keys key
      else
        match obj_getattr module key with
        | Ok m => patch_instance_norm_state_dict sd m keys (i + 1)
        | Raise e => Raise e
        end
  end.
Proof.
  unfold patch_instance_norm_state_dict.
  destruct (keys !! i) as [key|] eqn:Hi.
  - rewrite (drop_S _ _ _ Hi). cbn [patch_from].
    replace (i + 1)%nat with (S i) by lia.
    apply lookup_lt_Some in Hi.
    destruct (drop (S i) keys) as [|k rest] eqn:Hd.
    + apply (f_equal length) in Hd. rewrite length_drop in Hd. cbn in Hd.
      rewrite decide_True by lia. done.
    + apply (f_equal length) in Hd. rewrite length_drop in Hd. cbn in Hd.
      rewrite decide_False by lia. done.
  - apply lookup_ge_None in Hi. by rewrite drop_ge.
Qed.

(** The walk ends at the module the path resolves to. *)
Lemma patch_from_resolve sd module keys path (key : string) :
  patch_from sd module keys (path ++ [key]) =
  match resolve module path with
  | Ok m => patch_leaf sd m keys key
  | Raise e => Raise e
  end.
Proof.
  revert module. induction path as [|k path IH]; intros module; [done|].
  cbn [app patch_from resolve].
  destruct (path ++ [key]) as [|k' rest] eqn:Hrest.
  { by apply app_eq_nil in Hrest as [_ ?]. }
  destruct (obj_getattr module k); [apply IH|done].
Qed.

Lemma pop_present sd (k : string) :
  k ∈ OrderedDict.keys sd ->
  ∃ v, OrderedDict.pop k sd = Ok (v, OrderedDict.remove k sd).
Proof.
  intros [v Hv]%od_get_Some_keys. exists v. unfold OrderedDict.pop.
  by rewrite Hv.
Qed.

Lemma patch_at_resolved sd module m path (key : string) :
  resolve module path = Ok m ->
  patch_instance_norm_state_dict sd module (path ++ [key]) 0 =
  patch_leaf sd m (path ++ [key]) key.
Proof.
  intros Hres. unfold patch_instance_norm_state_dict. rewrite drop_0.
  by rewrite patch_from_resolve, Hres.
Qed.

(** C1 (as amended): [load_networks] does not apply
    [__patch_instance_norm_state_dict]: on a CUDA device, when it
    reaches a name whose checkpoint exists, the state dict read from the
    file reaches [load_state_dict(strict=False)] with all its entries,
    and an entry [running_mean] or [running_var] of an InstanceNorm
    layer that tracks no statistics makes [load_state_dict], and so
    [load_networks], raise [RuntimeError]. The patch itself, called on a
    key path that resolves
    to a module [m]: when the class name of [m] starts with
    ['InstanceNorm'], it removes the entry of the path if the last key is
    ['num_batches_tracked'], or is ['running_mean'] or ['running_var']
    and [m] stores [None] for it, and keeps it if [m] stores something
    else; for any other module or last key the state dict is unchanged.
    Removing touches no other entry. *)
Theorem C1_patch_removes_stale_entries sd module m path (key : string) :
  resolve module path = Ok m ->
  let keys := path ++ [key] in
  let full := PyStr.join "." keys in
  let patched := patch_instance_norm_state_dict sd module keys 0 in
  (is_instance_norm m = true -> key = "num_batches_tracked" ->
   full ∈ OrderedDict.keys sd -> patched = Ok (OrderedDict.remove full sd))
  ∧ (is_instance_norm m = true ->
     key = "running_mean" ∨ key = "running_var" ->
     obj_getattr m key = Ok PyNone ->
     full ∈ OrderedDict.keys sd -> patched = Ok (OrderedDict.remove full sd))
  ∧ (is_instance_norm m = true ->
     key = "running_mean" ∨ key = "running_var" ->
     (∃ cls attrs, obj_getattr m key = Ok (PyObj cls attrs)) ->
     patched = Ok sd)
  ∧ (is_instance_norm m = false -> patched = Ok sd)
  ∧ (key ≠ "running_mean" -> key ≠ "running_var" ->
     key ≠ "num_batches_tracked" -> patched = Ok sd)
  ∧ (NoDup (OrderedDict.keys sd) ->
     OrderedDict.get full (OrderedDict.remove full sd) = None
     ∧ ∀ k, k ≠ full ->
         OrderedDict.get k (OrderedDict.remove full sd) = OrderedDict.get k sd)
  ∧ (∀ (w w1 : world) epoch before s after p r n loaded i,
       device (self w) = Cuda i ->
       model_names (self w) = before ++ VStr s :: after ->
       load_names epoch before w = (Ok tt, w1) ->
       load_path_of (self w) epoch s = Ok p ->
       getattr_self (self w) s = Ok (VNet r) ->
       nets w1 !! r = Some n ->
       fs w !! p = Some (FCheckpoint loaded) ->
       let unpatched := StateDict (sd_entries loaded) None in
       let w2 :=
         MkWorld (self w1) (<[r := load_weights unpatched n]> (nets w1))
           (optim w1) (fs w1) (cudnn_enabled w1) (cudnn_benchmark w1)
           (log w1 ++
            [EPathExists p; ETorchLoad p (device_str (Cuda i));
             EPrint (PText ("loading the model from " +:+ p));
             ELoadStateDict r unpatched false]) in
       load_networks epoch w =
         (if load_errors unpatched n then (Raise RuntimeError, w2)
          else load_names epoch after w2)
       ∧ ∀ k path' name m',
           k ∈ OrderedDict.keys (sd_entries loaded) ->
           split_last (PyStr.split "." k) = (path', name) ->
           name = "running_mean" ∨ name = "running_var" ->
           resolve (net_module n) path' = Ok m' ->
           is_instance_norm m' = true ->
           obj_getattr m' "running_mean" = Ok PyNone ->
           load_networks epoch w = (Raise RuntimeError, w2)).
Proof.
  intros Hres keys full patched.
  assert (patched = patch_leaf sd m keys key) as ->
    by (by apply patch_at_resolved).
  unfold patch_leaf. cbv zeta.
  change (PyStr.startswith "InstanceNorm" (class_name m))
    with (is_instance_norm m).
  change (PyStr.join "." keys) with full.
  split; [|split; [|split; [|split; [|split; [|split]]]]].
  - intros -> -> [v Hpop]%pop_present. cbn. by rewrite Hpop.
  - intros -> Hkey -> [v Hpop]%pop_present. cbn.
    destruct Hkey as [-> | ->]; cbn; by rewrite Hpop.
  - intros -> Hkey (cls & attrs & ->). by destruct Hkey as [-> | ->].
  - by intros ->.
  - intros H1%String.eqb_neq H2%String.eqb_neq H3%String.eqb_neq.
    rewrite H1, H2, H3. by rewrite !andb_false_r.
  - intros Hnd. split; [by apply od_get_remove_eq|].
    intros k Hk. by apply od_get_remove_ne.
  - intros w w1 epoch before s after p r n loaded i Hdev Hnames Hb Hp Hv
      Hn Hfs.
    pose proof (load_networks_cuda _ _ _ _ _ _ _ _ _ _ _
                  Hdev Hnames Hb Hp Hv Hn Hfs) as Hrun.
    cbv zeta in Hrun. split; [done|].
    intros k path' name m' Hk Hsplit Hname Hres' Hnorm Hmean.
    rewrite Hrun.
    by rewrite (stale_key_load_errors _ _ _ _ _ _ Hk Hsplit Hname Hres'
                  Hnorm Hmean).
Qed.

End PatchProperties.

(** ** [setup] *)

Section SetupProperties.
Context `{FW : Framework}.

Lemma scheduler_run_length (o : Opt) (st st' : optim_state)
    (opts l : list ref) :
  scheduler_run o st opts l st' -> length l = length opts.
Proof. induction 1; cbn; congruence. Qed.

(** The list comprehension over [self.optimizers]. *)
Lemma scheduler_comp_ok (o : Opt) (opts l : list ref) (w w' : world) :
  list_comp opts (fun optimizer => call_get_scheduler optimizer o) w
    = (Ok l, w') ->
  scheduler_run o (optim w) opts l (optim w')
  ∧ self w' = self w ∧ nets w' = nets w ∧ fs w' = fs w
  ∧ log w' = log w ++ (EGetScheduler <$> opts).
Proof.
  revert l w. induction opts as [|optimizer opts IH]; intros l w; cbn.
  - intros [= <- <-]. rewrite app_nil_r. repeat split. constructor.
  - unfold bind at 1, call_get_scheduler. unfold_monad. cbn.
    destruct (get_scheduler optimizer o (optim w)) as [[s|e] st] eqn:Hget;
      [|done].
    destruct (list_comp opts _ _) as [[l'|e] w1] eqn:Hrest; [|done].
    intros [= <- <-]. apply IH in Hrest as (Hrun & Hs & Hn & Hf & Hl).
    cbn in *. rewrite Hl, <- app_assoc. repeat split; try done.
    by econstructor.
Qed.

Lemma print_network_frame (verbose : bool) (s : string) (w w' : world)
    (r : result unit) :
  print_network verbose s w = (r, w') ->
  self w' = self w ∧ nets w' = nets w ∧ fs w' = fs w ∧ optim w' = optim w
  ∧ ∃ evs, log w' = log w ++ evs ∧ Forall is_print evs.
Proof.
  unfold print_network. unfold_monad.
  assert (∃ evs, log w = log w ++ evs ∧ Forall is_print evs) as Hnil
    by (exists []; by rewrite app_nil_r).
  destruct (getattr_self (self w) s) as [v|e]; [|by intros [= _ <-]].
  destruct v; try by intros [= _ <-].
  destruct (nets w !! r0) as [n|]; [|by intros [= _ <-]].
  destruct verbose; cbn; intros [= _ <-]; cbn; repeat split;
    rewrite <- ?app_assoc; eexists; (split; [reflexivity|]);
    by repeat constructor.
Qed.

Lemma print_networks_frame (verbose : bool) (w w' : world) (r : result unit) :
  print_networks verbose w = (r, w') ->
  self w' = self w ∧ nets w' = nets w ∧ fs w' = fs w ∧ optim w' = optim w
  ∧ ∃ evs, log w' = log w ++ evs ∧ Forall is_print evs.
Proof.
  unfold print_networks. unfold bind at 1. unfold emit at 1, modify at 1.
  unfold bind at 1, gets at 1. cbn [self with_log].
  set (w0 := with_log _ w). unfold bind at 1.
  assert (∀ names (w1 w2 : world) r1,
    for_each names (fun name =>
      match name with
      | VStr s => print_network verbose s
      | _ => ret tt
      end) w1 = (r1, w2) ->
    self w2 = self w1 ∧ nets w2 = nets w1 ∧ fs w2 = fs w1
    ∧ optim w2 = optim w1
    ∧ ∃ evs, log w2 = log w1 ++ evs ∧ Forall is_print evs) as Hloop.
  { induction names as [|name names IH]; intros w1 w2 r1; cbn [for_each].
    - intros [= _ <-]. repeat split. exists []. by rewrite app_nil_r.
    - unfold bind at 1. destruct name; try apply IH.
      destruct (print_network verbose s w1) as [[[]|e] w3] eqn:Hbody;
        apply print_network_frame in Hbody
          as (Hs & Hn & Hf & Ho & evs1 & Hl & Hp).
      + intros (Hs' & Hn' & Hf' & Ho' & evs2 & Hl' & Hp')%IH.
        rewrite Hs', Hn', Hf', Ho', Hl', Hl, <- app_assoc.
        repeat split; try done. exists (evs1 ++ evs2). split; [done|].
        by apply Forall_app.
      + intros [= _ <-]. repeat split; try done. by exists evs1. }
  destruct (for_each _ _ w0) as [[[]|e] w1] eqn:Hrun;
    apply Hloop in Hrun as (Hs & Hn & Hf & Ho & evs & Hl & Hp);
    unfold emit, modify; intros [= _ <-]; cbn;
    rewrite ?Hs, ?Hn, ?Hf, ?Ho, Hl; subst w0; cbn;
    rewrite <- ?app_assoc; repeat split; try done;
    eexists; (split; [reflexivity|]);
    repeat first [apply Forall_cons; split; [done|] | apply Forall_app; split];
    try done; by repeat constructor.
Qed.

Lemma load_networks_frame (epoch : epoch_val) (w w' : world)
    (r : result unit) :
  load_networks epoch w = (r, w') ->
  self w' = self w ∧ fs w' = fs w ∧ optim w' = optim w
  ∧ ∃ evs, log w' = log w ++ evs ∧ Forall is_load_event evs.
Proof.
  unfold load_networks. unfold bind at 1, gets at 1.
  intros (Hs & Hf & Ho & evs & Hl & Hevs)%load_loop_frame.
  repeat split; try done. exists evs. split; [done|].
  eapply Forall_impl; [exact Hevs|]. intros ev (s & _ & Hok).
  by destruct ev.
Qed.

(** The first statement of [setup]. *)
Lemma setup_schedulers (o : Opt) (w w' : world) :
  (if isTrain (self w) then
     let* opts := gets optimizers in
     let* l := list_comp opts
                 (fun optimizer => call_get_scheduler optimizer o) in
     modify_self (set_schedulers l)
   else ret tt) w = (Ok tt, w') ->
  isTrain (self w') = isTrain (self w)
  ∧ model_names (self w') = model_names (self w)
  ∧ ∃ sched_evs,
      log w' = log w ++ sched_evs
      ∧ if isTrain (self w)
        then ∃ l, schedulers (self w') = Some l
                  ∧ scheduler_run o (optim w) (optimizers (self w)) l
                      (optim w')
                  ∧ length l = length (optimizers (self w))
                  ∧ sched_evs = EGetScheduler <$> optimizers (self w)
        else schedulers (self w') = schedulers (self w) ∧ optim w' = optim w
             ∧ sched_evs = [].
Proof.
  destruct (isTrain (self w)) eqn:Ht.
  - unfold bind at 1, gets at 1. unfold bind at 1.
    destruct (list_comp _ _ w) as [[l|e] w1] eqn:Hcomp; [|done].
    apply scheduler_comp_ok in Hcomp as (Hrun & Hs & Hn & Hf & Hl).
    unfold_monad. intros [= <-]. cbn. rewrite Hs, Ht.
    repeat split. eexists. split; [exact Hl|]. exists l.
    repeat split; try done. by apply scheduler_run_length in Hrun.
  - intros [= <-]. rewrite Ht. repeat split. exists [].
    by rewrite app_nil_r.
Qed.

(** What a call of [setup] that returns has done. *)
Lemma setup_returns (o : Opt) (w w' : world) :
  setup o w = (Ok tt, w') ->
  ∃ sched_evs load_evs print_evs,
    log w' = log w ++ sched_evs ++ load_evs
               ++ ESelfCall (CallPrintNetworks (opt_verbose o)) :: print_evs
    ∧ (if isTrain (self w)
       then ∃ l, schedulers (self w') = Some l
                 ∧ scheduler_run o (optim w) (optimizers (self w)) l
                     (optim w')
                 ∧ length l = length (optimizers (self w))
                 ∧ sched_evs = EGetScheduler <$> optimizers (self w)
       else schedulers (self w') = schedulers (self w) ∧ sched_evs = [])
    ∧ (if negb (isTrain (self w)) || opt_continue_train o
       then ∃ evs,
              load_evs = ESelfCall (CallLoadNetworks (opt_load_epoch o)) :: evs
              ∧ Forall is_load_event evs
       else load_evs = [])
    ∧ Forall is_print print_evs
    ∧ ((∃ e, ESelfCall (CallLoadNetworks e)
               ∈ sched_evs ++ load_evs
                   ++ ESelfCall (CallPrintNetworks (opt_verbose o))
                   :: print_evs)
       ↔ isTrain (self w) = false ∨ opt_continue_train o = true).
Proof.
  unfold setup. unfold bind at 1, gets at 1. unfold bind at 1.
  match goal with
  | |- context [(if isTrain (self w) then ?a else ?b) w] =>
      destruct ((if isTrain (self w) then a else b) w)
        as [[[]|e1] w1] eqn:H1; [|done]
  end.
  apply setup_schedulers in H1 as (Ht1 & Hm1 & sched_evs & Hl1 & Hsched).
  unfold bind at 1, gets at 1. rewrite Ht1. unfold bind at 1.
  match goal with
  | |- context [(if ?c then ?a else ?b) w1] =>
      destruct ((if c then a else b) w1) as [[[]|e2] w2] eqn:H2; [|done]
  end.
  unfold bind at 1, emit at 1, modify at 1.
  intros (Hs3 & _ & _ & Ho3 & print_evs & Hl3 & Hprint)%print_networks_frame.
  cbn in Hs3, Ho3, Hl3.
  assert (∃ load_evs,
    log w2 = log w1 ++ load_evs ∧ self w2 = self w1 ∧ optim w2 = optim w1
    ∧ if negb (isTrain (self w)) || opt_continue_train o
      then ∃ evs,
             load_evs = ESelfCall (CallLoadNetworks (opt_load_epoch o)) :: evs
             ∧ Forall is_load_event evs
      else load_evs = []) as (load_evs & Hl2 & Hs2 & Ho2 & Hload).
  { destruct (negb (isTrain (self w)) || opt_continue_train o).
    - unfold bind at 1, emit at 1, modify at 1 in H2.
      apply load_networks_frame in H2 as (Hs & _ & Ho & evs & Hl & Hevs).
      cbn in Hs, Ho, Hl. eexists. rewrite Hl, <- app_assoc.
      split; [reflexivity|]. repeat split; try done. by exists evs.
    - injection H2 as <-. exists []. by rewrite app_nil_r. }
  exists sched_evs, load_evs, print_evs.
  split; [by rewrite Hl3, Hl2, Hl1, <- !app_assoc|].
  split.
  { destruct (isTrain (self w)).
    - destruct Hsched as (l & Hsch & Hrun & Hlen & Hevs). exists l.
      by rewrite Hs3, Hs2, Ho3, Ho2.
    - destruct Hsched as (Hsch & _ & Hevs). by rewrite Hs3, Hs2. }
  split; [done|]. split; [done|].
  assert (∀ e, ESelfCall (CallLoadNetworks e) ∉ sched_evs) as Hno1.
  { intros e. destruct (isTrain (self w)).
    - destruct Hsched as (l & _ & _ & _ & ->).
      by intros (? & ? & ?)%list_elem_of_fmap.
    - destruct Hsched as (_ & _ & ->). apply not_elem_of_nil. }
  assert (∀ e, ESelfCall (CallLoadNetworks e)
                 ∉ ESelfCall (CallPrintNetworks (opt_verbose o)) :: print_evs)
    as Hno3.
  { intros e [?|Hin]%elem_of_cons; [done|].
    rewrite Forall_forall in Hprint. by apply Hprint in Hin. }
  split.
  - intros (e & Hin). rewrite !elem_of_app in Hin.
    destruct Hin as [Hin|[Hin|Hin]]; [by apply Hno1 in Hin| |by apply Hno3 in Hin].
    destruct (isTrain (self w)), (opt_continue_train o); cbn in Hload; auto.
    subst load_evs. by apply elem_of_nil in Hin.
  - intros Hcond. exists (opt_load_epoch o).
    assert (negb (isTrain (self w)) || opt_continue_train o = true) as Hc
      by (destruct Hcond as [-> | ->]; [done|apply orb_true_r]).
    rewrite Hc in Hload. destruct Hload as (evs & -> & _).
    rewrite !elem_of_app. right. left. apply list_elem_of_here.
Qed.

(** A list comprehension that raises has only called [get_scheduler]. *)
Lemma scheduler_comp_raise (o : Opt) (opts : list ref) (w w' : world)
    (e : exn) :
  list_comp opts (fun optimizer => call_get_scheduler optimizer o) w
    = (Raise e, w') ->
  self w' = self w
  ∧ ∃ evs, log w' = log w ++ evs ∧ Forall is_get_scheduler evs.
Proof.
  revert w. induction opts as [|optimizer opts IH]; intros w; cbn; [done|].
  unfold bind at 1, call_get_scheduler. unfold_monad. cbn.
  destruct (get_scheduler optimizer o (optim w)) as [[s|e'] st] eqn:Hget.
  - destruct (list_comp opts _ _) as [[l'|e'] w1] eqn:Hrest; [done|].
    intros [= <- <-]. apply IH in Hrest as (Hs & evs & Hl & Hevs).
    cbn in *. split; [done|]. exists (EGetScheduler optimizer :: evs).
    rewrite Hl, <- app_assoc. split; [done|]. by constructor.
  - intros [= _ <-]. cbn. split; [done|]. exists [EGetScheduler optimizer].
    split; [done|]. by repeat constructor.
Qed.

Lemma is_load_event_not_print_call (evs : list event) (verbose : bool) :
  Forall is_load_event evs -> ESelfCall (CallPrintNetworks verbose) ∉ evs.
Proof.
  rewrite Forall_forall. intros Hall Hin. by apply Hall in Hin.
Qed.

Lemma is_get_scheduler_not_print_call (evs : list event) (verbose : bool) :
  Forall is_get_scheduler evs -> ESelfCall (CallPrintNetworks verbose) ∉ evs.
Proof.
  rewrite Forall_forall. intros Hall Hin. by apply Hall in Hin.
Qed.

(** What a call of [setup] that raises has done: the exception comes
    from [get_scheduler], from [load_networks] or from [print_networks],
    and in the first two cases [print_networks] has not been called. *)
Lemma setup_raises (o : Opt) (w w' : world) (e : exn) :
  setup o w = (Raise e, w') ->
  ∃ evs,
    log w' = log w ++ evs
    ∧ ((isTrain (self w) = true
        ∧ Forall is_get_scheduler evs
        ∧ ∀ verbose, ESelfCall (CallPrintNetworks verbose) ∉ evs)
       ∨ (negb (isTrain (self w)) || opt_continue_train o = true
          ∧ (∃ sched_evs load_evs,
               evs = sched_evs
                       ++ ESelfCall (CallLoadNetworks (opt_load_epoch o))
                       :: load_evs
               ∧ Forall is_get_scheduler sched_evs
               ∧ Forall is_load_event load_evs)
          ∧ ∀ verbose, ESelfCall (CallPrintNetworks verbose) ∉ evs)
       ∨ (∃ before print_evs,
            evs = before
                    ++ ESelfCall (CallPrintNetworks (opt_verbose o))
                    :: print_evs
            ∧ Forall is_print print_evs)).
Proof.
  unfold setup. unfold bind at 1, gets at 1. unfold bind at 1.
  match goal with
  | |- context [(if isTrain (self w) then ?a else ?b) w] =>
      destruct ((if isTrain (self w) then a else b) w)
        as [[[]|e1] w1] eqn:H1
  end.
  2:{ intros [= <- <-]. destruct (isTrain (self w)) eqn:Ht; [|done].
      unfold bind at 1, gets at 1 in H1. unfold bind at 1 in H1.
      destruct (list_comp _ _ w) as [[l|e'] w2] eqn:Hcomp; [done|].
      injection H1 as <- <-.
      apply scheduler_comp_raise in Hcomp as (_ & evs & Hl & Hevs).
      exists evs. split; [done|]. left. split; [done|]. split; [done|].
      intros verbose. by apply is_get_scheduler_not_print_call. }
  apply setup_schedulers in H1 as (Ht1 & Hm1 & sched_evs & Hl1 & Hsched).
  assert (Forall is_get_scheduler sched_evs) as Hsched_evs.
  { destruct (isTrain (self w)).
    - destruct Hsched as (l & _ & _ & _ & ->). apply Forall_fmap.
      by apply Forall_true.
    - destruct Hsched as (_ & _ & ->). constructor. }
  unfold bind at 1, gets at 1. rewrite Ht1. unfold bind at 1.
  match goal with
  | |- context [(if ?c then ?a else ?b) w1] =>
      destruct ((if c then a else b) w1) as [[[]|e2] w2] eqn:H2
  end.
  2:{ intros [= <- <-].
      destruct (negb (isTrain (self w)) || opt_continue_train o) eqn:Hc;
        [|done].
      unfold bind at 1, emit at 1, modify at 1 in H2.
      apply load_networks_frame in H2 as (_ & _ & _ & evs & Hl & Hevs).
      cbn in Hl. eexists. rewrite Hl, Hl1, <- !app_assoc.
      split; [reflexivity|]. right. left. split; [done|].
      split; [by exists sched_evs, evs|].
      intros verbose [Hin|[?|Hin]%elem_of_cons]%elem_of_app; [|done|].
      - by apply is_get_scheduler_not_print_call in Hin.
      - by apply is_load_event_not_print_call in Hin. }
  unfold bind at 1, emit at 1, modify at 1.
  intros (_ & _ & _ & _ & print_evs & Hl3 & Hprint)%print_networks_frame.
  cbn in Hl3.
  assert (∃ load_evs, log w2 = log w1 ++ load_evs) as [load_evs Hl2].
  { destruct (negb (isTrain (self w)) || opt_continue_train o).
    - unfold bind at 1, emit at 1, modify at 1 in H2.
      apply load_networks_frame in H2 as (_ & _ & _ & evs & Hl & _).
      cbn in Hl. eexists. rewrite Hl, <- app_assoc. reflexivity.
    - injection H2 as <-. exists []. by rewrite app_nil_r. }
  eexists. rewrite Hl3, Hl2, Hl1, <- !app_assoc. split; [reflexivity|].
  right. right. exists (sched_evs ++ load_evs), print_evs.
  by rewrite <- app_assoc.
Qed.

(** The list comprehension along a run of [get_scheduler] calls. *)
Lemma scheduler_comp_run (o : Opt) (opts l : list ref) (w : world)
    (st1 : optim_state) :
  scheduler_run o (optim w) opts l st1 ->
  list_comp opts (fun optimizer => call_get_scheduler optimizer o) w
  = (Ok l, MkWorld (self w) (nets w) st1 (fs w) (cudnn_enabled w)
             (cudnn_benchmark w) (log w ++ (EGetScheduler <$> opts))).
Proof.
  revert l w. induction opts as [|optimizer opts IH]; intros l w Hrun.
  - inversion Hrun; subst. cbn. unfold ret. rewrite app_nil_r.
    by destruct w.
  - inversion Hrun as [|? st0 ? ? ? s l' Hget Hrest]; subst.
    cbn [list_comp]. unfold bind at 1, call_get_scheduler at 1.
    unfold bind at 1, emit at 1, modify at 1. cbn [optim with_log].
    rewrite Hget. unfold bind at 1.
    rewrite (IH l' (with_optim st0
                      (with_log (log w ++ [EGetScheduler optimizer]) w)))
      by exact Hrest.
    unfold ret. cbn. by rewrite <- app_assoc.
Qed.

(** The list comprehension stops at the first [get_scheduler] that
    raises. *)
Lemma scheduler_comp_stop (o : Opt) (before after l : list ref)
    (optimizer : ref) (w : world) (st1 st2 : optim_state) (e : exn) :
  scheduler_run o (optim w) before l st1 ->
  get_scheduler optimizer o st1 = (Raise e, st2) ->
  list_comp (before ++ optimizer :: after)
    (fun optimizer => call_get_scheduler optimizer o) w
  = (Raise e, MkWorld (self w) (nets w) st2 (fs w) (cudnn_enabled w)
                (cudnn_benchmark w)
                (log w ++ (EGetScheduler <$> before ++ [optimizer]))).
Proof.
  revert l w. induction before as [|o0 before IH]; intros l w Hrun Hget.
  - inversion Hrun; subst. cbn [app list_comp].
    unfold bind at 1, call_get_scheduler at 1.
    unfold bind at 1, emit at 1, modify at 1. cbn [optim with_log].
    by rewrite Hget.
  - inversion Hrun as [|? st0 ? ? ? s l' Hget0 Hrest]; subst.
    cbn [app list_comp]. unfold bind at 1, call_get_scheduler at 1.
    unfold bind at 1, emit at 1, modify at 1. cbn [optim with_log].
    rewrite Hget0. unfold bind at 1.
    rewrite (IH l' (with_optim st0
                      (with_log (log w ++ [EGetScheduler o0]) w)))
      by (exact Hrest || exact Hget).
    cbn. by rewrite <- app_assoc.
Qed.

(** [setup] from its second statement on. *)
Lemma setup_scheduled (o : Opt) (w w0 : world) :
  scheduled o w w0 ->
  setup o w =
  if negb (isTrain (self w)) || opt_continue_train o then
    match load_networks (opt_load_epoch o)
            (with_log
               (log w0 ++ [ESelfCall (CallLoadNetworks (opt_load_epoch o))])
               w0) with
    | (Ok _, w2) =>
        print_networks (opt_verbose o)
          (with_log
             (log w2 ++ [ESelfCall (CallPrintNetworks (opt_verbose o))]) w2)
    | (Raise e, w2) => (Raise e, w2)
    end
  else
    print_networks (opt_verbose o)
      (with_log (log w0 ++ [ESelfCall (CallPrintNetworks (opt_verbose o))])
         w0).
Proof.
  unfold scheduled, setup. unfold bind at 1, gets at 1. unfold bind at 1.
  destruct (isTrain (self w)) eqn:Ht.
  - intros (l & st1 & Hrun & ->).
    unfold bind at 1, gets at 1. unfold bind at 1.
    rewrite (scheduler_comp_run _ _ _ _ _ Hrun).
    unfold modify_self at 1, modify at 1.
    unfold bind at 1, gets at 1. unfold bind at 1.
    change (isTrain (self (with_self _ _))) with (isTrain (self w)).
    rewrite Ht. cbn [negb orb].
    destruct (opt_continue_train o).
    + unfold bind at 1, emit at 1, modify at 1.
      destruct (load_networks _ _) as [[[]|e] w2]; [|done].
      by unfold bind at 1, emit at 1, modify at 1.
    + unfold ret at 1. by unfold bind at 1, emit at 1, modify at 1.
  - intros ->. unfold ret at 1. unfold bind at 1, gets at 1. rewrite Ht.
    unfold bind at 1. cbn [negb orb].
    unfold bind at 1, emit at 1, modify at 1.
    destruct (load_networks _ _) as [[[]|e] w2]; [|done].
    by unfold bind at 1, emit at 1, modify at 1.
Qed.

(** C4 (as amended): whenever [setup(opt)] returns, it has created
    exactly one scheduler per entry of [self.optimizers], in order, if
    [self.isTrain] is true, and none otherwise; it has called
    [load_networks(opt.load_epoch)] if and only if [self.isTrain] is false
    or [opt.continue_train] is true; and it has then called
    [print_networks(opt.verbose)], after which only prints follow. A
    [get_scheduler] that raises ends [setup] with its exception, the
    schedulers unassigned and nothing loaded or printed. Once the
    schedulers are created, [setup] is the call of [load_networks] (if
    [self.isTrain] is false or [opt.continue_train] is true) followed by
    the call of [print_networks]: when [load_networks] raises, [setup]
    raises the same exception and [print_networks] is not called. *)
Theorem C4_setup_calls (o : Opt) (w : world) :
  (∀ w', setup o w = (Ok tt, w') ->
     ∃ sched_evs load_evs print_evs,
       log w' = log w ++ sched_evs ++ load_evs
                  ++ ESelfCall (CallPrintNetworks (opt_verbose o))
                  :: print_evs
       ∧ (if isTrain (self w)
          then ∃ l, schedulers (self w') = Some l
                    ∧ scheduler_run o (optim w) (optimizers (self w)) l
                        (optim w')
                    ∧ length l = length (optimizers (self w))
                    ∧ sched_evs = EGetScheduler <$> optimizers (self w)
          else schedulers (self w') = schedulers (self w) ∧ sched_evs = [])
       ∧ (if negb (isTrain (self w)) || opt_continue_train o
          then ∃ evs,
                 load_evs
                   = ESelfCall (CallLoadNetworks (opt_load_epoch o)) :: evs
                 ∧ Forall is_load_event evs
          else load_evs = [])
       ∧ Forall is_print print_evs
       ∧ ((∃ e, ESelfCall (CallLoadNetworks e)
                  ∈ sched_evs ++ load_evs
                      ++ ESelfCall (CallPrintNetworks (opt_verbose o))
                      :: print_evs)
          ↔ isTrain (self w) = false ∨ opt_continue_train o = true))
  ∧ (∀ e w', setup o w = (Raise e, w') ->
       ∃ evs,
         log w' = log w ++ evs
         ∧ ((isTrain (self w) = true
             ∧ Forall is_get_scheduler evs
             ∧ ∀ verbose, ESelfCall (CallPrintNetworks verbose) ∉ evs)
            ∨ (negb (isTrain (self w)) || opt_continue_train o = true
               ∧ (∃ sched_evs load_evs,
                    evs = sched_evs
                            ++ ESelfCall (CallLoadNetworks (opt_load_epoch o))
                            :: load_evs
                    ∧ Forall is_get_scheduler sched_evs
                    ∧ Forall is_load_event load_evs)
               ∧ ∀ verbose, ESelfCall (CallPrintNetworks verbose) ∉ evs)
            ∨ (∃ before print_evs,
                 evs = before
                         ++ ESelfCall (CallPrintNetworks (opt_verbose o))
                         :: print_evs
                 ∧ Forall is_print print_evs)))
  ∧ (∀ before optimizer after l st1 st2 e,
       isTrain (self w) = true ->
       optimizers (self w) = before ++ optimizer :: after ->
       scheduler_run o (optim w) before l st1 ->
       get_scheduler optimizer o st1 = (Raise e, st2) ->
       setup o w =
         (Raise e,
          MkWorld (self w) (nets w) st2 (fs w) (cudnn_enabled w)
            (cudnn_benchmark w)
            (log w ++ (EGetScheduler <$> before ++ [optimizer]))))
  ∧ (∀ w0, scheduled o w w0 ->
       setup o w =
         if negb (isTrain (self w)) || opt_continue_train o then
           match load_networks (opt_load_epoch o)
                   (with_log
                      (log w0
                       ++ [ESelfCall (CallLoadNetworks (opt_load_epoch o))])
                      w0) with
           | (Ok _, w2) =>
               print_networks (opt_verbose o)
                 (with_log
                    (log w2
                     ++ [ESelfCall (CallPrintNetworks (opt_verbose o))]) w2)
           | (Raise e, w2) => (Raise e, w2)
           end
         else
           print_networks (opt_verbose o)
             (with_log
                (log w0 ++ [ESelfCall (CallPrintNetworks (opt_verbose o))])
                w0))
  ∧ (∀ w0 e w2,
       scheduled o w w0 ->
       load_networks (opt_load_epoch o)
         (with_log
            (log w0 ++ [ESelfCall (CallLoadNetworks (opt_load_epoch o))])
            w0) = (Raise e, w2) ->
       negb (isTrain (self w)) || opt_continue_train o = true ->
       setup o w = (Raise e, w2)
       ∧ ∀ verbose,
           ESelfCall (CallPrintNetworks verbose) ∈ log w2 ->
           ESelfCall (CallPrintNetworks verbose) ∈ log w).
Proof.
  split; [|split; [|split; [|split]]].
  - intros w'. apply setup_returns.
  - intros e w'. apply setup_raises.
  - intros before optimizer after l st1 st2 e Ht Hopts Hrun Hget.
    unfold setup. unfold bind at 1, gets at 1. unfold bind at 1.
    rewrite Ht. unfold bind at 1, gets at 1. unfold bind at 1.
    rewrite Hopts. by rewrite (scheduler_comp_stop _ _ _ _ _ _ _ _ _ Hrun Hget).
  - apply setup_scheduled.
  - intros w0 e w2 Hsched Hload Hc.
    rewrite (setup_scheduled _ _ _ Hsched), Hc, Hload. split; [done|].
    intros verbose Hin.
    apply load_networks_frame in Hload as (_ & _ & _ & evs & Hl & Hevs).
    cbn in Hl. rewrite Hl, <- app_assoc in Hin.
    apply elem_of_app in Hin as [Hin|Hin].
    + assert (log w0 = log w
              ∨ ∃ opts, log w0 = log w ++ (EGetScheduler <$> opts)) as Hl0.
      { unfold scheduled in Hsched. destruct (isTrain (self w)).
        - destruct Hsched as (l & st1 & _ & ->). right. by eexists.
        - left. by rewrite Hsched. }
      destruct Hl0 as [Hl0|[opts Hl0]]; rewrite Hl0 in Hin; [done|].
      apply elem_of_app in Hin as [Hin|Hin]; [done|].
      by apply list_elem_of_fmap in Hin as (? & ? & _).
    + apply elem_of_cons in Hin as [Hin|Hin]; [done|].
      by apply is_load_event_not_print_call in Hin.
Qed.

End SetupProperties.

(** ** Concrete runs *)

Section Concrete.
Import Demo.
Local Existing Instance framework.



Lemma C5_train_eval_modes_witness :
  ∃ w1 w2 : world,
    train (world0 true Cpu ∅) = (Ok tt, w1)
    ∧ eval (world0 true Cpu ∅) = (Ok tt, w2)
    ∧ net_training <$> nets w1 !! 1%nat = Some true
    ∧ net_training <$> nets w2 !! 1%nat = Some false.
Proof.
  destruct (C5_train_eval_modes (world0 true Cpu ∅))
    as (w1 & w2 & Ht & He & Hmode & _).
  - intros s Hs. exists 1%nat. cbn in Hs.
    apply elem_of_cons in Hs as [[= ->]|Hs].
    + split; [vm_compute; reflexivity|]. vm_compute. eauto.
    + apply elem_of_cons in Hs as [Hs|Hs]; [discriminate Hs|].
      by apply elem_of_nil in Hs.
  - exists w1, w2. split; [exact Ht|]. split; [exact He|].
    apply (Hmode "G"); [apply list_elem_of_here|vm_compute; reflexivity].
Defined.

(** [load_networks] on a CUDA device hands [load_state_dict] the entry
    ['norm.num_batches_tracked'] of an InstanceNorm layer: the patch has
    not been applied. With the entry ['norm.running_mean'] in the
    checkpoint, which the patch would remove, [load_state_dict] raises. *)
Lemma C1_counterexample :
  let w' := (load_networks (EStr "latest") (world0 true (Cuda 0) files0)).2 in
  let run := load_networks (EStr "latest") (world0 true (Cuda 0) files1) in
  (∃ sd m,
     ELoadStateDict 1%nat sd false ∈ log w'
     ∧ "norm.num_batches_tracked" ∈ OrderedDict.keys (sd_entries sd)
     ∧ resolve (net_module generator) ["norm"] = Ok m
     ∧ is_instance_norm m = true)
  ∧ run.1 = Raise RuntimeError
  ∧ ELoadStateDict 1%nat (StateDict (sd_entries plain_checkpoint) None) false
      ∈ log run.2
  ∧ patch_instance_norm_state_dict (sd_entries plain_checkpoint)
      (net_module generator) ["norm"; "running_mean"] 0
    = Ok [ ("conv1.weight", 12) ].
Proof.
  split; [|split; [|split]].
  - exists (StateDict (sd_entries checkpoint) None), instance_norm.
    split; [|split; [|split]].
    + apply list_elem_of_In. vm_compute. tauto.
    + apply list_elem_of_In. vm_compute. tauto.
    + reflexivity.
    + reflexivity.
  - vm_compute. reflexivity.
  - apply list_elem_of_In. vm_compute. tauto.
  - vm_compute. reflexivity.
Qed.

Lemma C1_patch_removes_stale_entries_witness :
  patch_instance_norm_state_dict (sd_entries checkpoint)
    (net_module generator) ["norm"; "num_batches_tracked"] 0
  = Ok [ ("module.conv1.weight", 11); ("conv1.weight", 12) ].
Proof.
  refine (proj1 (C1_patch_removes_stale_entries (FW := framework)
            (sd_entries checkpoint) (net_module generator) instance_norm
            ["norm"] "num_batches_tracked" _) _ _ _).
  - reflexivity.
  - reflexivity.
  - reflexivity.
  - apply list_elem_of_In. vm_compute. tauto.
Defined.

Lemma C2_missing_checkpoint_witness :
  load_networks (EStr "latest") (world0 false Cpu ∅)
  = (Raise ValueError,
     with_log
       [ EPathExists "checkpoints/May/latest_G.pkl";
         EPrint (PText "No model weight file: checkpoints/May/latest_G.pkl initialize model without pre-trained weights.") ]
       (world0 false Cpu ∅)).
Proof.
  destruct (proj1 (proj2 (C2_missing_checkpoint (EStr "latest")
                            (world0 false Cpu ∅)))
              [] "G" [VNone] (world0 false Cpu ∅)
              "checkpoints/May/latest_G.pkl")
    as (Hraise & _).
  - reflexivity.
  - reflexivity.
  - vm_compute. reflexivity.
  - vm_compute. reflexivity.
  - apply Hraise; vm_compute; reflexivity.
Defined.

(** The name ['D'] is no attribute of the model and its checkpoint file
    does not exist: outside training [load_networks] raises
    [AttributeError], not [ValueError], and in training it raises too. *)
Lemma C2_counterexample :
  VStr "D" ∈ model_names (self (world_unbound false))
  ∧ load_path_of (self (world_unbound false)) (EStr "latest") "D"
    = Ok "checkpoints/May/latest_D.pkl"
  ∧ fs (world_unbound false) !! "checkpoints/May/latest_D.pkl" = None
  ∧ isTrain (self (world_unbound false)) = false
  ∧ load_networks (EStr "latest") (world_unbound false)
    = (Raise AttributeError, world_unbound false)
  ∧ isTrain (self (world_unbound true)) = true
  ∧ load_networks (EStr "latest") (world_unbound true)
    = (Raise AttributeError, world_unbound true).
Proof.
  split; [apply list_elem_of_here|]. vm_compute. repeat split.
Qed.

(** Outside training with no checkpoint on disk, [setup] raises the
    [ValueError] of [load_networks] and never calls [print_networks]. *)
Lemma C4_counterexample :
  let run := setup (options false [] (EStr "latest")) (world0 false Cpu ∅) in
  run.1 = Raise ValueError
  ∧ ∀ verbose, ESelfCall (CallPrintNetworks verbose) ∉ log run.2.
Proof.
  split; [vm_compute; reflexivity|].
  intros verbose Hin. apply list_elem_of_In in Hin. vm_compute in Hin.
  repeat destruct Hin as [Hin|Hin]; try discriminate Hin. done.
Qed.

Lemma C4_setup_calls_witness :
  (∃ l, schedulers
          (self (setup (options true [] (EStr "latest"))
                   (world0 true Cpu files0)).2) = Some l
        ∧ length l = 1%nat)
  ∧ setup (options false [] (EStr "latest")) (world0 false Cpu ∅)
    = (Raise ValueError,
       (load_networks (EStr "latest")
          (with_log [ESelfCall (CallLoadNetworks (EStr "latest"))]
             (world0 false Cpu ∅))).2).
Proof.
  split.
  - destruct (proj1 (C4_setup_calls (options true [] (EStr "latest"))
                       (world0 true Cpu files0))
                (setup (options true [] (EStr "latest"))
                   (world0 true Cpu files0)).2)
      as (sched_evs & load_evs & print_evs & _ & Hsched & _).
    + vm_compute. reflexivity.
    + change (isTrain (self (world0 true Cpu files0))) with true in Hsched.
      destruct Hsched as (l & Hl & _ & Hlen & _). exists l.
      split; [exact Hl|]. exact Hlen.
  - apply (proj2 (proj2 (proj2 (proj2
             (C4_setup_calls (options false [] (EStr "latest"))
                (world0 false Cpu ∅)))))
             (world0 false Cpu ∅) ValueError).
    + reflexivity.
    + vm_compute. reflexivity.
    + reflexivity.
Defined.

Lemma C9_cpu_strips_every_key_witness :
  ∃ w', load_networks (EStr "latest") (world0 true Cpu files1)
          = (Ok tt, w')
        ∧ log w' =
            [ EPathExists "checkpoints/May/latest_G.pkl";
              ETorchLoad "checkpoints/May/latest_G.pkl" "cpu";
              EPrint
                (PText "loading the model from checkpoints/May/latest_G.pkl");
              ELoadStateDict 1%nat
                (StateDict [ ("eight", 12); ("nning_mean", 14) ] None)
                false ].
Proof.
  destruct (C9_cpu_strips_every_key (EStr "latest") (world0 true Cpu files1)
              (world0 true Cpu files1) [] [VNone] "G"
              "checkpoints/May/latest_G.pkl" plain_checkpoint)
    as (entries & Hstrip & _ & _ & Hrun).
  - reflexivity.
  - reflexivity.
  - reflexivity.
  - vm_compute. reflexivity.
  - vm_compute. reflexivity.
  - apply (bool_decide_unpack _). by vm_compute.
  - vm_compute in Hstrip. injection Hstrip as <-.
    specialize (Hrun 1%nat generator). cbv zeta in Hrun. rewrite Hrun.
    + eexists. split; [vm_compute; reflexivity|]. reflexivity.
    + vm_compute. reflexivity.
    + vm_compute. reflexivity.
Defined.

(** Two keys that shorten to the same key merge: the later one takes
    the place and the value of the earlier one is what survives. *)
Example strip_keys_clash_example :
  strip_keys (OrderedDict.keys (sd_entries checkpoint)) (sd_entries checkpoint)
  = Ok [ ("eight", 11); ("m_batches_tracked", 13) ].
Proof. reflexivity. Qed.

Example split_key_example :
  PyStr.split "." "norm.num_batches_tracked" = ["norm"; "num_batches_tracked"].
Proof. reflexivity. Qed.

Example load_networks_int_epoch_example :
  load_networks (EInt 5) (world0 false Cpu files0)
  = (Raise TypeError, world0 false Cpu files0).
Proof. vm_compute. reflexivity. Qed.

Example load_networks_pkl_epoch_example :
  log (load_networks (EStr "best.pkl") (world0 true Cpu files0)).2
  = [ EPathExists "best.pkl";
      EPrint (PText "No model weight file: best.pkl initialize model without pre-trained weights.") ].
Proof. vm_compute. reflexivity. Qed.

(** Outside training with the checkpoint on disk, [setup] creates no
    scheduler, loads, then prints. *)
Example setup_inference_example :
  let run := setup (options false [] (EStr "latest")) (world0 false Cpu files1) in
  run.1 = Ok tt
  ∧ schedulers (self run.2) = Some [107%nat; 107%nat]
  ∧ log run.2 =
      [ ESelfCall (CallLoadNetworks (EStr "latest"));
        EPathExists "checkpoints/May/latest_G.pkl";
        ETorchLoad "checkpoints/May/latest_G.pkl" "cpu";
        EPrint (PText "loading the model from checkpoints/May/latest_G.pkl");
        ELoadStateDict 1%nat
          (StateDict [ ("eight", 12); ("nning_mean", 14) ] None) false;
        ESelfCall (CallPrintNetworks true);
        EPrint (PText "---------- Networks initialized -------------");
        EPrint (PNet 1%nat);
        EPrint (PNumParams "G" 30);
        EPrint (PText "-----------------------------------------------") ].
Proof. vm_compute. repeat split. Qed.

Example update_learning_rate_example :
  let run := update_learning_rate (world0 true Cpu ∅) in
  run.1 = Ok tt
  ∧ log run.2 =
      [ ESchedulerStep 107%nat (Some (VInt 0));
        ESchedulerStep 107%nat (Some (VInt 0));
        EPrint (PLearningRate 2) ].
Proof. vm_compute. repeat split. Qed.

Example get_current_losses_example :
  (get_current_losses (world0 true Cpu ∅)).1 = Ok [ ("G", 42) ].
Proof. vm_compute. reflexivity. Qed.

Example get_current_visuals_example :
  (get_current_visuals (world0 true Cpu ∅)).1
  = Ok [ ("fake", VObj 5%nat); ("save_dir", VStr "checkpoints/May") ].
Proof. vm_compute. reflexivity. Qed.

Lemma C6_update_learning_rate_witness :
  ∃ w' lr text,
    update_learning_rate (world0 true Cpu ∅) = (Ok tt, w')
    ∧ param_groups 7%nat (optim w') = Some [ [ ("lr", lr) ] ]
    ∧ py_float lr = Ok text
    ∧ log w' =
        [ ESchedulerStep 107%nat (Some (VInt 0));
          ESchedulerStep 107%nat (Some (VInt 0)) ]
        ++ [EPrint (PLearningRate text)].
Proof.
  destruct (proj1 (C6_update_learning_rate (world0 true Cpu ∅))
              (update_learning_rate (world0 true Cpu ∅)).2)
    as (l & o & rest & g & gs & lr & text & Hl & _ & Hlog & Ho & Hpg & Hlr
        & _ & Hfloat & _).
  - vm_compute. reflexivity.
  - injection Hl as <-. injection Ho as <- <-.
    vm_compute in Hpg. injection Hpg as <- <-.
    exists (update_learning_rate (world0 true Cpu ∅)).2, lr, text.
    split; [vm_compute; reflexivity|]. vm_compute in Hlr.
    injection Hlr as <-. split; [vm_compute; reflexivity|].
    split; [exact Hfloat|]. exact Hlog.
Defined.

Lemma C7_current_losses_and_visuals_witness :
  OrderedDict.keys [ ("G", 42) ]
  = first_occurrences (str_entries [ VStr "G"; VInt 3; VStr "G" ]).
Proof.
  refine (proj1 (proj1 (proj2 (proj2
            (C7_current_losses_and_visuals (world0 true Cpu ∅))))
            [ ("G", 42) ] (world0 true Cpu ∅) _)).
  vm_compute. reflexivity.
Defined.

Lemma C10_epoch_is_sliced_witness :
  load_networks (EInt 5) (world0 true Cpu files0)
  = (Raise TypeError, world0 true Cpu files0)
  ∧ ∃ evs,
      log (load_networks (EStr "best.pkl") (world0 true Cpu files0)).2
      = EPathExists "best.pkl"
        :: EPrint (PText "No model weight file: best.pkl initialize model without pre-trained weights.")
        :: evs.
Proof.
  destruct (C10_epoch_is_sliced (world0 true Cpu files0))
    as (Hint & _ & Hpkl).
  split.
  - apply (Hint 5). exists "G". apply list_elem_of_here.
  - destruct (Hpkl "best.pkl" eq_refl) as (_ & _ & Hat).
    destruct (Hat [] "G" [VNone] (world0 true Cpu files0))
      as (evs & Hlog & _ & Hmiss); [reflexivity..|].
    destruct Hmiss as [evs' ->]; [vm_compute; reflexivity|].
    exists evs'. exact Hlog.
Defined.

End Concrete.

(** * Further properties *)

(** ** Strings as lists of characters *)

Local Arguments PyStr.drop : simpl never.

Abbreviation chars := String.list_ascii_of_string.

Lemma chars_app (a b : string) : chars (a +:+ b) = chars a ++ chars b.
Proof.
  induction a as [|c a IH]; [done|].
  change (String c a +:+ b) with (String c (a +:+ b)). cbn. by rewrite IH.
Qed.

Lemma chars_inj (a b : string) : chars a = chars b -> a = b.
Proof.
  intros H. rewrite <- (String.string_of_list_ascii_of_string a),
    <- (String.string_of_list_ascii_of_string b). by rewrite H.
Qed.

Lemma chars_length (s : string) : length (chars s) = String.length s.
Proof. induction s as [|c s IH]; cbn; congruence. Qed.

Lemma chars_drop (n : nat) (s : string) :
  chars (PyStr.drop n s) = drop n (chars s).
Proof.
  revert s. induction n as [|n IH]; intros s.
  - by destruct s.
  - destruct s as [|c s]; [done|]. apply IH.
Qed.

Lemma chars_suffix (n : nat) (s : string) :
  chars (PyStr.suffix n s) = drop (length (chars s) - n) (chars s).
Proof. unfold PyStr.suffix. by rewrite chars_drop, chars_length. Qed.

Lemma string_app_inv_tail (a b t : string) : a +:+ t = b +:+ t -> a = b.
Proof.
  intros H. apply chars_inj. apply (f_equal chars) in H.
  rewrite !chars_app in H. by apply app_inv_tail in H.
Qed.

Lemma startswith_slash (s : string) :
  PyStr.startswith "/" s =
  match s with
  | String c _ => if ascii_dec "/" c then true else false
  | EmptyString => false
  end.
Proof.
  unfold PyStr.startswith. destruct s as [|c s]; [done|].
  cbn [String.prefix]. destruct (ascii_dec "/" c); [|done]. by destruct s.
Qed.

(** [os.path.join(a, b)] ends with [b]. *)
Lemma path_join_chars (a b : string) :
  ∃ pre, chars (path_join a b) = pre ++ chars b.
Proof.
  unfold path_join. destruct (PyStr.startswith "/" b); [by exists []|].
  destruct (_ || _).
  - exists (chars a). apply chars_app.
  - exists (chars a ++ chars "/"). by rewrite !chars_app, app_assoc.
Qed.

(** For a fixed directory, file names that agree on being absolute are
    joined to different paths when they differ. *)
Lemma path_join_inj (a b1 b2 : string) :
  PyStr.startswith "/" b1 = PyStr.startswith "/" b2 ->
  path_join a b1 = path_join a b2 -> b1 = b2.
Proof.
  unfold path_join. intros <-. destruct (PyStr.startswith "/" b1); [done|].
  destruct (_ || _); intros H.
  - by apply (inj (String.app a)) in H.
  - apply (inj (String.app a)) in H. by apply (inj (String.app "/")) in H.
Qed.

(** ** Where checkpoints are saved and where they are looked for *)

Lemma uint_chars_no_p (d : Decimal.uint) :
  "p"%char ∉ chars (NilEmpty.string_of_uint d).
Proof.
  induction d; cbn; [apply not_elem_of_nil|..];
    (apply not_elem_of_cons; split; [discriminate|done]).
Qed.

Lemma of_Z_chars_no_p (z : Z) : "p"%char ∉ chars (PyStr.of_Z z).
Proof.
  unfold PyStr.of_Z, NilZero.string_of_int, NilZero.string_of_uint.
  destruct (Z.to_int z) as [d|d].
  - destruct d; try apply uint_chars_no_p.
    cbn. apply not_elem_of_cons. split; [discriminate|apply not_elem_of_nil].
  - cbn [chars]. apply not_elem_of_cons. split; [discriminate|].
    destruct d; try apply uint_chars_no_p.
    cbn. apply not_elem_of_cons. split; [discriminate|apply not_elem_of_nil].
Qed.

Lemma suffix_pkl_has_p (s : string) :
  PyStr.suffix 3 s = "pkl" -> "p"%char ∈ chars s.
Proof.
  intros H. apply (f_equal chars) in H. rewrite chars_suffix in H.
  rewrite <- (take_drop (length (chars s) - 3) (chars s)), H.
  apply elem_of_app. right. apply list_elem_of_here.
Qed.

(** The decimal form of an int never ends in ['pkl']. *)
Lemma of_Z_not_pkl (z : Z) : PyStr.suffix 3 (PyStr.of_Z z) ≠ "pkl".
Proof. intros H%suffix_pkl_has_p. by apply of_Z_chars_no_p in H. Qed.

Lemma save_filename_absolute (e name1 name2 : string) :
  PyStr.startswith "/" (e +:+ "_" +:+ name1 +:+ ".pkl")
  = PyStr.startswith "/" (e +:+ "_" +:+ name2 +:+ ".pkl").
Proof.
  rewrite !startswith_slash. by destruct e.
Qed.

Lemma save_path_of_inj (m : BaseModel) (epoch : epoch_val)
    (name1 name2 : string) :
  save_path_of m epoch name1 = save_path_of m epoch name2 -> name1 = name2.
Proof.
  unfold save_path_of. intros H.
  apply path_join_inj in H; [|apply save_filename_absolute].
  apply (inj (String.app _)) in H. apply (inj (String.app "_")) in H.
  by apply string_app_inv_tail in H.
Qed.

Lemma save_path_of_longer (m : BaseModel) (epoch : epoch_val) (name : string) :
  (String.length (epoch_str epoch)
   < String.length (save_path_of m epoch name))%nat.
Proof.
  unfold save_path_of.
  destruct (path_join_chars (save_dir m)
              (epoch_str epoch +:+ "_" +:+ name +:+ ".pkl")) as [pre Hpre].
  rewrite <- !chars_length, Hpre, !chars_app, !length_app. cbn. lia.
Qed.

Lemma save_path_of_last (m : BaseModel) (epoch : epoch_val) (name : string) :
  last (chars (save_path_of m epoch name)) = Some "l"%char.
Proof.
  unfold save_path_of.
  destruct (path_join_chars (save_dir m)
              (epoch_str epoch +:+ "_" +:+ name +:+ ".pkl")) as [pre ->].
  rewrite !chars_app.
  change (chars ".pkl") with (["."; "p"; "k"]%char ++ ["l"%char]).
  by rewrite !app_assoc, last_snoc.
Qed.

Lemma iter_path_last (d : string) :
  last (chars (path_join d "iter.txt")) = Some "t"%char.
Proof.
  destruct (path_join_chars d "iter.txt") as [pre ->].
  change (chars "iter.txt")
    with (["i"; "t"; "e"; "r"; "."; "t"; "x"]%char ++ ["t"%char]).
  by rewrite app_assoc, last_snoc.
Qed.

Lemma iter_path_not_save_path (m : BaseModel) (epoch : epoch_val)
    (name : string) :
  path_join (save_dir m) "iter.txt" ≠ save_path_of m epoch name.
Proof.
  intros H. pose proof (iter_path_last (save_dir m)) as Ht.
  rewrite H, save_path_of_last in Ht. discriminate Ht.
Qed.

Lemma load_path_of_label (m : BaseModel) (epoch : epoch_val) (name : string) :
  (PyStr.suffix 3 (epoch_str epoch) ≠ "pkl" ->
     load_path_of m (EStr (epoch_str epoch)) name
       = Ok (save_path_of m epoch name))
  ∧ (PyStr.suffix 3 (epoch_str epoch) = "pkl" ->
       load_path_of m (EStr (epoch_str epoch)) name = Ok (epoch_str epoch)).
Proof.
  unfold load_path_of. split.
  - intros Hne%String.eqb_neq. by rewrite Hne.
  - intros Hpkl. by rewrite Hpkl.
Qed.

(** Every path that [save_networks] writes ends in ['pkl']. *)
Lemma save_path_of_pkl (m : BaseModel) (epoch : epoch_val) (name : string) :
  PyStr.suffix 3 (save_path_of m epoch name) = "pkl".
Proof.
  apply chars_inj. rewrite chars_suffix. unfold save_path_of.
  destruct (path_join_chars (save_dir m)
              (epoch_str epoch +:+ "_" +:+ name +:+ ".pkl")) as [pre ->].
  rewrite !chars_app.
  change (chars ".pkl") with (["."%char] ++ chars "pkl").
  rewrite !app_assoc, length_app. cbn [length chars].
  rewrite Nat.add_sub. by rewrite drop_app_length.
Qed.

(** X1: [load_networks(str(epoch))] looks for the checkpoint of a name
    exactly where [save_networks(epoch)] writes it, provided the label
    does not end in ['pkl']; an int label never does, but
    [load_networks] raises [TypeError] on the int itself. For a label
    that ends in ['pkl'], [load_networks] looks for the label as a path,
    for every name, and that is none of the paths that [save_networks]
    writes under this label. Every path that [save_networks] writes
    ends in ['pkl']: given as [epoch], it is the load path of every
    name. For one label, different names are saved to different
    files. *)
Theorem X1_save_and_load_paths (m : BaseModel) (epoch : epoch_val)
    (name : string) :
  (PyStr.suffix 3 (epoch_str epoch) ≠ "pkl" ->
     load_path_of m (EStr (epoch_str epoch)) name
       = Ok (save_path_of m epoch name))
  ∧ (PyStr.suffix 3 (epoch_str epoch) = "pkl" ->
       load_path_of m (EStr (epoch_str epoch)) name = Ok (epoch_str epoch)
       ∧ ∀ name', save_path_of m epoch name' ≠ epoch_str epoch)
  ∧ (∀ name',
       load_path_of m (EStr (save_path_of m epoch name)) name'
       = Ok (save_path_of m epoch name))
  ∧ (∀ z, epoch = EInt z ->
       PyStr.suffix 3 (epoch_str epoch) ≠ "pkl"
       ∧ load_path_of m epoch name = Raise TypeError)
  ∧ (∀ name', save_path_of m epoch name' = save_path_of m epoch name ->
       name' = name).
Proof.
  split; [|split; [|split; [|split]]].
  - intros Hne%String.eqb_neq. unfold load_path_of. by rewrite Hne.
  - intros Hpkl. unfold load_path_of. rewrite Hpkl. split; [done|].
    intros name' Heq. pose proof (save_path_of_longer m epoch name') as Hlen.
    rewrite Heq in Hlen. lia.
  - intros name'. unfold load_path_of. by rewrite save_path_of_pkl.
  - intros z ->. split; [apply of_Z_not_pkl|done].
  - intros name'. apply save_path_of_inj.
Qed.

(** ** [save_networks] *)

Lemma write_all_other (files : list (string * file)) (f : gmap string file)
    (p : string) :
  p ∉ files.*1 -> write_all files f !! p = f !! p.
Proof.
  unfold write_all. revert f.
  induction files as [|[p0 x0] files IH]; intros f; cbn; [done|].
  intros [Hne Hp]%not_elem_of_cons. rewrite IH by done.
  by rewrite lookup_insert_ne.
Qed.

Lemma write_all_written (files : list (string * file)) (f : gmap string file)
    (p : string) (x : file) :
  (∀ x', (p, x') ∈ files -> x' = x) ->
  (p, x) ∈ files ∨ f !! p = Some x ->
  write_all files f !! p = Some x.
Proof.
  unfold write_all. revert f.
  induction files as [|[p0 x0] files IH]; intros f Huniq Hin; cbn.
  - by destruct Hin as [?%elem_of_nil|?].
  - apply IH.
    + intros x' Hx'. apply Huniq. by apply list_elem_of_further.
    + destruct Hin as [[[= <- <-]|Hin]%elem_of_cons|Hf].
      * right. apply lookup_insert_eq.
      * by left.
      * right. destruct (decide (p0 = p)) as [->|Hne].
        -- rewrite (Huniq x0) by apply list_elem_of_here.
           apply lookup_insert_eq.
        -- by rewrite lookup_insert_ne.
Qed.

Section SaveProperties.
Context `{FW : Framework} `{SV : !Saving}.

(** [state_dict()] reads: it returns for the values that have it and
    raises [AttributeError] for the others. *)
Lemma net_state_dict_cases (v : pyval) (w : world) :
  (net_state_dict v w).2 = w
  ∧ (has_state_dict w v -> ∃ sd, (net_state_dict v w).1 = Ok sd)
  ∧ (¬ has_state_dict w v -> (net_state_dict v w).1 = Raise AttributeError).
Proof.
  unfold has_state_dict. destruct v; cbn; try (by repeat split; eauto).
  destruct (nets w !! r) as [n|]; cbn; repeat split; eauto.
  - intros Hnot. destruct Hnot. by eexists.
  - by intros [? ?].
Qed.

(** One iteration, case by case. *)
Lemma save_network_cases (epoch : epoch_val) (s : string) (w : world) :
  save_network epoch s w =
  match getattr_self (self w) s with
  | Ok v =>
      match (net_state_dict v w).1 with
      | Ok sd =>
          match write_error (save_path_of (self w) epoch s) with
          | None =>
              (Ok tt,
               with_fs (<[save_path_of (self w) epoch s
                          := FCheckpoint sd]> (fs w)) w)
          | Some e => (Raise e, w)
          end
      | Raise e => (Raise e, w)
      end
  | Raise e => (Raise e, w)
  end.
Proof.
  unfold save_network, write_file.
  unfold bind at 1, gets at 1. unfold bind at 1, getattr at 1.
  destruct (getattr_self (self w) s) as [v|e]; [|done].
  unfold bind at 1. pose proof (net_state_dict_cases v w) as [Hw _].
  destruct (net_state_dict v w) as [[sd|e] w1]; cbn in Hw; by subst w1.
Qed.

Lemma saved_files_elem (w : world) (epoch : epoch_val) (names : list pyval)
    (p : string) (x : file) :
  (p, x) ∈ saved_files w epoch names ↔
  ∃ s r n, VStr s ∈ names ∧ getattr_self (self w) s = Ok (VNet r)
           ∧ nets w !! r = Some n
           ∧ p = save_path_of (self w) epoch s
           ∧ x = FCheckpoint (state_dict_of n).
Proof.
  unfold saved_files. rewrite list_elem_of_omap. split.
  - intros (s & Hs%str_entries_elem & Hx). exists s.
    destruct (getattr_self (self w) s) as [[]|]; try done.
    destruct (nets w !! r) as [n|] eqn:Hn; [|done].
    injection Hx as <- <-. by exists r, n.
  - intros (s & r & n & Hs%str_entries_elem & Hget & Hn & -> & ->).
    exists s. by rewrite Hget, Hn.
Qed.

Lemma saved_files_cons_str (w : world) (epoch : epoch_val) (s : string)
    (names : list pyval) (r : ref) (n : net) :
  getattr_self (self w) s = Ok (VNet r) -> nets w !! r = Some n ->
  saved_files w epoch (VStr s :: names) =
  (save_path_of (self w) epoch s, FCheckpoint (state_dict_of n))
    :: saved_files w epoch names.
Proof.
  intros Hget Hn. unfold saved_files. rewrite str_entries_cons. cbn.
  by rewrite Hget, Hn.
Qed.

Lemma saved_files_cons_other (w : world) (epoch : epoch_val) (name : pyval)
    (names : list pyval) :
  (∀ s, name ≠ VStr s) ->
  saved_files w epoch (name :: names) = saved_files w epoch names.
Proof. intros Hn. destruct name; try done. by destruct (Hn s). Qed.

(** The loop over names that all resolve and can all be written. *)
Lemma save_loop_ok (epoch : epoch_val) (names : list pyval) (w : world) :
  names_resolve w names ->
  (∀ s, VStr s ∈ names -> write_error (save_path_of (self w) epoch s) = None) ->
  for_each names (fun name =>
    match name with
    | VStr s => save_network epoch s
    | _ => ret tt
    end) w =
  (Ok tt, with_fs (write_all (saved_files w epoch names) (fs w)) w).
Proof.
  revert w. induction names as [|name names IH]; intros w Hres Hwr.
  - cbn. unfold ret. by destruct w.
  - cbn [for_each]. unfold bind at 1.
    assert (names_resolve w names) as Hres'
      by (intros s Hs; apply Hres; by apply list_elem_of_further).
    assert (∀ s, VStr s ∈ names ->
              write_error (save_path_of (self w) epoch s) = None) as Hwr'
      by (intros s Hs; apply Hwr; by apply list_elem_of_further).
    assert ((∃ s, name = VStr s) ∨ (∀ s, name ≠ VStr s)) as [[s ->]|Hother]
      by (destruct name; try (right; intros ?; discriminate); left; eauto).
    + destruct (Hres s) as (r & Hget & [n Hn]); [apply list_elem_of_here|].
      rewrite save_network_cases, Hget. cbn [net_state_dict].
      rewrite Hn. cbn [fst]. rewrite Hwr by apply list_elem_of_here.
      rewrite IH by done.
      by rewrite (saved_files_cons_str _ _ _ _ _ _ Hget Hn).
    + rewrite saved_files_cons_other by done.
      assert (match name with
              | VStr s => save_network epoch s
              | _ => ret tt
              end w = (Ok tt, w)) as ->.
      { destruct name; try done. by destruct (Hother s). }
      by apply IH.
Qed.

Lemma saved_files_lookup (epoch : epoch_val) (names : list pyval) (w : world)
    (s : string) (r : ref) (n : net) :
  VStr s ∈ names -> getattr_self (self w) s = Ok (VNet r) ->
  nets w !! r = Some n ->
  write_all (saved_files w epoch names) (fs w)
    !! save_path_of (self w) epoch s
  = Some (FCheckpoint (state_dict_of n)).
Proof.
  intros Hs Hget Hn. apply write_all_written.
  - intros x' (s' & r' & n' & _ & Hget' & Hn' & Hp & ->)%saved_files_elem.
    apply save_path_of_inj in Hp as <-. congruence.
  - left. apply saved_files_elem. by exists s, r, n.
Qed.

Lemma saved_files_other (epoch : epoch_val) (names : list pyval) (w : world)
    (p : string) :
  (∀ s, VStr s ∈ names -> p ≠ save_path_of (self w) epoch s) ->
  write_all (saved_files w epoch names) (fs w) !! p = fs w !! p.
Proof.
  intros Hp. apply write_all_other.
  intros ([p' x] & -> & Hin)%list_elem_of_fmap.
  apply saved_files_elem in Hin as (s & _ & _ & Hs & _ & _ & Heq & _).
  by apply (Hp s).
Qed.

(** X2: when every string entry of [model_names] names a network and
    the files can be written, [save_networks(epoch, train_info)] returns
    and leaves, for every such name, the current state dict of its
    network in [save_dir/<epoch>_<name>.pkl]; it writes [iter.txt] in
    [save_dir] exactly when [train_info] is given, touches no other file,
    and changes neither the model nor the networks. *)
Theorem X2_save_networks_writes (epoch : epoch_val)
    (train_info : option (Z * Z)) (w : world) :
  names_resolve w (model_names (self w)) ->
  (∀ s, VStr s ∈ model_names (self w) ->
     write_error (save_path_of (self w) epoch s) = None) ->
  (is_Some train_info ->
     write_error (path_join (save_dir (self w)) "iter.txt") = None) ->
  ∃ w',
    save_networks epoch train_info w = (Ok tt, w')
    ∧ self w' = self w ∧ nets w' = nets w ∧ optim w' = optim w
    ∧ log w' = log w
    ∧ (∀ s r n, VStr s ∈ model_names (self w) ->
         getattr_self (self w) s = Ok (VNet r) -> nets w !! r = Some n ->
         fs w' !! save_path_of (self w) epoch s
           = Some (FCheckpoint (state_dict_of n)))
    ∧ (is_Some train_info ->
         fs w' !! path_join (save_dir (self w)) "iter.txt" = Some FOther)
    ∧ (∀ p, (∀ s, VStr s ∈ model_names (self w) ->
               p ≠ save_path_of (self w) epoch s) ->
            (is_Some train_info ->
               p ≠ path_join (save_dir (self w)) "iter.txt") ->
            fs w' !! p = fs w !! p).
Proof.
  intros Hres Hwr Hiter. unfold save_networks.
  unfold bind at 1, gets at 1. unfold bind at 1.
  rewrite save_loop_ok by done.
  destruct train_info as [[ep it]|].
  - unfold bind, gets, write_file. cbn [self with_fs].
    rewrite Hiter by done. eexists. split; [reflexivity|]. cbn.
    repeat split; try done.
    + intros s r n Hs Hget Hn.
      rewrite lookup_insert_ne by apply iter_path_not_save_path.
      by apply (saved_files_lookup _ _ _ s r n).
    + intros _. apply lookup_insert_eq.
    + intros p Hp Hp'. rewrite lookup_insert_ne by (apply not_eq_sym; eauto).
      by apply saved_files_other.
  - eexists. split; [reflexivity|]. cbn. repeat split; try done.
    + intros s r n. by apply (saved_files_lookup _ _ _ s r n).
    + intros p Hp _. by apply saved_files_other.
Qed.

(** X3: [save_networks] is not atomic. When the string entry [s] of
    [model_names] is the first that has no [state_dict()] (it is no
    attribute of the model, or a value that is neither a network, an
    optimizer nor a scheduler), the call raises [AttributeError]; when
    it is the first whose file cannot be written, the call raises the
    error of the write. In both cases the checkpoints of the entries
    before [s] have been written, and neither the checkpoints of the
    entries after [s] nor [iter.txt] are. *)
Theorem X3_save_networks_stops_at_first_failure (epoch : epoch_val)
    (train_info : option (Z * Z)) (w : world) (before after : list pyval)
    (s : string) (e : exn) :
  model_names (self w) = before ++ VStr s :: after ->
  names_resolve w before ->
  (∀ s', VStr s' ∈ before ->
     write_error (save_path_of (self w) epoch s') = None) ->
  ((∀ v, getattr_self (self w) s = Ok v -> ¬ has_state_dict w v)
   ∧ e = AttributeError)
  ∨ ((∃ v, getattr_self (self w) s = Ok v ∧ has_state_dict w v)
     ∧ write_error (save_path_of (self w) epoch s) = Some e) ->
  ∃ w',
    save_networks epoch train_info w = (Raise e, w')
    ∧ self w' = self w ∧ nets w' = nets w
    ∧ (∀ s' r n, VStr s' ∈ before ->
         getattr_self (self w) s' = Ok (VNet r) -> nets w !! r = Some n ->
         fs w' !! save_path_of (self w) epoch s'
           = Some (FCheckpoint (state_dict_of n)))
    ∧ (∀ p, (∀ s', VStr s' ∈ before ->
               p ≠ save_path_of (self w) epoch s') ->
            fs w' !! p = fs w !! p).
Proof.
  intros Hnames Hres Hwr Hfail. unfold save_networks.
  unfold bind at 1, gets at 1. unfold bind at 1.
  rewrite Hnames, for_each_app, save_loop_ok by done.
  cbn [for_each]. unfold bind at 1.
  set (w1 := with_fs (write_all (saved_files w epoch before) (fs w)) w).
  assert (∀ v, has_state_dict w1 v ↔ has_state_dict w v) as Hsame
    by (by intros []).
  assert (save_network epoch s w1 = (Raise e, w1)) as ->.
  { rewrite save_network_cases. cbn [self w1 with_fs]. fold w1.
    destruct Hfail as [[Hnot ->]|[(v & Hget & Hhas) Hwe]].
    - destruct (getattr_self (self w) s) as [v|e'] eqn:Hget.
      + destruct (net_state_dict_cases v w1) as (_ & _ & Hraise).
        rewrite Hraise; [done|]. rewrite Hsame. by apply Hnot.
      + by apply getattr_self_error in Hget as ->.
    - rewrite Hget. destruct (net_state_dict_cases v w1) as (_ & Hok & _).
      destruct Hok as [sd ->]; [by apply Hsame|]. by rewrite Hwe. }
  eexists. split; [reflexivity|]. cbn. repeat split.
  - intros s' r n. by apply (saved_files_lookup _ _ _ s' r n).
  - intros p Hp. by apply saved_files_other.
Qed.

End SaveProperties.

(** ** Saving, then loading *)

Lemma od_get_elem {V} (d : odict V) (k : string) (v : V) :
  NoDup (OrderedDict.keys d) -> (k, v) ∈ d -> OrderedDict.get k d = Some v.
Proof.
  unfold OrderedDict.keys. induction d as [|[k0 v0] d IH]; cbn.
  - by intros _ ?%elem_of_nil.
  - intros [Hk0 Hnd]%NoDup_cons [[= -> ->]|Hin]%elem_of_cons.
    + by rewrite decide_True.
    + rewrite decide_False; [by apply IH|].
      intros ->. apply Hk0. by apply (list_elem_of_fmap_2 fst) in Hin.
Qed.

Lemma od_get_filter_absent {V} (P : string * V -> Prop)
    `{∀ x, Decision (P x)} (d : odict V) (k : string) :
  k ∉ OrderedDict.keys d -> OrderedDict.get k (filter P d) = None.
Proof.
  intros Hk. apply od_get_None_keys. intros Hin. apply Hk.
  unfold OrderedDict.keys in *.
  apply list_elem_of_fmap in Hin as (kv & -> & Hin).
  apply list_elem_of_filter in Hin as [_ Hin].
  by apply (list_elem_of_fmap_2 fst) in Hin.
Qed.

Section LoadWeightsProperties.
Context `{FW : Framework}.

(** Without stale entries [load_state_dict] works on the whole state
    dict. *)
Lemma load_entries_all (sd : state_dict) (n : net) :
  (∀ k, k ∈ OrderedDict.keys (sd_entries sd) ->
        stale_key (sd_metadata sd) (net_module n) k = false) ->
  load_entries sd n = sd_entries sd
  ∧ existsb (stale_key (sd_metadata sd) (net_module n))
      (OrderedDict.keys (sd_entries sd)) = false.
Proof.
  intros Hstale. unfold load_entries. split.
  - apply filter_Forall_id. apply Forall_forall. intros [k v] Hin. cbn.
    apply Hstale. by apply (list_elem_of_fmap_2 fst) in Hin.
  - apply not_true_is_false. intros (k & Hin & Hk)%existsb_exists.
    apply list_elem_of_In in Hin. by rewrite Hstale in Hk.
Qed.

(** [load_state_dict(strict=False)] with a state dict that has the keys
    of the module, no stale entry and only values that can be copied,
    replaces every entry and reports no error. *)
Lemma load_weights_all (d : odict tensor) (n : net) :
  NoDup (OrderedDict.keys d) ->
  OrderedDict.keys (net_weights n) = OrderedDict.keys d ->
  (∀ k, k ∈ OrderedDict.keys d -> stale_key None (net_module n) k = false) ->
  (∀ k v v', (k, v) ∈ net_weights n -> (k, v') ∈ d ->
             cannot_copy v v' = false) ->
  load_weights (StateDict d None) n
  = Net (net_module n) (net_training n) d (net_numel n)
  ∧ load_errors (StateDict d None) n = false.
Proof.
  intros Hnd Hkeys Hstale Hcopy.
  destruct (load_entries_all (StateDict d None) n Hstale) as [Hall Hno].
  unfold load_weights, load_errors. rewrite Hall, Hno. cbn [sd_entries orb].
  assert (∀ d1 d2 : odict tensor,
    (∀ k v, (k, v) ∈ d1 -> OrderedDict.get k d = Some v) ->
    (∀ k v v', (k, v) ∈ d2 -> (k, v') ∈ d -> cannot_copy v v' = false) ->
    d2.*1 = d1.*1 ->
    copy_weight d <$> d2 = d1
    ∧ existsb (fun kv =>
                 match OrderedDict.get kv.1 d with
                 | Some v => cannot_copy kv.2 v
                 | None => false
                 end) d2 = false) as Hgen.
  { induction d1 as [|[k v] d1 IH]; intros [|[k2 v2] d2] Hget Hcp Heq;
      try done. cbn in Heq. injection Heq as -> Heq. cbn.
    unfold copy_weight at 1. cbn.
    rewrite (Hget k v) by apply list_elem_of_here.
    assert ((k, v) ∈ d) as Hin.
    { pose proof (Hget k v ltac:(apply list_elem_of_here)) as Hg.
      clear -Hg. induction d as [|[k0 v0] d IHd]; [done|]. cbn in Hg.
      case_decide; [injection Hg as ->; subst; apply list_elem_of_here|].
      apply list_elem_of_further. by apply IHd. }
    rewrite (Hcp k v2 v) by (done || apply list_elem_of_here).
    destruct (IH d2) as [-> ->]; [| |done|done].
    - intros k' v' Hin'. apply Hget. by apply list_elem_of_further.
    - intros k' v' v'' Hin'. apply Hcp. by apply list_elem_of_further. }
  destruct (Hgen d (net_weights n)) as [-> ->]; [|done|done|done].
  intros k v. by apply od_get_elem.
Qed.

(** [load_state_dict(strict=False)] with a state dict that has none of
    the keys of the module changes nothing; it reports an error only for
    a stale entry. *)
Lemma load_weights_none (sd : state_dict) (n : net) :
  (∀ k, k ∈ OrderedDict.keys (net_weights n) ->
        k ∉ OrderedDict.keys (sd_entries sd)) ->
  load_weights sd n = n
  ∧ load_errors sd n
    = existsb (stale_key (sd_metadata sd) (net_module n))
        (OrderedDict.keys (sd_entries sd)).
Proof.
  intros Hnone. unfold load_weights, load_errors, load_entries.
  set (entries := filter _ (sd_entries sd)).
  assert (∀ k, k ∈ OrderedDict.keys (net_weights n) ->
               OrderedDict.get k entries = None) as Hget.
  { intros k Hk. by apply od_get_filter_absent, Hnone. }
  clearbody entries. destruct n as [mo tr ws nu]. cbn in *.
  assert (copy_weight entries <$> ws = ws
          ∧ existsb (fun kv =>
              match OrderedDict.get kv.1 entries with
              | Some v => cannot_copy kv.2 v
              | None => false
              end) ws = false) as [-> ->].
  { clear Hnone. induction ws as [|[k v] ws IH]; [done|]. cbn.
    unfold copy_weight at 1. cbn.
    rewrite (Hget k) by apply list_elem_of_here.
    destruct IH as [-> ->]; [|done].
    intros k' Hk'. apply Hget. by apply list_elem_of_further. }
  by rewrite orb_false_r.
Qed.

End LoadWeightsProperties.

Section RoundTripProperties.
Context `{FW : Framework} `{SV : !Saving}.

(** What a successful [save_networks] leaves on disk for a name. *)
Lemma save_networks_saved (epoch : epoch_val) (train_info : option (Z * Z))
    (w : world) :
  names_resolve w (model_names (self w)) ->
  (∀ s, VStr s ∈ model_names (self w) ->
     write_error (save_path_of (self w) epoch s) = None) ->
  (is_Some train_info ->
     write_error (path_join (save_dir (self w)) "iter.txt") = None) ->
  ∃ w',
    save_networks epoch train_info w = (Ok tt, w')
    ∧ self w' = self w ∧ nets w' = nets w
    ∧ ∀ s r n, VStr s ∈ model_names (self w) ->
        getattr_self (self w) s = Ok (VNet r) -> nets w !! r = Some n ->
        fs w' !! save_path_of (self w) epoch s
          = Some (FCheckpoint (state_dict_of n)).
Proof.
  intros Hres Hwr Hiter. unfold save_networks.
  unfold bind at 1, gets at 1. unfold bind at 1.
  rewrite save_loop_ok by done.
  destruct train_info as [[ep it]|].
  - unfold bind, gets, write_file. cbn [self with_fs].
    rewrite Hiter by done. eexists. split; [reflexivity|].
    cbn [self nets fs with_fs]. repeat split.
    intros s r n Hs Hget Hn.
    rewrite lookup_insert_ne by apply iter_path_not_save_path.
    by apply (saved_files_lookup _ _ _ s r n).
  - eexists. split; [reflexivity|]. cbn [self nets fs with_fs].
    repeat split. intros s r n. by apply (saved_files_lookup _ _ _ s r n).
Qed.

(** [load_networks] at a name whose checkpoint exists and names a
    network. *)
Lemma load_networks_loads (epoch : epoch_val) (w w1 : world)
    (before after : list pyval) (s p : string) (r : ref) (n : net)
    (loaded : state_dict) (entries : odict tensor) :
  model_names (self w) = before ++ VStr s :: after ->
  load_names epoch before w = (Ok tt, w1) ->
  load_path_of (self w) epoch s = Ok p ->
  getattr_self (self w) s = Ok (VNet r) ->
  nets w1 !! r = Some n ->
  fs w !! p = Some (FCheckpoint loaded) ->
  (if decide (device (self w) = Cpu)
   then strip_keys (OrderedDict.keys (sd_entries loaded)) (sd_entries loaded)
   else Ok (sd_entries loaded)) = Ok entries ->
  ∃ w3,
    load_networks epoch w =
      (if load_errors (StateDict entries None) n
       then (Raise RuntimeError, w3) else load_names epoch after w3)
    ∧ nets w3 = <[r := load_weights (StateDict entries None) n]> (nets w1)
    ∧ self w3 = self w ∧ fs w3 = fs w.
Proof.
  intros Hn Hb Hp Hv Hr Hfs Hprep.
  destruct (load_networks_at _ _ _ _ _ _ Hn Hb) as (-> & Hs1 & Hf1 & _).
  rewrite <- Hs1 in Hp, Hv, Hprep. rewrite <- Hf1 in Hfs.
  rewrite load_network_cases, Hp, Hv, Hfs, Hprep.
  rewrite net_load_state_dict_cases. cbn [nets with_log]. rewrite Hr.
  eexists (MkWorld (self w1)
             (<[r := load_weights (StateDict entries None) n]> (nets w1))
             (optim w1) (fs w1) (cudnn_enabled w1) (cudnn_benchmark w1) _).
  split; [|by cbn]. by destruct (load_errors _ n).
Qed.

(** X4: a round trip on a CUDA device. After [save_networks(epoch)],
    with a label that does not end in ['pkl'], [load_networks(str(epoch))]
    gives the network of a saved name the weights it had when it was
    saved, whatever values they have taken since, and goes on with the
    next name: the keys being the same, no entry being stale for the
    network and every saved tensor having the shape of the entry it
    replaces. The mode of the network, the model and the files are left
    as they are. *)
Theorem X4_save_then_load_restores (epoch : epoch_val)
    (train_info : option (Z * Z)) (w0 : world) (before after : list pyval)
    (s : string) (r : ref) (n0 : net) (i : Z) :
  names_resolve w0 (model_names (self w0)) ->
  (∀ s', VStr s' ∈ model_names (self w0) ->
     write_error (save_path_of (self w0) epoch s') = None) ->
  (is_Some train_info ->
     write_error (path_join (save_dir (self w0)) "iter.txt") = None) ->
  model_names (self w0) = before ++ VStr s :: after ->
  getattr_self (self w0) s = Ok (VNet r) -> nets w0 !! r = Some n0 ->
  NoDup (OrderedDict.keys (net_weights n0)) ->
  PyStr.suffix 3 (epoch_str epoch) ≠ "pkl" ->
  device (self w0) = Cuda i ->
  ∃ w1,
    save_networks epoch train_info w0 = (Ok tt, w1)
    ∧ ∀ (w2 w2' : world) (n2 : net),
        self w2 = self w1 -> fs w2 = fs w1 ->
        load_names (EStr (epoch_str epoch)) before w2 = (Ok tt, w2') ->
        nets w2' !! r = Some n2 ->
        OrderedDict.keys (net_weights n2) = OrderedDict.keys (net_weights n0) ->
        (∀ k, k ∈ OrderedDict.keys (net_weights n0) ->
              stale_key None (net_module n2) k = false) ->
        (∀ k v v', (k, v) ∈ net_weights n2 -> (k, v') ∈ net_weights n0 ->
                   cannot_copy v v' = false) ->
        ∃ w3,
          load_networks (EStr (epoch_str epoch)) w2
            = load_names (EStr (epoch_str epoch)) after w3
          ∧ nets w3 =
              <[r := Net (net_module n2) (net_training n2) (net_weights n0)
                       (net_numel n2)]> (nets w2')
          ∧ self w3 = self w2 ∧ fs w3 = fs w2.
Proof.
  intros Hres Hwr Hiter Hnames Hget Hn0 Hnd Hpkl Hdev.
  assert (VStr s ∈ model_names (self w0)) as Hs.
  { rewrite Hnames. apply elem_of_app. right. apply list_elem_of_here. }
  destruct (save_networks_saved epoch train_info w0 Hres Hwr Hiter)
    as (w1 & Hsave & Hself & _ & Hfile).
  exists w1. split; [done|].
  intros w2 w2' n2 Hself2 Hfs2 Hb Hn2 Hkeys Hstale Hcopy.
  destruct (load_networks_loads (EStr (epoch_str epoch)) w2 w2' before after
              s (save_path_of (self w0) epoch s) r n2 (state_dict_of n0)
              (net_weights n0)) as (w3 & Hrun & Hnets & Hs3 & Hf3).
  - by rewrite Hself2, Hself.
  - done.
  - rewrite Hself2, Hself.
    by apply (proj1 (load_path_of_label (self w0) epoch s)).
  - by rewrite Hself2, Hself.
  - done.
  - rewrite Hfs2. by apply (Hfile s r n0).
  - rewrite Hself2, Hself, Hdev. by rewrite decide_False.
  - destruct (load_weights_all (net_weights n0) n2 Hnd Hkeys Hstale Hcopy)
      as [Hw He].
    rewrite He in Hrun. rewrite Hw in Hnets. by exists w3.
Qed.

(** X5: the same round trip on the CPU device restores nothing. When no
    weight key of the network is another weight key without its first 7
    characters, [load_networks(str(epoch))] after [save_networks(epoch)]
    leaves every network as it is: the saved keys are shortened before
    [load_state_dict(strict=False)], which then matches none of them. It
    goes on with the next name, unless a shortened key is a stale entry
    for the network, which makes it raise [RuntimeError]. *)
Theorem X5_cpu_save_then_load_restores_nothing (epoch : epoch_val)
    (train_info : option (Z * Z)) (w0 : world) (before after : list pyval)
    (s : string) (r : ref) (n0 : net) :
  names_resolve w0 (model_names (self w0)) ->
  (∀ s', VStr s' ∈ model_names (self w0) ->
     write_error (save_path_of (self w0) epoch s') = None) ->
  (is_Some train_info ->
     write_error (path_join (save_dir (self w0)) "iter.txt") = None) ->
  model_names (self w0) = before ++ VStr s :: after ->
  getattr_self (self w0) s = Ok (VNet r) -> nets w0 !! r = Some n0 ->
  NoDup (OrderedDict.keys (net_weights n0)) ->
  (∀ k k', k ∈ OrderedDict.keys (net_weights n0) ->
           k' ∈ OrderedDict.keys (net_weights n0) -> PyStr.drop 7 k' ≠ k) ->
  PyStr.suffix 3 (epoch_str epoch) ≠ "pkl" ->
  device (self w0) = Cpu ->
  ∃ w1,
    save_networks epoch train_info w0 = (Ok tt, w1)
    ∧ ∀ (w2 w2' : world) (n2 : net),
        self w2 = self w1 -> fs w2 = fs w1 ->
        load_names (EStr (epoch_str epoch)) before w2 = (Ok tt, w2') ->
        nets w2' !! r = Some n2 ->
        OrderedDict.keys (net_weights n2) = OrderedDict.keys (net_weights n0) ->
        ∃ w3,
          nets w3 = nets w2' ∧ self w3 = self w2 ∧ fs w3 = fs w2
          ∧ (load_networks (EStr (epoch_str epoch)) w2
               = load_names (EStr (epoch_str epoch)) after w3
             ∨ load_networks (EStr (epoch_str epoch)) w2
               = (Raise RuntimeError, w3))
          ∧ ((∀ k, k ∈ OrderedDict.keys (net_weights n0) ->
                   stale_key None (net_module n2) (PyStr.drop 7 k) = false) ->
             load_networks (EStr (epoch_str epoch)) w2
             = load_names (EStr (epoch_str epoch)) after w3).
Proof.
  intros Hres Hwr Hiter Hnames Hget Hn0 Hnd Hshort Hpkl Hdev.
  assert (VStr s ∈ model_names (self w0)) as Hs.
  { rewrite Hnames. apply elem_of_app. right. apply list_elem_of_here. }
  destruct (save_networks_saved epoch train_info w0 Hres Hwr Hiter)
    as (w1 & Hsave & Hself & _ & Hfile).
  exists w1. split; [done|]. intros w2 w2' n2 Hself2 Hfs2 Hb Hn2 Hkeys.
  destruct (strip_keys_sound (OrderedDict.keys (net_weights n0))
              (net_weights n0) Hnd Hnd) as (entries & Hstrip & _ & Hentries);
    [done|].
  destruct (load_networks_loads (EStr (epoch_str epoch)) w2 w2' before after
              s (save_path_of (self w0) epoch s) r n2 (state_dict_of n0)
              entries) as (w3 & Hrun & Hnets & Hs3 & Hf3).
  - by rewrite Hself2, Hself.
  - done.
  - rewrite Hself2, Hself.
    by apply (proj1 (load_path_of_label (self w0) epoch s)).
  - by rewrite Hself2, Hself.
  - done.
  - rewrite Hfs2. by apply (Hfile s r n0).
  - rewrite Hself2, Hself, Hdev. by rewrite decide_True.
  - destruct (load_weights_none (StateDict entries None) n2) as [Hw He].
    { intros k Hk Hin. rewrite Hkeys in Hk. cbn in Hin.
      destruct (Hentries k Hin) as [(k' & Hk' & ->)|[_ Hnot]]; [|done].
      by apply (Hshort (PyStr.drop 7 k') k'). }
    rewrite Hw, insert_id in Hnets by done.
    exists w3. split; [done|]. split; [done|]. split; [done|]. split.
    + rewrite Hrun. destruct (load_errors _ n2); [by right|by left].
    + intros Hstale. rewrite Hrun, He. cbn [sd_metadata sd_entries].
      assert (existsb (stale_key None (net_module n2))
                (OrderedDict.keys entries) = false) as ->; [|done].
      apply not_true_is_false.
      intros (k & Hin & Hk)%existsb_exists. apply list_elem_of_In in Hin.
      destruct (Hentries k Hin) as [(k' & Hk' & ->)|[Hin' Hnot]]; [|done].
      by rewrite Hstale in Hk.
Qed.

Lemma fmap_ext_id {A} (f : A -> A) (l : list A) :
  (∀ x, f x = x) -> f <$> l = l.
Proof.
  intros Hf. induction l as [|x l IH]; [done|]. cbn. by rewrite Hf, IH.
Qed.

Lemma drop_module_prefix (k : string) : PyStr.drop 7 ("module." +:+ k) = k.
Proof. reflexivity. Qed.

Lemma no_clash_wrapped (ks : list string) :
  (∀ k, k ∈ ks -> PyStr.startswith "module." k = false) ->
  no_clash (String.app "module." <$> ks).
Proof.
  induction ks as [|k ks IH]; intros Hks; cbn; [done|]. split.
  - rewrite drop_module_prefix.
    intros (k' & -> & _)%list_elem_of_fmap.
    pose proof (Hks _ (list_elem_of_here _ _)) as Hf.
    rewrite startswith_app in Hf. discriminate Hf.
  - apply IH. intros k' Hk'. apply Hks. by apply list_elem_of_further.
Qed.

(** X6: the use the CPU branch is written for. A checkpoint saved from a
    wrapped module, whose keys are ['module.' + k] for the keys [k] of the
    plain network (none of which starts with ['module.']), is loaded on
    the CPU device into the plain network entry by entry: when no entry
    is stale for the network and every saved tensor has the shape of
    the entry it replaces, the network ends with exactly the saved
    weights and [load_networks] goes on with the next name. *)
Theorem X6_cpu_load_of_wrapped_checkpoint (epoch : epoch_val)
    (before after : list pyval) (s p : string) (r : ref) (n : net)
    (saved : odict tensor) (meta : option (odict Z)) (w w1 : world) :
  device (self w) = Cpu ->
  model_names (self w) = before ++ VStr s :: after ->
  load_names epoch before w = (Ok tt, w1) ->
  load_path_of (self w) epoch s = Ok p ->
  getattr_self (self w) s = Ok (VNet r) ->
  nets w1 !! r = Some n ->
  fs w !! p =
    Some (FCheckpoint
            (StateDict ((fun kv => ("module." +:+ kv.1, kv.2)) <$> saved)
               meta)) ->
  NoDup (OrderedDict.keys saved) ->
  (∀ k, k ∈ OrderedDict.keys saved -> PyStr.startswith "module." k = false) ->
  OrderedDict.keys (net_weights n) = OrderedDict.keys saved ->
  (∀ k, k ∈ OrderedDict.keys saved ->
        stale_key None (net_module n) k = false) ->
  (∀ k v v', (k, v) ∈ net_weights n -> (k, v') ∈ saved ->
             cannot_copy v v' = false) ->
  ∃ w',
    load_networks epoch w = load_names epoch after w'
    ∧ nets w' =
        <[r := Net (net_module n) (net_training n) saved (net_numel n)]>
          (nets w1)
    ∧ self w' = self w ∧ fs w' = fs w.
Proof.
  intros Hdev Hnames Hb Hp Hget Hn Hfs Hnd Hplain Hkeys Hstale Hcopy.
  set (wrapped := (fun kv : string * tensor => ("module." +:+ kv.1, kv.2))
                    <$> saved).
  assert (OrderedDict.keys wrapped
          = String.app "module." <$> OrderedDict.keys saved) as Hwk.
  { unfold OrderedDict.keys, wrapped. rewrite <- !list_fmap_compose.
    apply list_fmap_ext. by intros _ [k v] _. }
  assert (strip_keys (OrderedDict.keys wrapped) wrapped = Ok saved) as Hstrip.
  { pose proof (strip_keys_exact wrapped []) as Hex.
    rewrite app_nil_r in Hex. rewrite Hex.
    - f_equal. unfold wrapped. rewrite <- list_fmap_compose.
      apply fmap_ext_id. by intros [k v].
    - rewrite Hwk. by apply no_clash_wrapped.
    - rewrite Hwk, <- list_fmap_compose. by rewrite fmap_ext_id.
    - intros k _. apply not_elem_of_nil. }
  destruct (load_networks_loads epoch w w1 before after s p r n
              (StateDict wrapped meta) saved Hnames Hb Hp Hget Hn Hfs)
    as (w3 & Hrun & Hnets & Hs3 & Hf3).
  { rewrite Hdev, decide_True by done. exact Hstrip. }
  destruct (load_weights_all saved n Hnd Hkeys Hstale Hcopy) as [Hw He].
  rewrite He in Hrun. rewrite Hw in Hnets. by exists w3.
Qed.

End RoundTripProperties.

(** ** Errors of [__patch_instance_norm_state_dict] *)

Lemma resolve_error (module : pyobj) (path : list string) (e : exn) :
  resolve module path = Raise e -> e = AttributeError.
Proof.
  revert module. induction path as [|k path IH]; intros module; cbn; [done|].
  destruct module as [|cls attrs]; cbn; [by intros [= <-]|].
  destruct (assoc k attrs); [apply IH|by intros [= <-]].
Qed.

(** X7: how [__patch_instance_norm_state_dict] fails. An empty key path,
    or an index at or past its end, raises [IndexError]; a path that does
    not resolve raises [AttributeError], and so does an InstanceNorm
    module without the ['running_mean'] or ['running_var'] attribute that
    the path names; an entry to remove that is not in the state dict
    raises [KeyError]. The patch is therefore not idempotent: after it
    has removed the ['num_batches_tracked'] entry of a path, a second
    call for the same path raises [KeyError]. *)
Theorem X7_patch_errors (sd : odict tensor) (module m : pyobj)
    (path : list string) (key : string) :
  (∀ keys i, (length keys <= i)%nat ->
     patch_instance_norm_state_dict sd module keys i = Raise IndexError)
  ∧ ((∃ e, resolve module path = Raise e) ->
     patch_instance_norm_state_dict sd module (path ++ [key]) 0
       = Raise AttributeError)
  ∧ (resolve module path = Ok m -> is_instance_norm m = true ->
     key = "running_mean" ∨ key = "running_var" ->
     (∃ e, obj_getattr m key = Raise e) ->
     patch_instance_norm_state_dict sd module (path ++ [key]) 0
       = Raise AttributeError)
  ∧ (resolve module path = Ok m -> is_instance_norm m = true ->
     key = "num_batches_tracked" ->
     PyStr.join "." (path ++ [key]) ∉ OrderedDict.keys sd ->
     patch_instance_norm_state_dict sd module (path ++ [key]) 0
       = Raise KeyError)
  ∧ (resolve module path = Ok m -> is_instance_norm m = true ->
     key = "num_batches_tracked" ->
     NoDup (OrderedDict.keys sd) ->
     PyStr.join "." (path ++ [key]) ∈ OrderedDict.keys sd ->
     ∃ sd', patch_instance_norm_state_dict sd module (path ++ [key]) 0
              = Ok sd'
            ∧ patch_instance_norm_state_dict sd' module (path ++ [key]) 0
              = Raise KeyError).
Proof.
  assert (∀ d : odict tensor,
    resolve module path = Ok m -> is_instance_norm m = true ->
    key = "num_batches_tracked" ->
    patch_instance_norm_state_dict d module (path ++ [key]) 0 =
    match OrderedDict.pop (PyStr.join "." (path ++ [key])) d with
    | Ok (_, d') => Ok d'
    | Raise e => Raise e
    end) as Hnbt.
  { intros d Hres Hin ->. unfold patch_instance_norm_state_dict.
    rewrite drop_0, patch_from_resolve, Hres. unfold patch_leaf. cbv zeta.
    change (PyStr.startswith "InstanceNorm" (class_name m))
      with (is_instance_norm m). by rewrite Hin. }
  split; [|split; [|split; [|split]]].
  - intros keys i Hi. unfold patch_instance_norm_state_dict.
    by rewrite drop_ge.
  - intros [e He]. unfold patch_instance_norm_state_dict.
    rewrite drop_0, patch_from_resolve, He.
    by apply resolve_error in He as ->.
  - intros Hres Hin Hkey [e He]. unfold patch_instance_norm_state_dict.
    rewrite drop_0, patch_from_resolve, Hres. unfold patch_leaf. cbv zeta.
    change (PyStr.startswith "InstanceNorm" (class_name m))
      with (is_instance_norm m). rewrite Hin, He.
    assert (e = AttributeError) as ->.
    { destruct m as [|cls attrs]; cbn in He; [by injection He|].
      destruct (assoc key attrs); [done|by injection He]. }
    by destruct Hkey as [-> | ->].
  - intros Hres Hin Hkey Habsent%od_get_None_keys.
    rewrite Hnbt by done. unfold OrderedDict.pop. by rewrite Habsent.
  - intros Hres Hin Hkey Hnd [v Hv]%od_get_Some_keys.
    exists (OrderedDict.remove (PyStr.join "." (path ++ [key])) sd).
    rewrite !Hnbt by done. unfold OrderedDict.pop.
    by rewrite Hv, od_get_remove_eq.
Qed.

(** ** [train] and [eval], whatever the names are *)

Section ModeFrameProperties.
Context `{FW : Framework}.

Lemma mode_only_refl (w : world) : mode_only w w.
Proof.
  repeat split. intros r. by destruct (nets w !! r).
Qed.

Lemma mode_only_trans (w1 w2 w3 : world) :
  mode_only w1 w2 -> mode_only w2 w3 -> mode_only w1 w3.
Proof.
  intros (Hs & Ho & Hf & Hn) (Hs' & Ho' & Hf' & Hn').
  repeat split; try congruence. intros r.
  specialize (Hn r). specialize (Hn' r).
  destruct (nets w1 !! r), (nets w2 !! r), (nets w3 !! r); try done.
  destruct Hn as (? & ? & ?), Hn' as (? & ? & ?).
  repeat split; congruence.
Qed.

Lemma mode_only_insert (w : world) (r : ref) (n : net) (mode : bool)
    (l : list event) :
  nets w !! r = Some n ->
  mode_only w
    (MkWorld (self w) (<[r := set_training mode n]> (nets w)) (optim w)
       (fs w) (cudnn_enabled w) (cudnn_benchmark w) l).
Proof.
  intros Hn. repeat split. intros r'. cbn.
  destruct (decide (r = r')) as [<-|Hne].
  - by rewrite Hn, lookup_insert_eq.
  - rewrite lookup_insert_ne by done. by destruct (nets w !! r').
Qed.

(** The loop of [train] and [eval] for any call that either fails with
    [AttributeError], or with [TypeError] on the class of the model, and
    then changes nothing, or sets the mode of one network. *)
Lemma mode_loop_frame (act : pyval -> M unit) (names : list pyval)
    (w w' : world) (res : result unit) :
  (∀ v (w0 w1 : world) res0, act v w0 = (res0, w1) ->
     mode_only w0 w1
     ∧ (res0 = Ok tt ∨ res0 = Raise AttributeError
        ∨ (res0 = Raise TypeError ∧ v = VClass))) ->
  for_each names (fun name =>
    match name with
    | VStr s => let* v := getattr s in act v
    | _ => ret tt
    end) w = (res, w') ->
  mode_only w w'
  ∧ (res = Ok tt ∨ res = Raise AttributeError
     ∨ (res = Raise TypeError
        ∧ ∃ s, VStr s ∈ names ∧ getattr_self (self w) s = Ok VClass)).
Proof.
  intros Hact. revert w. induction names as [|name names IH]; intros w.
  - intros [= <- <-]. split; [apply mode_only_refl|by left].
  - cbn [for_each]. unfold bind at 1.
    assert (∀ w1 : world, mode_only w w1 ->
      for_each names (fun name =>
        match name with
        | VStr s => let* v := getattr s in act v
        | _ => ret tt
        end) w1 = (res, w') ->
      mode_only w w'
      ∧ (res = Ok tt ∨ res = Raise AttributeError
         ∨ (res = Raise TypeError
            ∧ ∃ s, VStr s ∈ name :: names
                   ∧ getattr_self (self w) s = Ok VClass))) as Hrest.
    { intros w1 Hm [Hm' Hr']%IH. split; [by eapply mode_only_trans|].
      destruct Hr' as [?|[?|[? (s & Hin & Hs)]]]; auto.
      right. right. split; [done|]. exists s.
      destruct Hm as (<- & _). split; [by apply list_elem_of_further|done]. }
    destruct name; try (apply Hrest, mode_only_refl).
    unfold bind at 1, getattr at 1.
    destruct (getattr_self (self w) s) as [v|e] eqn:Hget.
    + destruct (act v w) as [[[]|e] w1] eqn:Hbody;
        apply Hact in Hbody as [Hm Hr].
      * by apply Hrest.
      * intros [= <- <-]. split; [done|].
        destruct Hr as [?|[?|[? ->]]]; auto.
        right. right. split; [done|]. exists s.
        split; [apply list_elem_of_here|done].
    + intros [= <- <-]. apply getattr_self_error in Hget as ->.
      split; [apply mode_only_refl|]. right. by left.
Qed.

Lemma net_train_frame (mode : bool) (v : pyval) (w w' : world)
    (res : result unit) :
  net_train v mode w = (res, w') ->
  mode_only w w'
  ∧ (res = Ok tt ∨ res = Raise AttributeError
     ∨ (res = Raise TypeError ∧ v = VClass)).
Proof.
  destruct v; try (intros [= <- <-]; split;
                   [apply mode_only_refl|auto]).
  destruct (nets w !! r) as [n|] eqn:Hn.
  - rewrite (net_train_spec _ _ _ _ Hn). intros [= <- <-].
    split; [by apply mode_only_insert|by left].
  - unfold net_train. rewrite Hn. intros [= <- <-].
    split; [apply mode_only_refl|auto].
Qed.

Lemma net_eval_frame (v : pyval) (w w' : world) (res : result unit) :
  net_eval v w = (res, w') ->
  mode_only w w'
  ∧ (res = Ok tt ∨ res = Raise AttributeError
     ∨ (res = Raise TypeError ∧ v = VClass)).
Proof.
  destruct v; try (intros [= <- <-]; split;
                   [apply mode_only_refl|auto]).
  destruct (nets w !! r) as [n|] eqn:Hn.
  - rewrite (net_eval_spec _ _ _ Hn). intros [= <- <-].
    split; [by apply mode_only_insert|by left].
  - unfold net_eval. rewrite Hn. intros [= <- <-].
    split; [apply mode_only_refl|auto].
Qed.

(** X8: whatever [model_names] holds and whether they return or raise,
    [train] and [eval] change nothing but the mode of networks (and the
    log): no network appears or disappears, weights and modules are the
    same, and so are the model object, the optimizers and the files. The
    exceptions they raise are [AttributeError], for a name that is no
    attribute or whose value has no [train] or [eval], and [TypeError],
    only for a name whose value is the class of the model: a name such
    as ['__class__']. *)
Theorem X8_train_eval_touch_modes_only (w w' : world) (res : result unit) :
  train w = (res, w') ∨ eval w = (res, w') ->
  mode_only w w'
  ∧ (res = Ok tt ∨ res = Raise AttributeError
     ∨ (res = Raise TypeError
        ∧ ∃ s, VStr s ∈ model_names (self w)
               ∧ getattr_self (self w) s = Ok VClass)).
Proof.
  intros [Hrun|Hrun].
  - unfold train in Hrun. unfold bind at 1, gets at 1 in Hrun.
    eapply mode_loop_frame; [|exact Hrun].
    intros v w0 w1 res0. apply net_train_frame.
  - unfold eval in Hrun. unfold bind at 1, gets at 1 in Hrun.
    eapply mode_loop_frame; [|exact Hrun].
    intros v w0 w1 res0. apply net_eval_frame.
Qed.

Lemma names_resolve_modes (mode : bool) (refs : list ref) (w w1 : world)
    (names : list pyval) :
  self w1 = self w ->
  nets w1 = foldl (fun ns r => alter (set_training mode) r ns) (nets w) refs ->
  names_resolve w names -> names_resolve w1 names.
Proof.
  intros Hs Hn Hres s Hin. destruct (Hres s Hin) as (r & Hget & [n Hr]).
  exists r. rewrite Hs, Hn, lookup_foldl_alter, Hr. split; [done|].
  by case_decide.
Qed.

(** X9: [train] and [eval] compose as assignments. When every string
    entry of [model_names] names a network, [eval()] after [train()]
    leaves the networks exactly as [eval()] alone does, [train()] after
    [eval()] exactly as [train()] alone, and a second [train()] changes
    no network. *)
Theorem X9_train_eval_compose (w : world) :
  names_resolve w (model_names (self w)) ->
  ∃ wt we wte wet wtt : world,
    train w = (Ok tt, wt) ∧ eval w = (Ok tt, we)
    ∧ eval wt = (Ok tt, wte) ∧ train we = (Ok tt, wet)
    ∧ train wt = (Ok tt, wtt)
    ∧ nets wte = nets we ∧ nets wet = nets wt ∧ nets wtt = nets wt.
Proof.
  intros Hres.
  pose proof (mode_loop true (fun r => ENetTrain r true)
    (fun v => net_train v true) (model_names (self w)) w
    (net_train_spec true) Hres) as Ht.
  pose proof (mode_loop false ENetEval net_eval (model_names (self w)) w
    net_eval_spec Hres) as He.
  set (refs := named_nets (self w) (model_names (self w))) in *.
  match type of Ht with _ = (_, ?x) => set (wt := x) in * end.
  match type of He with _ = (_, ?x) => set (we := x) in * end.
  assert (names_resolve wt (model_names (self wt))) as Hrt
    by (by apply (names_resolve_modes true refs w)).
  assert (names_resolve we (model_names (self we))) as Hre
    by (by apply (names_resolve_modes false refs w)).
  pose proof (mode_loop false ENetEval net_eval (model_names (self wt)) wt
    net_eval_spec Hrt) as Hte.
  pose proof (mode_loop true (fun r => ENetTrain r true)
    (fun v => net_train v true) (model_names (self we)) we
    (net_train_spec true) Hre) as Het.
  pose proof (mode_loop true (fun r => ENetTrain r true)
    (fun v => net_train v true) (model_names (self wt)) wt
    (net_train_spec true) Hrt) as Htt.
  eexists wt, we, _, _, _.
  split; [exact Ht|]. split; [exact He|]. split; [exact Hte|].
  split; [exact Het|]. split; [exact Htt|].
  cbn [nets self wt we]. fold refs.
  repeat split; apply map_eq; intros r; rewrite !lookup_foldl_alter;
    case_decide; try done; by destruct (nets w !! r).
Qed.

End ModeFrameProperties.

(** ** [setup], then [update_learning_rate] *)

Section SetupFrameProperties.
Context `{FW : Framework}.

Lemma same_but_schedulers_refl (m : BaseModel) : same_but_schedulers m m.
Proof. by repeat split. Qed.

Lemma scheduler_comp_frame (o : Opt) (opts : list ref) (w w' : world)
    (r : result (list ref)) :
  list_comp opts (fun optimizer => call_get_scheduler optimizer o) w
    = (r, w') ->
  self w' = self w ∧ nets w' = nets w ∧ fs w' = fs w.
Proof.
  revert r w. induction opts as [|optimizer opts IH]; intros r w; cbn.
  - by intros [= _ <-].
  - unfold bind at 1, call_get_scheduler. unfold_monad. cbn.
    destruct (get_scheduler optimizer o (optim w)) as [[s|e] st] eqn:Hget.
    + destruct (list_comp opts _ _) as [[l'|e] w1] eqn:Hrest;
        intros [= _ <-]; by apply IH in Hrest as (Hs & Hn & Hf).
    + by intros [= _ <-].
Qed.

Lemma setup_schedulers_frame (o : Opt) (w w1 : world) (r1 : result unit) :
  (if isTrain (self w) then
     let* opts := gets optimizers in
     let* l := list_comp opts
                 (fun optimizer => call_get_scheduler optimizer o) in
     modify_self (set_schedulers l)
   else ret tt) w = (r1, w1) ->
  same_but_schedulers (self w) (self w1) ∧ fs w1 = fs w.
Proof.
  destruct (isTrain (self w)).
  - unfold bind at 1, gets at 1. unfold bind at 1.
    destruct (list_comp _ _ w) as [[l|e] w2] eqn:Hcomp;
      apply scheduler_comp_frame in Hcomp as (Hs & Hn & Hf).
    + unfold_monad. intros [= _ <-]. cbn. by rewrite Hs, Hf.
    + intros [= _ <-]. rewrite Hs, Hf. split; [|done].
      apply same_but_schedulers_refl.
  - intros [= _ <-]. split; [|done]. apply same_but_schedulers_refl.
Qed.

Lemma setup_load_frame (o : Opt) (b : bool) (w1 w2 : world)
    (r2 : result unit) :
  (if b then
     emit (ESelfCall (CallLoadNetworks (opt_load_epoch o))) >>
     load_networks (opt_load_epoch o)
   else ret tt) w1 = (r2, w2) ->
  self w2 = self w1 ∧ fs w2 = fs w1.
Proof.
  destruct b.
  - unfold bind at 1, emit at 1, modify at 1.
    by intros (Hs & Hf & _)%load_networks_frame.
  - by intros [= _ <-].
Qed.

(** Whatever its outcome, [setup] assigns no attribute but
    [self.schedulers] and writes no file. *)
Lemma setup_frame (o : Opt) (w w' : world) (r : result unit) :
  setup o w = (r, w') ->
  same_but_schedulers (self w) (self w') ∧ fs w' = fs w.
Proof.
  unfold setup. unfold bind at 1, gets at 1. unfold bind at 1.
  match goal with
  | |- context [(if isTrain (self w) then ?a else ?b) w] =>
      destruct ((if isTrain (self w) then a else b) w)
        as [[[]|e1] w1] eqn:H1;
        apply setup_schedulers_frame in H1 as (Hm1 & Hf1)
  end.
  2:{ by intros [= _ <-]. }
  unfold bind at 1, gets at 1. unfold bind at 1.
  match goal with
  | |- context [(if ?c then ?a else ?b) w1] =>
      destruct ((if c then a else b) w1) as [[[]|e2] w2] eqn:H2;
        apply setup_load_frame in H2 as (Hs2 & Hf2)
  end.
  2:{ intros [= _ <-]. by rewrite Hs2, Hf2. }
  unfold bind at 1, emit at 1, modify at 1.
  intros (Hs3 & _ & Hf3 & _)%print_networks_frame.
  cbn in Hs3, Hf3. by rewrite Hs3, Hf3, Hs2, Hf2.
Qed.

(** X10: whatever its outcome, [setup] assigns no attribute of the model
    but [self.schedulers] and writes no file. After a [setup] that
    returns in training, [update_learning_rate] steps one scheduler per
    optimizer; with no optimizer registered it steps nothing and raises
    [IndexError], leaving everything as it was. After a [setup] outside
    training on a model that has no [schedulers] attribute,
    [update_learning_rate] raises [AttributeError]. *)
Theorem X10_setup_then_update_learning_rate (o : Opt) (w w1 : world)
    (r : result unit) :
  setup o w = (r, w1) ->
  same_but_schedulers (self w) (self w1) ∧ fs w1 = fs w
  ∧ (r = Ok tt -> isTrain (self w) = true ->
       ∃ l, schedulers (self w1) = Some l
            ∧ length l = length (optimizers (self w))
            ∧ (optimizers (self w) = [] ->
                 update_learning_rate w1 = (Raise IndexError, w1))
            ∧ ∀ w2, update_learning_rate w1 = (Ok tt, w2) ->
                ∃ lr, log w2 = log w1
                        ++ ((fun s => ESchedulerStep s (step_arg (self w)))
                              <$> l)
                        ++ [EPrint (PLearningRate lr)])
  ∧ (isTrain (self w) = false -> schedulers (self w) = None ->
       update_learning_rate w1 = (Raise AttributeError, w1)).
Proof.
  intros Hrun. pose proof (setup_frame _ _ _ _ Hrun) as [Hsame Hfs].
  split; [done|]. split; [done|].
  assert (step_arg (self w1) = step_arg (self w)) as Harg.
  { destruct Hsame as (Ho & _ & _ & _ & _ & _ & _ & _ & _ & _ & Hm & _).
    unfold step_arg. by rewrite Ho, Hm. }
  assert (optimizers (self w1) = optimizers (self w)) as Hopt
    by (by destruct Hsame as (_ & _ & _ & _ & _ & _ & _ & _ & Ho & _)).
  split.
  - intros -> Ht.
    destruct (setup_returns _ _ _ Hrun) as (? & ? & ? & _ & Hsched & _).
    rewrite Ht in Hsched. destruct Hsched as (l & Hl & _ & Hlen & _).
    exists l. split; [done|]. split; [done|].
    rewrite update_learning_rate_unfold, Hl. split.
    + intros Hnil. rewrite Hnil in Hlen. destruct l; [|done]. cbn.
      unfold first_lr. by rewrite Hopt, Hnil.
    + intros w2. destruct (for_each l _ w1) as [[[]|e] w3] eqn:Hloop; [|done].
      apply lr_loop_ok in Hloop as (Hs & Hn & Hf & Hlog).
      destruct (first_lr (self w3) (optim w3)) as [lr|e]; [|done].
      destruct (format_float lr) as [text|e]; [|done].
      intros [= <-]. exists text. cbn. by rewrite Hlog, Harg, <- app_assoc.
  - intros Ht Hnone. rewrite update_learning_rate_unfold.
    enough (schedulers (self w1) = None) as -> by done.
    destruct r as [[]|e].
    + destruct (setup_returns _ _ _ Hrun) as (? & ? & ? & _ & Hsched & _).
      rewrite Ht in Hsched. destruct Hsched as [-> _]. done.
    + clear Harg Hopt Hsame Hfs. revert Hrun.
      unfold setup. unfold bind at 1, gets at 1. rewrite Ht.
      unfold bind at 1. unfold ret at 1. unfold bind at 1, gets at 1.
      unfold bind at 1.
      match goal with
      | |- context [(if ?c then ?a else ?b) w] =>
          destruct ((if c then a else b) w) as [[[]|e2] w2] eqn:H2;
            apply setup_load_frame in H2 as (Hs2 & _)
      end.
      * unfold bind at 1, emit at 1, modify at 1.
        intros (Hs3 & _)%print_networks_frame. cbn in Hs3.
        by rewrite Hs3, Hs2.
      * intros [= _ <-]. by rewrite Hs2.
Qed.

End SetupFrameProperties.

(** ** A model fresh from [__init__] *)

Section FreshProperties.
Context `{FW : Framework} `{SV : !Saving}.

(** X11: right after [BaseModel.__init__] has returned, the three lists
    of names and the list of optimizers are empty, so [train], [eval],
    [load_networks] (even with an int epoch) and [save_networks] without
    [train_info] return and change nothing, [get_current_losses] and
    [get_current_visuals] return empty dicts, [print_networks] prints
    its two banners only, and [setup] returns for every option object:
    in training it leaves an empty list of schedulers, outside training
    it needs no checkpoint. *)
Theorem X11_fresh_model (o : Opt) (w w' : world) :
  BaseModel_init o w = (Ok tt, w') ->
  train w' = (Ok tt, w') ∧ eval w' = (Ok tt, w')
  ∧ (∀ epoch, load_networks epoch w' = (Ok tt, w'))
  ∧ (∀ epoch, save_networks epoch None w' = (Ok tt, w'))
  ∧ get_current_losses w' = (Ok [], w')
  ∧ get_current_visuals w' = (Ok [], w')
  ∧ (∀ verbose, ∃ w2,
       print_networks verbose w' = (Ok tt, w2)
       ∧ log w2 = log w'
           ++ [ EPrint (PText "---------- Networks initialized -------------");
                EPrint (PText "-----------------------------------------------") ])
  ∧ (∀ o2, ∃ w2,
       setup o2 w' = (Ok tt, w2) ∧ nets w2 = nets w' ∧ fs w2 = fs w'
       ∧ optim w2 = optim w'
       ∧ schedulers (self w2) =
           if opt_isTrain o then Some [] else schedulers (self w)).
Proof.
  intros Hrun. apply BaseModel_init_state in Hrun as (Hself & _).
  destruct w' as [m ns st f ce cb l]. cbn in Hself.
  destruct m as [o' ids tr d sd ln mn vn ops ip mt sch at']. cbn in Hself.
  injection Hself as -> -> -> -> -> -> -> -> -> -> -> ->.
  repeat split; try done.
  - intros verbose. eexists. split; [reflexivity|]. cbn.
    by rewrite <- app_assoc.
  - intros o2. unfold setup. unfold_monad. cbn.
    destruct (opt_isTrain o); cbn.
    + destruct (opt_continue_train o2); cbn; eexists; by repeat split.
    + eexists; by repeat split.
Qed.

End FreshProperties.

Section InitFailureProperties.
Context `{FW : Framework}.


End InitFailureProperties.

(** ** [print_networks] *)

Section PrintProperties.
Context `{FW : Framework}.

Lemma print_network_cases (verbose : bool) (s : string) (w : world) :
  print_network verbose s w =
  match getattr_self (self w) s with
  | Ok (VNet r) =>
      match nets w !! r with
      | Some n => (Ok tt, with_log (log w ++ network_report verbose s r n) w)
      | None => (Raise AttributeError, w)
      end
  | Ok _ => (Raise AttributeError, w)
  | Raise e => (Raise e, w)
  end.
Proof.
  unfold print_network, network_report. unfold_monad.
  destruct (getattr_self (self w) s) as [v|e]; [|done].
  destruct v; try done. destruct (nets w !! r) as [n|]; [|done].
  destruct verbose; cbn; by rewrite <- ?app_assoc.
Qed.

Lemma print_loop_ok (verbose : bool) (names : list pyval) (w : world) :
  names_resolve w names ->
  for_each names (fun name =>
    match name with
    | VStr s => print_network verbose s
    | _ => ret tt
    end) w =
  (Ok tt, with_log (log w ++ network_reports verbose w names) w).
Proof.
  revert w. induction names as [|name names IH]; intros w Hres.
  - cbn. unfold ret. rewrite app_nil_r. by destruct w.
  - assert (names_resolve w names) as Hres'
      by (intros s Hin; apply Hres; by apply list_elem_of_further).
    cbn [for_each]. unfold bind at 1.
    destruct name as [| | | | s | | | | | | | | | |];
      try (unfold ret at 1; by rewrite IH).
    destruct (Hres s ltac:(apply list_elem_of_here)) as (r & Hget & [n Hn]).
    rewrite print_network_cases, Hget, Hn. rewrite IH by done.
    unfold network_reports. cbn. rewrite Hget, Hn.
    by rewrite <- app_assoc.
Qed.

(** X13: [print_networks] reads and prints, whatever its outcome: the
    model, the networks, the optimizers and the files are as before.
    When every string entry of [model_names] names a network it returns,
    having printed the opening banner, for every string entry in order
    the network itself (if [verbose]) and the sum of its parameter
    counts, and the closing banner. At the first string entry that names
    no network it raises [AttributeError]: the reports of the entries
    before it are printed, the closing banner is not. *)
Theorem X13_print_networks_report (verbose : bool) (w : world) :
  (∀ r w', print_networks verbose w = (r, w') ->
     self w' = self w ∧ nets w' = nets w ∧ optim w' = optim w
     ∧ fs w' = fs w)
  ∧ (names_resolve w (model_names (self w)) ->
     ∃ w', print_networks verbose w = (Ok tt, w')
       ∧ log w' = log w
           ++ [EPrint (PText "---------- Networks initialized -------------")]
           ++ network_reports verbose w (model_names (self w))
           ++ [EPrint (PText "-----------------------------------------------")])
  ∧ (∀ before s after,
       model_names (self w) = before ++ VStr s :: after ->
       names_resolve w before ->
       ¬ (∃ r, getattr_self (self w) s = Ok (VNet r)
               ∧ is_Some (nets w !! r)) ->
       ∃ w', print_networks verbose w = (Raise AttributeError, w')
         ∧ log w' = log w
             ++ [EPrint (PText "---------- Networks initialized -------------")]
             ++ network_reports verbose w before).
Proof.
  split; [|split].
  - intros r w' (Hs & Hn & Hf & Ho & _)%print_networks_frame. done.
  - intros Hres. unfold print_networks.
    unfold bind at 1. unfold emit at 1, modify at 1.
    unfold bind at 1, gets at 1. cbn [self with_log]. unfold bind at 1.
    rewrite print_loop_ok by done. unfold emit, modify. eexists.
    split; [reflexivity|]. cbn. by rewrite <- !app_assoc.
  - intros before s after Hnames Hres Hbad. unfold print_networks.
    unfold bind at 1. unfold emit at 1, modify at 1.
    unfold bind at 1, gets at 1. cbn [self with_log]. unfold bind at 1.
    rewrite Hnames, for_each_app, print_loop_ok by done.
    cbn [for_each]. unfold bind at 1. rewrite print_network_cases.
    cbn [self nets with_log].
    destruct (getattr_self (self w) s) as [v|e] eqn:Hget.
    + destruct v; try (eexists; split; [reflexivity|];
                       cbn; by rewrite <- !app_assoc).
      destruct (nets w !! r) as [n|] eqn:Hn.
      * exfalso. apply Hbad. by exists r.
      * eexists; split; [reflexivity|]. cbn. by rewrite <- !app_assoc.
    + apply getattr_self_error in Hget as ->.
      eexists; split; [reflexivity|]. cbn. by rewrite <- !app_assoc.
Qed.

End PrintProperties.

(** ** [set_requires_grad] *)

Lemma set_flags_lookup (b : bool) (params : list ref) (g : gmap ref bool)
    (p : ref) :
  set_flags b params g !! p = if decide (p ∈ params) then Some b else g !! p.
Proof.
  unfold set_flags. revert g.
  induction params as [|q params IH]; intros g; cbn.
  - by rewrite decide_False by apply not_elem_of_nil.
  - rewrite IH. destruct (decide (p ∈ params)) as [Hin|Hin].
    + rewrite decide_True; [done|]. by apply list_elem_of_further.
    + destruct (decide (p = q)) as [->|Hne].
      * rewrite lookup_insert_eq, decide_True; [done|apply list_elem_of_here].
      * rewrite lookup_insert_ne by done. rewrite decide_False; [done|].
        intros [?|?]%elem_of_cons; done.
Qed.

Lemma listed_params_cons (parameters : gmap ref (list ref)) (v : pyval)
    (l : list pyval) (p : ref) :
  p ∈ listed_params parameters (v :: l) ↔
  (∃ r params, v = VNet r ∧ parameters !! r = Some params ∧ p ∈ params)
  ∨ p ∈ listed_params parameters l.
Proof.
  unfold listed_params. cbn. rewrite elem_of_app. split.
  - intros [Hin|Hin]; [left|by right].
    destruct v; try by apply elem_of_nil in Hin.
    destruct (parameters !! r) as [params|] eqn:Hr; cbn in Hin;
      [by exists r, params|by apply elem_of_nil in Hin].
  - intros [(r & params & -> & Hr & Hin)|Hin]; [left|by right].
    by rewrite Hr.
Qed.

Lemma set_requires_grad_loop_ok (parameters : gmap ref (list ref))
    (l : list pyval) (b : bool) (g : gmap ref bool) :
  Forall (has_parameters parameters) l ->
  ∃ g', set_requires_grad_loop parameters l b g = (Ok tt, g')
    ∧ ∀ p, g' !! p =
        if decide (p ∈ listed_params parameters l) then Some b else g !! p.
Proof.
  intros Hall. revert g. induction Hall as [|v l Hv Hall IH]; intros g.
  - exists g. split; [done|]. intros p.
    by rewrite decide_False by apply not_elem_of_nil.
  - destruct Hv as [->|(r & -> & [params Hr])].
    + destruct (IH g) as (g' & Hrun & Hg'). exists g'. split; [done|].
      intros p. rewrite Hg'.
      destruct (decide (p ∈ listed_params parameters l)) as [Hin|Hin].
      * rewrite decide_True; [done|]. apply listed_params_cons. by right.
      * rewrite decide_False; [done|].
        intros [(? & ? & ? & _)|?]%listed_params_cons; done.
    + destruct (IH (set_flags b params g)) as (g' & Hrun & Hg').
      exists g'. cbn [set_requires_grad_loop]. rewrite Hr.
      split; [done|]. intros p. rewrite Hg', set_flags_lookup.
      destruct (decide (p ∈ listed_params parameters l)) as [Hin|Hin].
      * rewrite decide_True; [done|]. apply listed_params_cons. by right.
      * destruct (decide (p ∈ params)) as [Hp|Hp].
        -- rewrite decide_True; [done|]. apply listed_params_cons. left.
           by exists r, params.
        -- rewrite decide_False; [done|].
           intros [(r' & params' & [= <-] & Hr' & Hp')|?]%listed_params_cons;
             [|done]. rewrite Hr in Hr'. by injection Hr' as <-.
Qed.

Lemma set_requires_grad_loop_app (parameters : gmap ref (list ref))
    (l1 l2 : list pyval) (b : bool) (g : gmap ref bool) :
  set_requires_grad_loop parameters (l1 ++ l2) b g =
  match set_requires_grad_loop parameters l1 b g with
  | (Ok _, g1) => set_requires_grad_loop parameters l2 b g1
  | (Raise e, g1) => (Raise e, g1)
  end.
Proof.
  revert g. induction l1 as [|v l1 IH]; intros g; [done|].
  cbn [app set_requires_grad_loop].
  destruct v; try done. by destruct (parameters !! r).
Qed.

(** X14: [set_requires_grad] treats a value that is not a list as the
    list of that value and skips [None]. When every other entry is a
    network, it returns, and afterwards every parameter of a listed
    network has the flag [requires_grad], also a parameter shared with a
    network that is not listed; all other parameters keep their flag. At
    the first entry that has no [parameters()] it raises
    [AttributeError] and the parameters of the networks before it keep
    their new flag. *)
Theorem X14_set_requires_grad (parameters : gmap ref (list ref))
    (nets : pyval) (b : bool) (g : gmap ref bool) :
  let l := match nets with VList l => l | v => [v] end in
  (set_requires_grad parameters nets b g
   = set_requires_grad parameters (VList l) b g)
  ∧ (set_requires_grad parameters (VList (VNone :: l)) b g
     = set_requires_grad parameters (VList l) b g)
  ∧ (Forall (has_parameters parameters) l ->
     ∃ g', set_requires_grad parameters nets b g = (Ok tt, g')
       ∧ ∀ p, g' !! p =
           if decide (p ∈ listed_params parameters l) then Some b
           else g !! p)
  ∧ (∀ before v after,
       l = before ++ v :: after ->
       Forall (has_parameters parameters) before ->
       ¬ has_parameters parameters v ->
       ∃ g', set_requires_grad parameters nets b g
             = (Raise AttributeError, g')
         ∧ ∀ p, g' !! p =
             if decide (p ∈ listed_params parameters before) then Some b
             else g !! p).
Proof.
  intros l. split; [done|]. split; [done|]. split.
  - intros Hall. by apply set_requires_grad_loop_ok.
  - intros before v after Hl Hall Hbad.
    unfold set_requires_grad. fold l. rewrite Hl, set_requires_grad_loop_app.
    destruct (set_requires_grad_loop_ok parameters before b g Hall)
      as (g1 & -> & Hg1).
    exists g1. split; [|done]. cbn [set_requires_grad_loop].
    destruct v; try done.
    + exfalso. apply Hbad. by left.
    + destruct (parameters !! r) as [params|] eqn:Hr; [|done].
      exfalso. apply Hbad. right. exists r. by rewrite Hr.
Qed.

(** ** [load_networks]: what it can touch *)

Section LoadFrameProperties.
Context `{FW : Framework}.

Lemma same_but_weights_refl (n : net) : same_but_weights n n.
Proof. by repeat split. Qed.

Lemma load_weights_same (sd : state_dict) (n : net) :
  same_but_weights n (load_weights sd n).
Proof.
  repeat split. unfold load_weights. cbn. rewrite <- list_fmap_compose.
  apply list_fmap_ext. intros i kv _. cbn. unfold copy_weight.
  destruct (OrderedDict.get kv.1 _) as [v|]; [|done].
  by destruct (cannot_copy kv.2 v).
Qed.

Lemma weights_only_log (w : world) (l : list event) :
  weights_only w (with_log l w).
Proof.
  repeat split. intros r. cbn. destruct (nets w !! r); [|done].
  apply same_but_weights_refl.
Qed.

Lemma weights_only_trans (w1 w2 w3 : world) :
  weights_only w1 w2 -> weights_only w2 w3 -> weights_only w1 w3.
Proof.
  intros (Hs & Ho & Hf & Hn) (Hs' & Ho' & Hf' & Hn').
  repeat split; try congruence. intros r.
  specialize (Hn r). specialize (Hn' r).
  destruct (nets w1 !! r), (nets w2 !! r), (nets w3 !! r); try done.
  destruct Hn as (? & ? & ? & ?), Hn' as (? & ? & ? & ?).
  repeat split; congruence.
Qed.

Lemma weights_only_insert (w : world) (r : ref) (n : net) (sd : state_dict)
    (l : list event) :
  nets w !! r = Some n ->
  weights_only w
    (MkWorld (self w) (<[r := load_weights sd n]> (nets w)) (optim w)
       (fs w) (cudnn_enabled w) (cudnn_benchmark w) l).
Proof.
  intros Hn. repeat split. intros r'. cbn.
  destruct (decide (r = r')) as [<-|Hne].
  - rewrite Hn, lookup_insert_eq. apply load_weights_same.
  - rewrite lookup_insert_ne by done. destruct (nets w !! r'); [|done].
    apply same_but_weights_refl.
Qed.

Lemma net_load_state_dict_weights_only (v : pyval) (sd : state_dict)
    (w0 w w' : world) (res : result unit) :
  weights_only w0 w ->
  net_load_state_dict v sd w = (res, w') -> weights_only w0 w'.
Proof.
  intros Hw. rewrite net_load_state_dict_cases.
  destruct v; try (by intros [= _ <-]).
  destruct (nets w !! r) as [n|] eqn:Hn; [|by intros [= _ <-]].
  intros [= _ <-]. eapply weights_only_trans; [exact Hw|].
  by apply weights_only_insert.
Qed.

Lemma load_network_weights_only (epoch : epoch_val) (s : string)
    (w w' : world) (res : result unit) :
  load_network epoch s w = (res, w') -> weights_only w w'.
Proof.
  rewrite load_network_cases.
  destruct (load_path_of (self w) epoch s) as [p|e];
    [|intros [= _ <-]; apply (weights_only_log w (log w))].
  destruct (getattr_self (self w) s) as [v|e];
    [|intros [= _ <-]; apply (weights_only_log w (log w))].
  destruct (fs w !! p) as [[loaded|]|];
    try (intros [= _ <-]; apply weights_only_log).
  cbv zeta.
  match goal with
  | |- match ?x with Ok _ => _ | Raise _ => _ end = _ -> _ =>
      destruct x as [entries|e]; [|intros [= _ <-]; apply weights_only_log]
  end.
  apply net_load_state_dict_weights_only, weights_only_log.
Qed.

(** X16: whatever the epoch, the files and the outcome, [load_networks]
    changes nothing but tensors (and the log): every network keeps its
    module, its mode, its parameter counts and the keys of its weights,
    no network appears or disappears, and the model object, the
    optimizers and the files are as before. *)
Theorem X16_load_networks_touches_weights_only (epoch : epoch_val)
    (w w' : world) (res : result unit) :
  load_networks epoch w = (res, w') -> weights_only w w'.
Proof.
  unfold load_networks. unfold bind at 1, gets at 1.
  generalize (model_names (self w)). intros names. revert w.
  unfold load_names.
  induction names as [|name names IH]; intros w; cbn [for_each].
  - intros [= _ <-]. repeat split. intros r. destruct (nets w !! r); [|done].
    apply same_but_weights_refl.
  - unfold bind at 1. destruct name; try apply IH.
    destruct (load_network epoch s w) as [[[]|e] w1] eqn:Hbody;
      apply load_network_weights_only in Hbody.
    + intros Hrest%IH. by eapply weights_only_trans.
    + by intros [= _ <-].
Qed.

Lemma load_path_of_self (m m' : BaseModel) (epoch : epoch_val) (s : string) :
  save_dir m' = save_dir m -> load_path_of m' epoch s = load_path_of m epoch s.
Proof. intros Hd. unfold load_path_of. by rewrite Hd. Qed.

Lemma missing_loop (epoch : epoch_val) (names : list pyval) (w : world) :
  isTrain (self w) = true ->
  (∀ s, VStr s ∈ names ->
     is_ok (getattr_self (self w) s) = true
     ∧ ∃ p, load_path_of (self w) epoch s = Ok p ∧ fs w !! p = None) ->
  for_each names (fun name =>
    match name with
    | VStr s => load_network epoch s
    | _ => ret tt
    end) w =
  (Ok tt, with_log (log w ++ missing_reports (self w) epoch names) w).
Proof.
  intros Ht. revert w Ht. induction names as [|name names IH]; intros w Ht Hall.
  - cbn. unfold ret. rewrite app_nil_r. by destruct w.
  - assert (∀ s, VStr s ∈ names ->
       is_ok (getattr_self (self w) s) = true
       ∧ ∃ p, load_path_of (self w) epoch s = Ok p ∧ fs w !! p = None)
      as Hall' by (intros s Hin; apply Hall; by apply list_elem_of_further).
    cbn [for_each]. unfold bind at 1.
    destruct name as [| | | | s | | | | | | | | | |];
      try (unfold ret at 1; by rewrite IH).
    destruct (Hall s ltac:(apply list_elem_of_here))
      as (Hattr & p & Hp & Hfs).
    rewrite load_network_cases, Hp.
    destruct (getattr_self (self w) s) as [v|e]; [|done].
    rewrite Hfs, Ht. rewrite IH by done.
    unfold missing_reports. cbn. rewrite Hp. cbn.
    by rewrite <- app_assoc.
Qed.

(** X15: in training, when every string entry of [model_names] is an
    attribute of the model (a network or not) and none of the
    checkpoints exists, [load_networks] returns: for each string entry,
    in order, it has tested the path and printed that the file is
    missing, and it has changed nothing else. No file is opened, no
    state dict is loaded. *)
Theorem X15_load_networks_training_without_files (epoch : epoch_val)
    (w : world) :
  isTrain (self w) = true ->
  (∀ s, VStr s ∈ model_names (self w) ->
     is_ok (getattr_self (self w) s) = true
     ∧ ∃ p, load_path_of (self w) epoch s = Ok p ∧ fs w !! p = None) ->
  ∃ w', load_networks epoch w = (Ok tt, w')
    ∧ self w' = self w ∧ nets w' = nets w ∧ optim w' = optim w
    ∧ fs w' = fs w
    ∧ log w' = log w ++ missing_reports (self w) epoch (model_names (self w))
    ∧ ∀ ev, ev ∈ log w' -> ev ∈ log w ∨
        (∀ p ml, ev ≠ ETorchLoad p ml) ∧ (∀ r sd b, ev ≠ ELoadStateDict r sd b).
Proof.
  intros Ht Hall. unfold load_networks. unfold bind at 1, gets at 1.
  unfold load_names. rewrite missing_loop by done. eexists. split; [reflexivity|].
  cbn. repeat split. intros ev [Hin|Hin]%elem_of_app; [by left|right].
  unfold missing_reports in Hin.
  apply list_elem_of_bind in Hin as (s & Hin & _).
  destruct (load_path_of (self w) epoch s); [|by apply elem_of_nil in Hin].
  apply elem_of_cons in Hin as [->|Hin]; [done|].
  apply list_elem_of_singleton in Hin as ->. done.
Qed.

End LoadFrameProperties.

(** ** The further properties on the example configurations *)

Section Concrete2.
Import Demo Demo2.
Local Existing Instance framework.
Local Existing Instance saving_in_dir.

Ltac demo_names :=
  let s := fresh "s" in
  let Hs := fresh "Hs" in
  intros s Hs; cbn in Hs;
  apply elem_of_cons in Hs as [[= ->]|Hs];
  [|apply elem_of_cons in Hs as [Hs|Hs];
    [discriminate Hs|by apply elem_of_nil in Hs]].

Ltac demo_resolve :=
  unfold names_resolve; demo_names; exists 1%nat;
  split; [vm_compute; reflexivity|vm_compute; eauto].

Lemma X2_save_networks_writes_witness :
  ∃ w',
    save_networks (EStr "latest") (Some (3, 100)) (world0 true (Cuda 0) ∅)
      = (Ok tt, w')
    ∧ fs w' !! "checkpoints/May/latest_G.pkl"
        = Some (FCheckpoint (state_dict_of generator))
    ∧ fs w' !! "checkpoints/May/iter.txt" = Some FOther.
Proof.
  destruct (X2_save_networks_writes (EStr "latest") (Some (3, 100))
              (world0 true (Cuda 0) ∅))
    as (w' & Hrun & _ & _ & _ & _ & Hfiles & Hiter & _).
  - demo_resolve.
  - demo_names. vm_compute. reflexivity.
  - intros _. vm_compute. reflexivity.
  - exists w'. split; [exact Hrun|]. split.
    + apply (Hfiles "G" 1%nat generator);
        [apply list_elem_of_here|vm_compute; reflexivity
        |vm_compute; reflexivity].
    + apply Hiter. by eexists.
Defined.

Lemma X3_save_networks_stops_at_first_failure_witness :
  ∃ w',
    save_networks (EStr "latest") (Some (3, 100)) world_two_names
      = (Raise AttributeError, w')
    ∧ fs w' !! "checkpoints/May/latest_G.pkl"
        = Some (FCheckpoint (state_dict_of generator))
    ∧ fs w' !! "checkpoints/May/iter.txt" = None.
Proof.
  destruct (X3_save_networks_stops_at_first_failure (EStr "latest")
              (Some (3, 100)) world_two_names [VStr "G"] [] "D"
              AttributeError)
    as (w' & Hrun & _ & _ & Hfiles & Hother).
  - reflexivity.
  - intros s Hs. apply list_elem_of_singleton in Hs as [= ->].
    exists 1%nat. split; [vm_compute; reflexivity|vm_compute; eauto].
  - intros s Hs. apply list_elem_of_singleton in Hs as [= ->].
    vm_compute. reflexivity.
  - left. split; [|reflexivity]. intros r Hr. vm_compute in Hr.
    discriminate Hr.
  - exists w'. split; [exact Hrun|]. split.
    + apply (Hfiles "G" 1%nat generator);
        [apply list_elem_of_here|vm_compute; reflexivity
        |vm_compute; reflexivity].
    + rewrite Hother; [reflexivity|].
      intros s Hs. apply list_elem_of_singleton in Hs as [= ->].
      vm_compute. discriminate.
Defined.

Lemma X4_save_then_load_restores_witness :
  ∃ w1 w3 : world,
    save_networks (EStr "latest") None (world0 true (Cuda 0) ∅) = (Ok tt, w1)
    ∧ load_networks (EStr "latest")
        (with_nets {[ 1%nat := trained_generator ]} w1) = (Ok tt, w3)
    ∧ nets w3 !! 1%nat =
        Some (Net (net_module generator) true [ ("conv1.weight", 10) ]
                (net_numel generator)).
Proof.
  destruct (X4_save_then_load_restores (EStr "latest") None
              (world0 true (Cuda 0) ∅) [] [VNone] "G" 1%nat generator 0)
    as (w1 & Hsave & Hload).
  - demo_resolve.
  - demo_names. vm_compute. reflexivity.
  - intros [x Hx]. discriminate Hx.
  - reflexivity.
  - vm_compute. reflexivity.
  - vm_compute. reflexivity.
  - apply (bool_decide_unpack _). by vm_compute.
  - vm_compute. discriminate.
  - reflexivity.
  - destruct (Hload (with_nets {[ 1%nat := trained_generator ]} w1)
                (with_nets {[ 1%nat := trained_generator ]} w1)
                trained_generator) as (w3 & Hl & Hn & _).
    + reflexivity.
    + reflexivity.
    + reflexivity.
    + vm_compute. reflexivity.
    + reflexivity.
    + intros k Hk. apply list_elem_of_singleton in Hk as ->.
      vm_compute. reflexivity.
    + intros k v v' Hv Hv'. apply list_elem_of_singleton in Hv as [= -> ->].
      apply list_elem_of_singleton in Hv' as [= ->]. vm_compute. reflexivity.
    + exists w1, w3. split; [exact Hsave|]. split; [exact Hl|].
      rewrite Hn. apply lookup_insert_eq.
Defined.

Lemma X5_cpu_save_then_load_restores_nothing_witness :
  ∃ w1 w3 : world,
    save_networks (EStr "latest") None (world0 true Cpu ∅) = (Ok tt, w1)
    ∧ load_networks (EStr "latest")
        (with_nets {[ 1%nat := trained_generator ]} w1) = (Ok tt, w3)
    ∧ nets w3 !! 1%nat = Some trained_generator.
Proof.
  destruct (X5_cpu_save_then_load_restores_nothing (EStr "latest") None
              (world0 true Cpu ∅) [] [VNone] "G" 1%nat generator)
    as (w1 & Hsave & Hload).
  - demo_resolve.
  - demo_names. vm_compute. reflexivity.
  - intros [x Hx]. discriminate Hx.
  - reflexivity.
  - vm_compute. reflexivity.
  - vm_compute. reflexivity.
  - apply (bool_decide_unpack _). by vm_compute.
  - intros k k' Hk Hk'. apply list_elem_of_singleton in Hk as ->.
    apply list_elem_of_singleton in Hk' as ->. vm_compute. discriminate.
  - vm_compute. discriminate.
  - reflexivity.
  - destruct (Hload (with_nets {[ 1%nat := trained_generator ]} w1)
                (with_nets {[ 1%nat := trained_generator ]} w1)
                trained_generator) as (w3 & Hn & _ & _ & _ & Hl).
    + reflexivity.
    + reflexivity.
    + reflexivity.
    + vm_compute. reflexivity.
    + reflexivity.
    + exists w1, w3. split; [exact Hsave|]. split.
      * apply Hl. intros k Hk. apply list_elem_of_singleton in Hk as ->.
        vm_compute. reflexivity.
      * rewrite Hn. vm_compute. reflexivity.
Defined.

Lemma X6_cpu_load_of_wrapped_checkpoint_witness :
  ∃ w',
    load_networks (EStr "latest") (world0 false Cpu wrapped_files)
      = (Ok tt, w')
    ∧ nets w' !! 1%nat =
        Some (Net (net_module generator) false [ ("conv1.weight", 21) ]
                (net_numel generator)).
Proof.
  destruct (X6_cpu_load_of_wrapped_checkpoint (EStr "latest") [] [VNone] "G"
              "checkpoints/May/latest_G.pkl" 1%nat generator
              [ ("conv1.weight", 21) ] (Some [ ("", 1) ])
              (world0 false Cpu wrapped_files)
              (world0 false Cpu wrapped_files))
    as (w' & Hrun & Hn & _).
  - reflexivity.
  - reflexivity.
  - reflexivity.
  - vm_compute. reflexivity.
  - vm_compute. reflexivity.
  - vm_compute. reflexivity.
  - vm_compute. reflexivity.
  - apply (bool_decide_unpack _). by vm_compute.
  - intros k Hk. apply list_elem_of_singleton in Hk as ->.
    vm_compute. reflexivity.
  - reflexivity.
  - intros k Hk. apply list_elem_of_singleton in Hk as ->.
    vm_compute. reflexivity.
  - intros k v v' Hv Hv'. apply list_elem_of_singleton in Hv as [= -> ->].
    apply list_elem_of_singleton in Hv' as [= ->]. vm_compute. reflexivity.
  - exists w'. split; [exact Hrun|]. rewrite Hn. apply lookup_insert_eq.
Defined.

Lemma X8_train_eval_touch_modes_only_witness :
  mode_only world_class_name (train world_class_name).2
  ∧ (train world_class_name).1 = Raise TypeError
  ∧ nets (train world_class_name).2 !! 1%nat
    = Some (Net (net_module generator) true (net_weights generator)
              (net_numel generator)).
Proof.
  destruct (X8_train_eval_touch_modes_only world_class_name
              (train world_class_name).2 (train world_class_name).1)
    as [Hm Hr].
  - left. vm_compute. reflexivity.
  - split; [exact Hm|]. split; vm_compute; reflexivity.
Defined.

Lemma X9_train_eval_compose_witness :
  ∃ wt we wte : world,
    train (world0 true Cpu ∅) = (Ok tt, wt)
    ∧ eval (world0 true Cpu ∅) = (Ok tt, we)
    ∧ eval wt = (Ok tt, wte)
    ∧ nets wte = nets we.
Proof.
  destruct (X9_train_eval_compose (world0 true Cpu ∅))
    as (wt & we & wte & wet & wtt & Ht & He & Hte & _ & _ & Hn & _).
  - demo_resolve.
  - exists wt, we, wte. split; [exact Ht|]. split; [exact He|].
    split; [exact Hte|exact Hn].
Defined.

Lemma X11_fresh_model_witness :
  ∃ w' w2 : world,
    BaseModel_init (options true [2; 3] (EStr "latest")) (world0 false Cpu ∅)
      = (Ok tt, w')
    ∧ load_networks (EInt 5) w' = (Ok tt, w')
    ∧ setup (options false [] (EStr "latest")) w' = (Ok tt, w2)
    ∧ schedulers (self w2) = Some [].
Proof.
  destruct (X11_fresh_model (options true [2; 3] (EStr "latest"))
              (world0 false Cpu ∅)
              (BaseModel_init (options true [2; 3] (EStr "latest"))
                 (world0 false Cpu ∅)).2)
    as (_ & _ & Hload & _ & _ & _ & _ & Hsetup).
  - vm_compute. reflexivity.
  - destruct (Hsetup (options false [] (EStr "latest")))
      as (w2 & Hrun & _ & _ & _ & Hsched).
    eexists _, w2. split; [vm_compute; reflexivity|].
    split; [apply Hload|]. split; [exact Hrun|exact Hsched].
Defined.

Lemma X10_setup_then_update_learning_rate_witness :
  ∃ w' w1 : world,
    BaseModel_init (options true [] (EStr "latest")) (world0 false Cpu ∅)
      = (Ok tt, w')
    ∧ setup (options true [] (EStr "latest")) w' = (Ok tt, w1)
    ∧ update_learning_rate w1 = (Raise IndexError, w1).
Proof.
  pose (w' := (BaseModel_init (options true [] (EStr "latest"))
                 (world0 false Cpu ∅)).2).
  pose (w1 := (setup (options true [] (EStr "latest")) w').2).
  destruct (X10_setup_then_update_learning_rate
              (options true [] (EStr "latest")) w' w1 (Ok tt))
    as (_ & _ & Htrain & _).
  - vm_compute. reflexivity.
  - destruct Htrain as (l & _ & _ & Hraise & _);
      [reflexivity|vm_compute; reflexivity|].
    exists w', w1. split; [vm_compute; reflexivity|].
    split; [vm_compute; reflexivity|]. apply Hraise.
    vm_compute. reflexivity.
Defined.


Lemma X13_print_networks_report_witness :
  ∃ w',
    print_networks true (world0 true Cpu ∅) = (Ok tt, w')
    ∧ log w' =
        [ EPrint (PText "---------- Networks initialized -------------");
          EPrint (PNet 1%nat); EPrint (PNumParams "G" 30);
          EPrint (PText "-----------------------------------------------") ].
Proof.
  destruct (proj1 (proj2 (X13_print_networks_report true
                            (world0 true Cpu ∅))))
    as (w' & Hrun & Hlog).
  - demo_resolve.
  - exists w'. split; [exact Hrun|]. rewrite Hlog. vm_compute. reflexivity.
Defined.

Lemma X14_set_requires_grad_witness :
  ∃ g',
    set_requires_grad net_parameters (VList [VNet 1%nat; VNone]) false
      grad_flags = (Ok tt, g')
    ∧ g' !! 10%nat = Some false ∧ g' !! 11%nat = Some false
    ∧ g' !! 12%nat = Some true.
Proof.
  destruct (proj1 (proj2 (proj2
              (X14_set_requires_grad net_parameters
                 (VList [VNet 1%nat; VNone]) false grad_flags))))
    as (g' & Hrun & Hg').
  - apply Forall_cons. split.
    + right. exists 1%nat. split; [reflexivity|]. vm_compute. eauto.
    + apply Forall_cons. split; [by left|done].
  - exists g'. split; [exact Hrun|]. rewrite !Hg'.
    repeat split; vm_compute; reflexivity.
Defined.

Lemma X15_load_networks_training_without_files_witness :
  ∃ w',
    load_networks (EStr "latest") (world0 true Cpu ∅) = (Ok tt, w')
    ∧ nets w' = nets (world0 true Cpu ∅)
    ∧ log w' =
        [ EPathExists "checkpoints/May/latest_G.pkl";
          EPrint (PText "No model weight file: checkpoints/May/latest_G.pkl initialize model without pre-trained weights.") ].
Proof.
  destruct (X15_load_networks_training_without_files (EStr "latest")
              (world0 true Cpu ∅))
    as (w' & Hrun & _ & Hn & _ & _ & Hlog & _).
  - reflexivity.
  - demo_names. split; [vm_compute; reflexivity|].
    exists "checkpoints/May/latest_G.pkl".
    split; vm_compute; reflexivity.
  - exists w'. split; [exact Hrun|]. split; [exact Hn|].
    rewrite Hlog. vm_compute. reflexivity.
Defined.

Lemma X16_load_networks_touches_weights_only_witness :
  weights_only (world0 false (Cuda 0) files0)
    (load_networks (EStr "latest") (world0 false (Cuda 0) files0)).2.
Proof.
  apply (X16_load_networks_touches_weights_only (EStr "latest")
           (world0 false (Cuda 0) files0)
           (load_networks (EStr "latest") (world0 false (Cuda 0) files0)).2
           (load_networks (EStr "latest") (world0 false (Cuda 0) files0)).1).
  vm_compute. reflexivity.
Defined.

Lemma X1_save_and_load_paths_witness :
  load_path_of (model true Cpu) (EStr "12") "G"
    = Ok (save_path_of (model true Cpu) (EInt 12) "G")
  ∧ load_path_of (model true Cpu) (EInt 12) "G" = Raise TypeError.
Proof.
  destruct (X1_save_and_load_paths (model true Cpu) (EInt 12) "G")
    as (Hsame & _ & _ & Hint & _).
  split.
  - apply Hsame. vm_compute. discriminate.
  - apply (Hint 12). reflexivity.
Defined.

Lemma X7_patch_errors_witness :
  ∃ sd',
    patch_instance_norm_state_dict (sd_entries checkpoint)
      (net_module generator) ["norm"; "num_batches_tracked"] 0 = Ok sd'
    ∧ patch_instance_norm_state_dict sd' (net_module generator)
        ["norm"; "num_batches_tracked"] 0 = Raise KeyError.
Proof.
  destruct (X7_patch_errors (sd_entries checkpoint) (net_module generator)
              instance_norm ["norm"] "num_batches_tracked")
    as (_ & _ & _ & _ & Htwice).
  apply Htwice.
  - vm_compute. reflexivity.
  - vm_compute. reflexivity.
  - reflexivity.
  - apply (bool_decide_unpack _). by vm_compute.
  - apply list_elem_of_In. vm_compute. tauto.
Defined.

End Concrete2.
